(** * The forward/reply relay of email_handler.py

    A shallow embedding of [MailHandler.handle_DATA], [handle_forward] and
    [handle_reply] (src/email_handler.py).  Python strings are Rocq strings,
    the ORM tables are lists of records in insertion order, the parsed
    message is an ordered header list with a body, and the handler bodies
    are written in a small state-and-exception monad whose state holds the
    database session, the calls made to the notifier and to the outbound
    SMTP transport, and the message object the handler mutates. *)

From Stdlib Require Import String Ascii List Bool Arith ZArith Lia.
From Stdlib Require Import DecimalString.
From Stdlib Require Import Sorted Permutation.
Import ListNotations.
Open Scope string_scope.

(** ** Python string operations used by the handler *)

Module Py.

(** [c.lower()] on one ASCII character. *)
Definition lower_ascii (c : ascii) : ascii :=
  let n := nat_of_ascii c in
  if ((65 <=? n)%nat && (n <=? 90)%nat)%bool then ascii_of_nat (n + 32) else c.

(** [s.lower()]. *)
Fixpoint lower (s : string) : string :=
  match s with
  | EmptyString => EmptyString
  | String c s' => String (lower_ascii c) (lower s')
  end.

(** [s.startswith(p)]. *)
Definition startswith (s p : string) : bool := String.prefix p s.

(** [s.endswith(suffix)]. *)
Definition endswith (s suffix : string) : bool :=
  (String.length suffix <=? String.length s)%nat
  && String.eqb
       (String.substring (String.length s - String.length suffix)
                         (String.length suffix) s)
       suffix.

(** [s.find(sub)]: the index of the first occurrence, or -1. *)
Definition find (s sub : string) : Z :=
  match String.index 0 sub s with
  | Some i => Z.of_nat i
  | None => (-1)%Z
  end.

(** [sub in s]. *)
Definition contains (s sub : string) : bool :=
  match String.index 0 sub s with
  | Some _ => true
  | None => false
  end.

(** [s[i:]], with Python's reading of a negative index. *)
Definition slice_from (s : string) (i : Z) : string :=
  let len := Z.of_nat (String.length s) in
  let start := if (i <? 0)%Z then Z.max 0 (len + i) else Z.min i len in
  String.substring (Z.to_nat start) (String.length s - Z.to_nat start) s.

(** [s[:i]], with Python's reading of a negative index. *)
Definition slice_to (s : string) (i : Z) : string :=
  let len := Z.of_nat (String.length s) in
  let stop := if (i <? 0)%Z then Z.max 0 (len + i) else Z.min i len in
  String.substring 0 (Z.to_nat stop) s.

(** [s.replace(old, new)] for a non-empty [old]: every non-overlapping
    occurrence, left to right.  [skip] counts the characters of a matched
    occurrence still to be dropped. *)
Fixpoint replace_from (skip : nat) (s old new : string) : string :=
  match s with
  | EmptyString => EmptyString
  | String c s' =>
      match skip with
      | S k => replace_from k s' old new
      | O =>
          if String.prefix old s
          then new ++ replace_from (String.length old - 1) s' old new
          else String c (replace_from 0 s' old new)
      end
  end.

(** [s.replace(old, new)]; with an empty [old] Python puts [new] around
    every character. *)
Definition replace (s old new : string) : string :=
  match old with
  | EmptyString =>
      new ++ (fix go (t : string) : string :=
                match t with
                | EmptyString => EmptyString
                | String c t' => String c (new ++ go t')
                end) s
  | _ => replace_from 0 s old new
  end.

(** The line feed. *)
Definition LF : string := String "010"%char EmptyString.

(** [str(n)] for a non-negative integer. *)
Definition str (n : nat) : string := NilEmpty.string_of_uint (Nat.to_uint n).

(** [x in xs] for a list of strings. *)
Definition in_list (x : string) (xs : list string) : bool :=
  existsb (String.eqb x) xs.

(** Exceptions the handler can raise. *)
Inductive exn : Type :=
| IndexError
| KeyError (key : string)
| AttributeError (attr : string)
| NameError (name : string).

End Py.

(** ** Data model

    The rows of app.models as the handler reads and writes them.  A
    relationship attribute ([gen_email.user], [gen_email.mailbox],
    [directory.user], [custom_domain.user]) is kept as the related row
    itself; [forward_email.gen_email] is a lookup by [gen_email_id], since
    the reply pipeline depends on it resolving. *)

Record User : Type := mkUser {
  user_id : nat;
  user_name : string;
  user_email : string;
  (** the verdict of [user.can_create_new_alias()] when the message arrives *)
  can_create_new_alias : bool
}.

Record Mailbox : Type := mkMailbox {
  mailbox_id : nat;
  mailbox_email : string
}.

Record GenEmail : Type := mkGenEmail {
  ge_id : nat;
  ge_email : string;
  ge_user : User;
  (** [Some] exactly when [mailbox_id] is set *)
  ge_mailbox : option Mailbox;
  ge_enabled : bool;
  ge_directory_id : option nat;
  ge_custom_domain_id : option nat;
  ge_automatic_creation : bool
}.

Record Directory : Type := mkDirectory {
  dir_id : nat;
  dir_name : string;
  dir_user : User
}.

Record CustomDomain : Type := mkCustomDomain {
  cd_id : nat;
  cd_domain : string;
  cd_catch_all : bool;
  cd_dkim_verified : bool;
  cd_user : User
}.

(** The correspondent mapping.  [website_from] holds what [msg["From"]] was,
    which is [None] for a message without that header. *)
Record ForwardEmail : Type := mkForwardEmail {
  fe_id : nat;
  fe_gen_email_id : nat;
  fe_website_email : string;
  fe_website_from : option string;
  fe_reply_email : string
}.

Record ForwardEmailLog : Type := mkForwardEmailLog {
  fel_id : nat;
  fel_forward_id : nat;
  fel_is_reply : bool;
  fel_blocked : bool
}.

(** What [render(template, **kwargs)] was asked to produce, or a literal. *)
Inductive Body : Type :=
| Render (template : string) (kwargs : list (string * string))
| Text (s : string).

(** A call to the notifier. *)
Inductive Notification : Type :=
| SendEmail (to_email subject : string) (plaintext html : Body)
| CannotCreateDirectoryAlias (user : User) (alias directory_name : string)
| CannotCreateDomainAlias (user : User) (alias domain : string).

(** A call [smtp.sendmail(from_addr, to_addrs, msg, mail_options, rcpt_options)]. *)
Record Sendmail : Type := mkSendmail {
  sm_from : string;
  sm_to : string;
  sm_msg : string;
  sm_mail_options : list string;
  sm_rcpt_options : list string
}.

(** The parsed message: headers in order, and the body. *)
Record Message : Type := mkMessage {
  headers : list (string * string);
  body : string
}.

Record Envelope : Type := mkEnvelope {
  mail_from : string;
  rcpt_tos : list string;
  content : string;
  mail_options : list string;
  rcpt_options : list string
}.

(** The database session together with what the handler did to the world
    outside it. *)
Record World : Type := mkWorld {
  gen_emails : list GenEmail;
  forward_emails : list ForwardEmail;
  forward_email_logs : list ForwardEmailLog;
  directories : list Directory;
  custom_domains : list CustomDomain;
  (** calls of [db.session.commit()] so far *)
  commits : nat;
  (** calls of [random_string] so far *)
  random_calls : nat;
  (** notifier calls, oldest first *)
  notifications : list Notification;
  (** [smtp.sendmail] calls, oldest first *)
  outbox : list Sendmail
}.

(** The state a handler runs in: the world and the message object. *)
Record Ctx : Type := mkCtx {
  db : World;
  msg : Message
}.

(** What email_handler.py imports from modules that are not among the
    sources: the constants of app.config, the [From]-header parsers of
    app.email_utils, the external signer, app.utils.random_string and the
    message parser.  [msg["From"]] is [None] when the header is missing, so the
    parsers take an [option string]. *)
Record App : Type := mkApp {
  EMAIL_DOMAIN : string;
  ALIAS_DOMAINS : list string;
  URL : string;
  (** [random_string k n]: what the k-th call returns when asked for length n *)
  random_string : nat -> nat -> string;
  get_email_name : option string -> string;
  get_email_part : option string -> string;
  (** the signature the external signer computes for a message and a domain *)
  dkim_sign : Message -> string -> string;
  parsestr : string -> Message
}.

(** ** The handler monad: state passing with Python exceptions *)

Inductive result (A : Type) : Type :=
| Ok (a : A)
| Raised (e : Py.exn).
Arguments Ok {A} a.
Arguments Raised {A} e.

Definition M (A : Type) : Type := Ctx -> result A * Ctx.

Definition ret {A : Type} (a : A) : M A := fun c => (Ok a, c).

Definition raise {A : Type} (e : Py.exn) : M A := fun c => (Raised e, c).

Definition bind {A B : Type} (m : M A) (f : A -> M B) : M B :=
  fun c =>
    match m c with
    | (Ok a, c') => f a c'
    | (Raised e, c') => (Raised e, c')
    end.

Declare Scope handler_scope.
Delimit Scope handler_scope with handler.
Notation "x <- m ;; k" := (bind m (fun x => k))
  (at level 61, m at next level, right associativity) : handler_scope.
Notation "m ;; k" := (bind m (fun _ => k))
  (at level 61, right associativity) : handler_scope.
Open Scope handler_scope.

Definition get_db : M World := fun c => (Ok (db c), c).

Definition modify_db (f : World -> World) : M unit :=
  fun c => (Ok tt, mkCtx (f (db c)) (msg c)).

Definition get_msg : M Message := fun c => (Ok (msg c), c).

Definition put_msg (m : Message) : M unit :=
  fun c => (Ok tt, mkCtx (db c) m).

(** ** Queries and writes of the ORM *)

(** The first row a query matches ([.first()]). *)
Definition first_by {A : Type} (p : A -> bool) (rows : list A) : option A :=
  find p rows.

(** A fresh primary key. *)
Definition next_id (ids : list nat) : nat := S (list_max ids).

(** [GenEmail.get_by(email=...)]. *)
Definition GenEmail_get_by_email (w : World) (email : string) : option GenEmail :=
  first_by (fun g => String.eqb (ge_email g) email) (gen_emails w).

(** [forward_email.gen_email]. *)
Definition GenEmail_get (w : World) (id : nat) : option GenEmail :=
  first_by (fun g => Nat.eqb (ge_id g) id) (gen_emails w).

(** [Directory.get_by(name=...)]. *)
Definition Directory_get_by_name (w : World) (name : string) : option Directory :=
  first_by (fun d => String.eqb (dir_name d) name) (directories w).

(** [CustomDomain.get_by(domain=...)]. *)
Definition CustomDomain_get_by_domain (w : World) (domain : string) : option CustomDomain :=
  first_by (fun d => String.eqb (cd_domain d) domain) (custom_domains w).

(** The filter [gen_email_id=..., website_email=...] on mappings. *)
Definition for_pair (gen_email_id : nat) (website_email : string) (f : ForwardEmail) : bool :=
  Nat.eqb (fe_gen_email_id f) gen_email_id && String.eqb (fe_website_email f) website_email.

(** [ForwardEmail.get_by(gen_email_id=..., website_email=...)]. *)
Definition ForwardEmail_get_by (w : World) (gen_email_id : nat) (website_email : string)
  : option ForwardEmail :=
  first_by (for_pair gen_email_id website_email) (forward_emails w).

(** [ForwardEmail.get_by(reply_email=...)]. *)
Definition ForwardEmail_get_by_reply_email (w : World) (reply_email : string)
  : option ForwardEmail :=
  first_by (fun f => String.eqb (fe_reply_email f) reply_email) (forward_emails w).

Definition with_gen_emails (l : list GenEmail) (w : World) : World :=
  mkWorld l (forward_emails w) (forward_email_logs w) (directories w) (custom_domains w)
          (commits w) (random_calls w) (notifications w) (outbox w).

Definition with_forward_emails (l : list ForwardEmail) (w : World) : World :=
  mkWorld (gen_emails w) l (forward_email_logs w) (directories w) (custom_domains w)
          (commits w) (random_calls w) (notifications w) (outbox w).

Definition with_forward_email_logs (l : list ForwardEmailLog) (w : World) : World :=
  mkWorld (gen_emails w) (forward_emails w) l (directories w) (custom_domains w)
          (commits w) (random_calls w) (notifications w) (outbox w).

Definition with_commits (n : nat) (w : World) : World :=
  mkWorld (gen_emails w) (forward_emails w) (forward_email_logs w) (directories w)
          (custom_domains w) n (random_calls w) (notifications w) (outbox w).

Definition with_random_calls (n : nat) (w : World) : World :=
  mkWorld (gen_emails w) (forward_emails w) (forward_email_logs w) (directories w)
          (custom_domains w) (commits w) n (notifications w) (outbox w).

Definition with_notifications (l : list Notification) (w : World) : World :=
  mkWorld (gen_emails w) (forward_emails w) (forward_email_logs w) (directories w)
          (custom_domains w) (commits w) (random_calls w) l (outbox w).

Definition with_outbox (l : list Sendmail) (w : World) : World :=
  mkWorld (gen_emails w) (forward_emails w) (forward_email_logs w) (directories w)
          (custom_domains w) (commits w) (random_calls w) (notifications w) l.

(** [db.session.commit()]: the rows written so far are already visible to
    the session's later queries; the call is only counted. *)
Definition commit : M unit :=
  modify_db (fun w => with_commits (S (commits w)) w).

(** [GenEmail.create(email=..., user_id=..., directory_id=..., custom_domain_id=...,
    automatic_creation=...)]: a new row, enabled and without a mailbox of
    its own (the column defaults). *)
Definition GenEmail_create (email : string) (user : User)
    (directory_id custom_domain_id : option nat) (automatic_creation : bool) : M GenEmail :=
  w <- get_db ;;
  let g := mkGenEmail (next_id (map ge_id (gen_emails w))) email user None true
                      directory_id custom_domain_id automatic_creation in
  modify_db (fun w => with_gen_emails (gen_emails w ++ [g]) w) ;;
  ret g.

(** [ForwardEmail.create(gen_email_id=..., website_email=..., website_from=...,
    reply_email=...)]. *)
Definition ForwardEmail_create (gen_email_id : nat) (website_email : string)
    (website_from : option string) (reply_email : string) : M ForwardEmail :=
  w <- get_db ;;
  let f := mkForwardEmail (next_id (map fe_id (forward_emails w))) gen_email_id
                          website_email website_from reply_email in
  modify_db (fun w => with_forward_emails (forward_emails w ++ [f]) w) ;;
  ret f.

(** A mapping with its [website_from] given a new value. *)
Definition website_from_set (value : option string) (f : ForwardEmail) : ForwardEmail :=
  mkForwardEmail (fe_id f) (fe_gen_email_id f) (fe_website_email f) value (fe_reply_email f).

(** An assignment to an attribute of the object a query returned: the
    first row the query matches is changed in place. *)
Fixpoint update_first {A : Type} (p : A -> bool) (f : A -> A) (rows : list A) : list A :=
  match rows with
  | [] => []
  | x :: rows' => if p x then f x :: rows' else x :: update_first p f rows'
  end.

(** [ForwardEmailLog.create(forward_id=..., is_reply=...)]; [blocked]
    defaults to false. *)
Definition ForwardEmailLog_create (forward_id : nat) (is_reply : bool) : M ForwardEmailLog :=
  w <- get_db ;;
  let l := mkForwardEmailLog (next_id (map fel_id (forward_email_logs w))) forward_id
                             is_reply false in
  modify_db (fun w => with_forward_email_logs (forward_email_logs w ++ [l]) w) ;;
  ret l.

(** [forward_log.blocked = True] on the row with this id. *)
Definition set_blocked (id : nat) (l : list ForwardEmailLog) : list ForwardEmailLog :=
  map (fun e => if Nat.eqb (fel_id e) id
                then mkForwardEmailLog (fel_id e) (fel_forward_id e) (fel_is_reply e) true
                else e) l.

(** A notifier call. *)
Definition notify (n : Notification) : M unit :=
  modify_db (fun w => with_notifications (notifications w ++ [n]) w).

(** [send_email(to_email, subject, plaintext, html)]. *)
Definition send_email (to_email subject : string) (plaintext html : Body) : M unit :=
  notify (SendEmail to_email subject plaintext html).

(** [smtp.sendmail(...)]. *)
Definition sendmail (from_addr to_addr raw : string) (mopts ropts : list string) : M unit :=
  modify_db (fun w => with_outbox (outbox w ++ [mkSendmail from_addr to_addr raw mopts ropts]) w).

(** ** The message object *)

(** [a == b] on values that are a string or [None]. *)
Definition header_eqb (a b : option string) : bool :=
  match a, b with
  | Some x, Some y => String.eqb x y
  | None, None => true
  | _, _ => false
  end.

(** Header names compare without case. *)
Definition same_header (name : string) (h : string * string) : bool :=
  String.eqb (Py.lower (fst h)) (Py.lower name).

(** [msg[name]]: the first header of that name, or [None]. *)
Definition msg_get (m : Message) (name : string) : option string :=
  option_map snd (find (same_header name) (headers m)).

(** The header list with the first header named [name] given the value [value]. *)
Fixpoint replace_first (name value : string) (hs : list (string * string))
  : option (list (string * string)) :=
  match hs with
  | [] => None
  | h :: hs' =>
      if same_header name h then Some ((fst h, value) :: hs')
      else option_map (cons h) (replace_first name value hs')
  end.

(** [msg.replace_header(name, value)] of email.message: the first header of
    that name keeps its name and takes the value; [KeyError] without one. *)
Definition replace_header (name value : string) : M unit :=
  m <- get_msg ;;
  match replace_first name value (headers m) with
  | Some hs => put_msg (mkMessage hs (body m))
  | None => raise (Py.KeyError (Py.lower name))
  end.

(** Modelled from the spec: app.email_utils.delete_header is not among the
    sources; the spec has it "remove any existing" header of that name. *)
Definition delete_header (name : string) : M unit :=
  m <- get_msg ;;
  put_msg (mkMessage (filter (fun h => negb (same_header name h)) (headers m)) (body m)).

(** Modelled from the spec: app.email_utils.add_or_replace_header is not
    among the sources; the spec has it set or add the header (an upsert). *)
Definition add_or_replace_header (name value : string) : M unit :=
  m <- get_msg ;;
  match replace_first name value (headers m) with
  | Some hs => put_msg (mkMessage hs (body m))
  | None => put_msg (mkMessage (headers m ++ [(name, value)]) (body m))
  end.

(** [msg.as_string()]: one line per header, an empty line, the body. *)
Definition as_string (m : Message) : string :=
  String.concat "" (map (fun h => fst h ++ ": " ++ snd h ++ Py.LF) (headers m))
  ++ Py.LF ++ body m.

(** ** The handlers *)

Section Relay.

Variable app : App.

(** [envelope.rcpt_tos[0].lower()]. *)
Definition first_rcpt (envelope : Envelope) : M string :=
  match rcpt_tos envelope with
  | [] => raise Py.IndexError
  | r :: _ => ret (Py.lower r)
  end.

(** Modelled from the spec: app.email_utils.get_email_domain_part is not
    among the sources; the spec has it "extract the domain part of the
    address", which [handle_reply] itself writes [alias[alias.find("@") + 1 :]]. *)
Definition get_email_domain_part (email : string) : string :=
  Py.slice_from email (Py.find email "@" + 1).

(** Modelled from the spec: app.email_utils.email_belongs_to_alias_domains
    is not among the sources; the spec has it say that "the alias's domain
    is ... one of the service's reserved domains". *)
Definition email_belongs_to_alias_domains (email : string) : bool :=
  Py.in_list (get_email_domain_part email) (ALIAS_DOMAINS app).

(** Modelled from the spec: app.email_utils.add_dkim_signature is not among
    the sources; the spec has the signer, "given a message and a signing
    domain, attach a cryptographic signature header". *)
Definition add_dkim_signature (email_domain : string) : M unit :=
  m <- get_msg ;;
  put_msg (mkMessage (headers m ++ [("DKIM-Signature", dkim_sign app m email_domain)])
                     (body m)).

(** [random_string(n)]: the next sample of the random source. *)
Definition next_random_string (n : nat) : M string :=
  w <- get_db ;;
  modify_db (fun w => with_random_calls (S (random_calls w)) w) ;;
  ret (random_string app (random_calls w) n).

(** The delivery target, and the authorized sender of replies: the alias's
    own mailbox if set, else the user's email. *)
Definition mailbox_email_of (gen_email : GenEmail) : string :=
  match ge_mailbox gen_email with
  | Some mailbox => mailbox_email mailbox
  | None => user_email (ge_user gen_email)
  end.

(** *** handle_forward *)

(** Lines 132-166: an alias of a directory, created on the fly.  The result
    is the new alias when [on_the_fly] was set. *)
Definition provision_directory_alias (alias : string) : M (option GenEmail) :=
  if email_belongs_to_alias_domains alias then
    if Py.contains alias "/" || Py.contains alias "+" || Py.contains alias "#" then
      let sep := if Py.contains alias "/" then "/"
                 else if Py.contains alias "+" then "+" else "#" in
      let directory_name := Py.slice_to alias (Py.find alias sep) in
      w <- get_db ;;
      match Directory_get_by_name w directory_name with
      | Some directory =>
          if can_create_new_alias (dir_user directory) then
            g <- GenEmail_create alias (dir_user directory) (Some (dir_id directory))
                                 None false ;;
            commit ;;
            ret (Some g)
          else
            notify (CannotCreateDirectoryAlias (dir_user directory) alias directory_name) ;;
            ret None
      | None => ret None
      end
    else ret None
  else ret None.

(** Lines 170-196: an alias of a catch-all custom domain, created on the fly. *)
Definition provision_domain_alias (alias : string) : M (option GenEmail) :=
  let alias_domain := get_email_domain_part alias in
  w <- get_db ;;
  match CustomDomain_get_by_domain w alias_domain with
  | Some custom_domain =>
      if cd_catch_all custom_domain then
        if can_create_new_alias (cd_user custom_domain) then
          g <- GenEmail_create alias (cd_user custom_domain) None
                               (Some (cd_id custom_domain)) true ;;
          commit ;;
          ret (Some g)
        else
          notify (CannotCreateDomainAlias (cd_user custom_domain) alias alias_domain) ;;
          ret None
      else ret None
  | None => ret None
  end.

(** Lines 122-200: the alias the message is for, or [None] where the
    handler returns 510. *)
Definition resolve_alias (alias : string) : M (option GenEmail) :=
  w <- get_db ;;
  match GenEmail_get_by_email w alias with
  | Some gen_email => ret (Some gen_email)
  | None =>
      on_the_fly <- provision_directory_alias alias ;;
      match on_the_fly with
      | Some gen_email => ret (Some gen_email)
      | None => provision_domain_alias alias
      end
  end.

(** Lines 227-230: [for _ in range(n)], sampling a reply address and
    leaving the loop at the first one no mapping has.  [reply_email] is the
    loop variable's value so far ([None]: not bound yet). *)
Fixpoint generate_reply_email (n : nat) (reply_email : option string) : M (option string) :=
  match n with
  | O => ret reply_email
  | S n' =>
      r <- next_random_string 30 ;;
      let reply_email := "reply+" ++ r ++ "@" ++ EMAIL_DOMAIN app in
      w <- get_db ;;
      match ForwardEmail_get_by_reply_email w reply_email with
      | None => ret (Some reply_email)
      | Some _ => generate_reply_email n' (Some reply_email)
      end
  end.

(** Lines 209-238: the mapping of the alias and the correspondent, fetched
    or created. *)
Definition get_or_create_forward_email (gen_email : GenEmail) (website_email : string)
  : M ForwardEmail :=
  m <- get_msg ;;
  w <- get_db ;;
  match ForwardEmail_get_by w (ge_id gen_email) website_email with
  | Some forward_email =>
      if negb (header_eqb (fe_website_from forward_email) (msg_get m "From")) then
        modify_db (fun w => with_forward_emails
                              (update_first (for_pair (ge_id gen_email) website_email)
                                            (website_from_set (msg_get m "From"))
                                            (forward_emails w)) w) ;;
        commit ;;
        ret (website_from_set (msg_get m "From") forward_email)
      else ret forward_email
  | None =>
      sampled <- generate_reply_email 1000 None ;;
      match sampled with
      | None => raise (Py.NameError "reply_email")
      | Some reply_email =>
          forward_email <- ForwardEmail_create (ge_id gen_email) website_email
                                               (msg_get m "From") reply_email ;;
          commit ;;
          ret forward_email
      end
  end.

(** Lines 252-257: the [From] header of a forwarded message. *)
Definition forward_from_header (email_name website_email reply_email : string) : string :=
  email_name
  ++ (if String.eqb email_name "" then "" else " - ")
  ++ Py.replace website_email "@" " at "
  ++ " <" ++ reply_email ++ ">".

(** The value of the [List-Unsubscribe] header for an alias id. *)
Definition unsubscribe_header (gen_email_id : nat) : string :=
  "<" ++ URL app ++ "/dashboard/unsubscribe/" ++ Py.str gen_email_id ++ ">".

(** Lines 243-268: the header transform of the forward direction. *)
Definition forward_transform (gen_email : GenEmail) (forward_email : ForwardEmail)
    (website_email : string) : M unit :=
  add_or_replace_header "X-SimpleLogin-Type" "Forward" ;;
  delete_header "Reply-To" ;;
  m <- get_msg ;;
  let from_header :=
    forward_from_header (get_email_name app (msg_get m "From")) website_email
                        (fe_reply_email forward_email) in
  replace_header "From" from_header ;;
  add_or_replace_header "List-Unsubscribe" (unsubscribe_header (ge_id gen_email)) ;;
  add_or_replace_header "List-Unsubscribe-Post" "List-Unsubscribe=One-Click" ;;
  add_dkim_signature (EMAIL_DOMAIN app).

(** Lines 240-293: the log entry, and the message forwarded to the mailbox
    or, for a disabled alias, dropped. *)
Definition forward_deliver (envelope : Envelope) (gen_email : GenEmail)
    (mailbox_email : string) (forward_email : ForwardEmail) (website_email : string)
  : M string :=
  forward_log <- ForwardEmailLog_create (fe_id forward_email) false ;;
  (if ge_enabled gen_email then
     forward_transform gen_email forward_email website_email ;;
     m <- get_msg ;;
     let msg_raw := as_string m in
     sendmail (fe_reply_email forward_email) mailbox_email msg_raw
              (mail_options envelope) (rcpt_options envelope)
   else
     modify_db (fun w => with_forward_email_logs
                           (set_blocked (fel_id forward_log) (forward_email_logs w)) w)) ;;
  commit ;;
  ret "250 Message accepted for delivery".

(** Lines 202-293: the message for a resolved alias. *)
Definition forward_relay (envelope : Envelope) (gen_email : GenEmail) : M string :=
  let mailbox_email := mailbox_email_of gen_email in
  m <- get_msg ;;
  let website_email := get_email_part app (msg_get m "From") in
  forward_email <- get_or_create_forward_email gen_email website_email ;;
  forward_deliver envelope gen_email mailbox_email forward_email website_email.

(** [handle_forward(envelope, smtp, msg)]; [msg] is the message of the
    state the handler runs in. *)
Definition handle_forward (envelope : Envelope) : M string :=
  alias <- first_rcpt envelope ;;
  resolved <- resolve_alias alias ;;
  match resolved with
  | None => ret "510 Email not exist"
  | Some gen_email => forward_relay envelope gen_email
  end.

(** *** handle_reply *)

(** Lines 332-361: the two notifications of an unauthorized reply. *)
Definition notify_unauthorized_reply (envelope : Envelope) (gen_email : GenEmail)
    (mailbox_email reply_email : string) : M unit :=
  let alias := ge_email gen_email in
  let user := ge_user gen_email in
  let kwargs := [("name", user_name user); ("alias", alias);
                 ("sender", mail_from envelope); ("mailbox_email", mailbox_email)] in
  send_email mailbox_email
             ("Reply from your alias " ++ alias ++ " only works from your mailbox")
             (Render "transactional/reply-must-use-personal-email.txt" kwargs)
             (Render "transactional/reply-must-use-personal-email.html" kwargs) ;;
  send_email (mail_from envelope)
             ("Your email (" ++ mail_from envelope ++ ") is not allowed to send emails to "
              ++ reply_email)
             (Render "transactional/send-from-alias-from-unknown-sender.txt"
                     [("sender", mail_from envelope); ("reply_email", reply_email)])
             (Text "").

(** Lines 365-384: the header transform of the reply direction. *)
Definition reply_transform (alias : string) (forward_email : ForwardEmail) : M unit :=
  delete_header "DKIM-Signature" ;;
  replace_header "From" alias ;;
  delete_header "Reply-To" ;;
  replace_header "To" (fe_website_email forward_email) ;;
  add_or_replace_header "List-Unsubscribe"
                        (unsubscribe_header (fe_gen_email_id forward_email)) ;;
  add_or_replace_header "List-Unsubscribe-Post" "List-Unsubscribe=One-Click" ;;
  delete_header "Received-SPF".

(** Lines 394-400: the signature of a reply.  [custom_domain.dkim_verified]
    on a lookup that found nothing raises [AttributeError]. *)
Definition reply_sign (alias_domain : string) : M unit :=
  if Py.in_list alias_domain (ALIAS_DOMAINS app) then add_dkim_signature alias_domain
  else
    w <- get_db ;;
    match CustomDomain_get_by_domain w alias_domain with
    | None => raise (Py.AttributeError "dkim_verified")
    | Some custom_domain =>
        if cd_dkim_verified custom_domain then add_dkim_signature alias_domain
        else ret tt
    end.

(** Lines 402-414: serialization and the transport call.  The result of
    [msg_raw.replace(...)] is not bound to anything: [msg_raw] goes to
    [sendmail] as [as_string] made it. *)
Definition reply_send (envelope : Envelope) (alias reply_email : string)
    (forward_email : ForwardEmail) : M unit :=
  m <- get_msg ;;
  let msg_raw := as_string m in
  let _ := Py.replace msg_raw reply_email alias in
  sendmail alias (fe_website_email forward_email) msg_raw
           (mail_options envelope) (rcpt_options envelope).

(** Lines 365-419: an authorized reply is rewritten, signed, sent and
    logged. *)
Definition reply_relay (envelope : Envelope) (alias alias_domain reply_email : string)
    (forward_email : ForwardEmail) : M string :=
  reply_transform alias forward_email ;;
  reply_sign alias_domain ;;
  reply_send envelope alias reply_email forward_email ;;
  ForwardEmailLog_create (fe_id forward_email) true ;;
  commit ;;
  ret "250 Message accepted for delivery".

(** [handle_reply(envelope, smtp, msg)]. *)
Definition handle_reply (envelope : Envelope) : M string :=
  reply_email <- first_rcpt envelope ;;
  if negb (Py.endswith reply_email (EMAIL_DOMAIN app)) then ret "550 wrong reply email"
  else
    w <- get_db ;;
    match ForwardEmail_get_by_reply_email w reply_email with
    | None => ret "550 wrong reply email"
    | Some forward_email =>
        match GenEmail_get w (fe_gen_email_id forward_email) with
        | None => raise (Py.AttributeError "email")
        | Some gen_email =>
            let alias := ge_email gen_email in
            let alias_domain := Py.slice_from alias (Py.find alias "@" + 1) in
            if negb (email_belongs_to_alias_domains alias)
               && match CustomDomain_get_by_domain w alias_domain with
                  | Some _ => false
                  | None => true
                  end
            then ret "550 alias unknown by SimpleLogin"
            else
              let mailbox_email := mailbox_email_of gen_email in
              if negb (String.eqb (Py.lower (mail_from envelope)) (Py.lower mailbox_email))
              then
                notify_unauthorized_reply envelope gen_email mailbox_email reply_email ;;
                ret "550 ignored"
              else reply_relay envelope alias alias_domain reply_email forward_email
        end
    end.

(** *** handle_DATA *)

(** [handle_DATA(server, session, envelope)] run on the world [w]: the
    content is parsed, and the first recipient decides the pipeline. *)
Definition handle_DATA (envelope : Envelope) (w : World) : result string * Ctx :=
  let c := mkCtx w (parsestr app (content envelope)) in
  (rcpt_to <- first_rcpt envelope ;;
   if Py.startswith rcpt_to "reply+" || Py.startswith rcpt_to "ra+"
   then handle_reply envelope
   else handle_forward envelope) c.

(** ** Predicates on stores and envelopes *)

(** A handler step that leaves an observation [g] of the world as it was,
    whatever it returns or raises. *)
Definition keeps_db {X A : Type} (g : World -> X) (m : M A) : Prop :=
  forall c, g (db (snd (m c))) = g (db c).

(** A handler step that leaves the message object as it was. *)
Definition keeps_msg {A : Type} (m : M A) : Prop :=
  forall c, msg (snd (m c)) = msg c.

(** A handler that, when it returns, returns a status [P] accepts. *)
Definition returns_only (P : string -> Prop) (m : M string) : Prop :=
  forall c s c', m c = (Ok s, c') -> P s.

(** A handler step that, when it raises, raises an exception [P] accepts. *)
Definition raises_only {A : Type} (P : Py.exn -> Prop) (m : M A) : Prop :=
  forall c e c', m c = (Raised e, c') -> P e.

Definition is_KeyError (e : Py.exn) : Prop :=
  match e with
  | Py.KeyError _ => True
  | _ => False
  end.

(** The mappings of an alias and a correspondent. *)
Definition mappings_of (w : World) (gen_email_id : nat) (website_email : string)
  : list ForwardEmail :=
  filter (for_pair gen_email_id website_email) (forward_emails w).

(** At most one mapping per alias and correspondent. *)
Definition one_mapping_per_pair (w : World) : Prop :=
  forall gen_email_id website_email,
    length (mappings_of w gen_email_id website_email) <= 1.

(** The reply address made from the k-th sample of the random source. *)
Definition reply_email_sample (k : nat) : string :=
  "reply+" ++ random_string app k 30 ++ "@" ++ EMAIL_DOMAIN app.

(** No mapping of the store has this reply address. *)
Definition unused_reply_email (w : World) (reply_email : string) : Prop :=
  forall f, In f (forward_emails w) -> fe_reply_email f <> reply_email.

(** Two worlds that differ at most in their mappings, in the count of
    samples drawn and in the count of commits. *)
Definition same_but_mappings (w w' : World) : Prop :=
  gen_emails w' = gen_emails w
  /\ forward_email_logs w' = forward_email_logs w
  /\ directories w' = directories w
  /\ custom_domains w' = custom_domains w
  /\ notifications w' = notifications w
  /\ outbox w' = outbox w.

(** The domain check of [handle_reply], lines 311-314, passed. *)
Definition alias_domain_known (w : World) (alias : string) : Prop :=
  email_belongs_to_alias_domains alias = true
  \/ CustomDomain_get_by_domain w (Py.slice_from alias (Py.find alias "@" + 1)) <> None.

(** The world after an authorized reply went out as [raw]. *)
Definition replied (envelope : Envelope) (gen_email : GenEmail)
    (forward_email : ForwardEmail) (raw : string) (w : World) : World :=
  let w1 := with_outbox (outbox w ++ [mkSendmail (ge_email gen_email)
                                                 (fe_website_email forward_email) raw
                                                 (mail_options envelope)
                                                 (rcpt_options envelope)]) w in
  let w2 := with_forward_email_logs
              (forward_email_logs w1
               ++ [mkForwardEmailLog (next_id (map fel_id (forward_email_logs w1)))
                                     (fe_id forward_email) true false]) w1 in
  with_commits (S (commits w2)) w2.

(** The message [handle_DATA] hands to the pipelines. *)
Definition parsed (envelope : Envelope) (w : World) : Ctx :=
  mkCtx w (parsestr app (content envelope)).

End Relay.

(** The envelope with only its first recipients kept. *)
Definition with_rcpt_tos (rcpts : list string) (envelope : Envelope) : Envelope :=
  mkEnvelope (mail_from envelope) rcpts (content envelope)
             (mail_options envelope) (rcpt_options envelope).

(** ** A concrete deployment, for running the handlers *)

Module Demo.

(** The double quote. *)
Definition DQ : ascii := "034"%char.

(** [s.lstrip()] for the characters [p] accepts. *)
Fixpoint lstrip (p : ascii -> bool) (s : string) : string :=
  match s with
  | EmptyString => EmptyString
  | String c s' => if p c then lstrip p s' else s
  end.

(** [s.rstrip()] for the characters [p] accepts. *)
Fixpoint rstrip (p : ascii -> bool) (s : string) : string :=
  match s with
  | EmptyString => EmptyString
  | String c s' =>
      let r := rstrip p s' in
      if String.eqb r "" && p c then EmptyString else String c r
  end.

Definition strip (p : ascii -> bool) (s : string) : string := rstrip p (lstrip p s).

Definition blank_or_quote (c : ascii) : bool :=
  Ascii.eqb c " "%char || Ascii.eqb c DQ.

Definition blank (c : ascii) : bool := Ascii.eqb c " "%char.

(** Modelled from the spec: app.email_utils.get_email_name is not among the
    sources; the header scenario of the spec has the display name of
    ["Jane Doe" <jane@biz.example>] be [Jane Doe], and a bare address has
    none. *)
Definition get_email_name (email_from : option string) : string :=
  match email_from with
  | None => ""
  | Some f =>
      if Py.contains f "<" then strip blank_or_quote (Py.slice_to f (Py.find f "<"))
      else ""
  end.

(** Modelled from the spec: app.email_utils.get_email_part is not among the
    sources; the spec has it "strip display name", leaving the address. *)
Definition get_email_part (email_from : option string) : string :=
  match email_from with
  | None => ""
  | Some f =>
      if Py.contains f "<"
      then strip blank (Py.slice_to (Py.slice_from f (Py.find f "<" + 1))
                                    (Py.find (Py.slice_from f (Py.find f "<" + 1)) ">"))
      else f
  end.

(** The lines of a text. *)
Fixpoint lines (s : string) : list string :=
  match s with
  | EmptyString => [EmptyString]
  | String c s' =>
      if Ascii.eqb c "010"%char then EmptyString :: lines s'
      else match lines s' with
           | l :: rest => String c l :: rest
           | [] => [String c EmptyString]
           end
  end.

(** A header line [Name: value]. *)
Definition header_of (line : string) : option (string * string) :=
  match String.index 0 ": " line with
  | Some i => Some (String.substring 0 i line,
                    String.substring (i + 2) (String.length line - (i + 2)) line)
  | None => None
  end.

(** The header lines up to the first empty line, and the lines after it. *)
Fixpoint split_headers (ls : list string) : list (string * string) * list string :=
  match ls with
  | [] => ([], [])
  | l :: rest =>
      if String.eqb l "" then ([], rest)
      else match header_of l with
           | Some h => let (hs, b) := split_headers rest in (h :: hs, b)
           | None => ([], ls)
           end
  end.

(** A parser for messages without folded headers. *)
Definition parsestr (raw : string) : Message :=
  let (hs, b) := split_headers (lines raw) in
  mkMessage hs (String.concat Py.LF b).

(** A random source that numbers its samples. *)
Definition counting (k n : nat) : string := "tok" ++ Py.str k.

(** A random source that returns the same sample every time. *)
Definition stuck (k n : nat) : string := "aaaa".

Definition sign (m : Message) (domain : string) : string := "v=1; d=" ++ domain.

Definition app : App :=
  mkApp "relay.example" ["relay.example"] "https://app.relay.example"
        counting get_email_name get_email_part sign parsestr.

Definition stuck_app : App :=
  mkApp "relay.example" ["relay.example"] "https://app.relay.example"
        stuck get_email_name get_email_part sign parsestr.

Definition owner : User := mkUser 1 "Owner" "owner@home.example" true.

Definition shop : GenEmail :=
  mkGenEmail 1 "shop@relay.example" owner None true None None false.

Definition off : GenEmail :=
  mkGenEmail 2 "off@relay.example" owner None false None None false.

Definition boss_mapping : ForwardEmail :=
  mkForwardEmail 1 1 "boss@biz.example" (Some "Boss <boss@biz.example>")
                 "reply+aaaa@relay.example".

Definition world0 : World :=
  mkWorld [shop; off] [boss_mapping] [] [] [] 0 0 [] [].

Definition raw_of (from_header to_header text : string) : string :=
  "From: " ++ from_header ++ Py.LF ++ "To: " ++ to_header ++ Py.LF ++ Py.LF ++ text.

(** Messages and envelopes of the scenarios. *)

Definition jane : string := String DQ ("Jane Doe" ++ String DQ " <jane@biz.example>").

(** Jane writes to the alias [shop]. *)
Definition fwd_shop : Envelope :=
  mkEnvelope "jane@biz.example" ["shop@relay.example"]
             (raw_of jane "shop@relay.example" "hello") [] [].

(** The same message with a second recipient in the envelope. *)
Definition fwd_two : Envelope :=
  mkEnvelope "jane@biz.example" ["shop@relay.example"; "other@relay.example"]
             (raw_of jane "shop@relay.example" "hello") [] [].

(** Jane writes again, with another display name. *)
Definition fwd_shop_again : Envelope :=
  mkEnvelope "jane@biz.example" ["Shop@relay.example"]
             (raw_of "J. Doe <jane@biz.example>" "shop@relay.example" "hello again") [] [].

(** A sender without a display name writes to [shop]. *)
Definition fwd_bare : Envelope :=
  mkEnvelope "jane@biz.example" ["shop@relay.example"]
             (raw_of "jane@biz.example" "shop@relay.example" "hello") [] [].

(** Jane writes to the disabled alias [off]. *)
Definition fwd_off : Envelope :=
  mkEnvelope "jane@biz.example" ["off@relay.example"]
             (raw_of jane "off@relay.example" "hello") [] [].

(** The owner answers the boss, quoting the reply address in the text. *)
Definition reply_owner : Envelope :=
  mkEnvelope "Owner@home.example" ["reply+aaaa@relay.example"]
             (raw_of "owner@home.example" "reply+aaaa@relay.example"
                     "On Monday reply+aaaa@relay.example wrote: hi") [] [].

(** Somebody else uses the reply address. *)
Definition reply_eve : Envelope :=
  mkEnvelope "eve@evil.example" ["reply+aaaa@relay.example"]
             (raw_of "eve@evil.example" "reply+aaaa@relay.example" "hi") [] [].


(** An alias under a custom domain whose key is verified, and its mapping. *)
Definition own_domain : CustomDomain := mkCustomDomain 1 "own.example" false true owner.

Definition me : GenEmail :=
  mkGenEmail 3 "me@own.example" owner (Some (mkMailbox 1 "box@home.example")) true
             None (Some 1) false.

Definition me_mapping : ForwardEmail :=
  mkForwardEmail 2 3 "boss@biz.example" (Some "Boss <boss@biz.example>")
                 "ra+bbbb@relay.example".

Definition world1 : World :=
  mkWorld [shop; off; me] [boss_mapping; me_mapping] [] [] [own_domain] 0 0 [] [].

(** The mailbox of [me] answers the boss through the custom-domain alias. *)
Definition reply_me : Envelope :=
  mkEnvelope "box@home.example" ["ra+bbbb@relay.example"]
             (raw_of "box@home.example" "ra+bbbb@relay.example" "hi") [] [].

(** A directory of the owner, and a message to an alias under it that does
    not exist yet. *)
Definition sales : Directory := mkDirectory 1 "sales" owner.

Definition world2 : World :=
  mkWorld [shop; off] [boss_mapping] [] [sales] [] 0 0 [] [].

Definition fwd_sales : Envelope :=
  mkEnvelope "jane@biz.example" ["sales/anything@relay.example"]
             (raw_of jane "sales/anything@relay.example" "hello") [] [].

(** The owner's answer as a message without a To header. *)
Definition reply_without_to : Envelope :=
  mkEnvelope "owner@home.example" ["reply+aaaa@relay.example"]
             ("From: owner@home.example" ++ Py.LF ++ Py.LF ++ "hi") [] [].

End Demo.

(** ** More predicates on stores: provisioning, logs, transport *)

Section RelayViews.

Variable app : App.

(** Lines 133-141: the directory name an alias address carries, the text
    before its first "/", else before its first "+", else before its first
    "#"; [None] for an address with none of the three. *)
Definition directory_name_of (alias : string) : option string :=
  if Py.contains alias "/" || Py.contains alias "+" || Py.contains alias "#" then
    let sep := if Py.contains alias "/" then "/"
               else if Py.contains alias "+" then "+" else "#" in
    Some (Py.slice_to alias (Py.find alias sep))
  else None.

(** Lines 132-147: the directory the first provisioning path finds. *)
Definition directory_of (w : World) (alias : string) : option Directory :=
  if email_belongs_to_alias_domains app alias then
    match directory_name_of alias with
    | Some directory_name => Directory_get_by_name w directory_name
    | None => None
    end
  else None.

(** Lines 171-175: the catch-all custom domain the second path finds. *)
Definition catch_all_of (w : World) (alias : string) : option CustomDomain :=
  match CustomDomain_get_by_domain w (get_email_domain_part alias) with
  | Some custom_domain => if cd_catch_all custom_domain then Some custom_domain else None
  | None => None
  end.

(** The alias [GenEmail.create] makes when the k-th row of the table is new. *)
Definition new_alias (w : World) (alias : string) (user : User)
    (directory_id custom_domain_id : option nat) (automatic_creation : bool) : GenEmail :=
  mkGenEmail (next_id (map ge_id (gen_emails w))) alias user None true
             directory_id custom_domain_id automatic_creation.

(** The world after [GenEmail.create] and the commit that follows it. *)
Definition alias_created (g : GenEmail) (w : World) : World :=
  with_commits (S (commits w)) (with_gen_emails (gen_emails w ++ [g]) w).

(** The notification to a directory's owner who may not create aliases. *)
Definition directory_denial (w : World) (alias : string) : list Notification :=
  match directory_of w alias, directory_name_of alias with
  | Some directory, Some directory_name =>
      if can_create_new_alias (dir_user directory) then []
      else [CannotCreateDirectoryAlias (dir_user directory) alias directory_name]
  | _, _ => []
  end.

(** The notification to a catch-all domain's owner who may not create
    aliases. *)
Definition domain_denial (w : World) (alias : string) : list Notification :=
  match catch_all_of w alias with
  | Some custom_domain =>
      if can_create_new_alias (cd_user custom_domain) then []
      else [CannotCreateDomainAlias (cd_user custom_domain) alias
                                    (get_email_domain_part alias)]
  | None => []
  end.

(** A directory whose owner may create aliases stands behind the address. *)
Definition directory_provides (w : World) (alias : string) : option Directory :=
  match directory_of w alias with
  | Some directory =>
      if can_create_new_alias (dir_user directory) then Some directory else None
  | None => None
  end.

(** A catch-all domain whose owner may create aliases stands behind the
    address. *)
Definition domain_provides (w : World) (alias : string) : option CustomDomain :=
  match catch_all_of w alias with
  | Some custom_domain =>
      if can_create_new_alias (cd_user custom_domain) then Some custom_domain else None
  | None => None
  end.

End RelayViews.

(** The world after the notifications [ns] went out. *)
Definition notified (ns : list Notification) (w : World) : World :=
  with_notifications (notifications w ++ ns) w.

(** No log entry is at once a reply and blocked. *)
Definition logs_reply_or_blocked (w : World) : Prop :=
  forall e, In e (forward_email_logs w) -> fel_is_reply e && fel_blocked e = false.

(** Alias addresses are unique. *)
Definition alias_addresses_unique (w : World) : Prop :=
  NoDup (map ge_email (gen_emails w)).

(** Reply addresses are unique. *)
Definition reply_addresses_unique (w : World) : Prop :=
  NoDup (map fe_reply_email (forward_emails w)).

(** Every reply address of the store passes the test of line 299. *)
Definition reply_addresses_end_with (domain : string) (w : World) : Prop :=
  forall f, In f (forward_emails w) -> Py.endswith (fe_reply_email f) domain = true.

(** * The contact manager and the activity log of alias_detail.py *)

(** ** Python text operations and regular expressions used by the views *)

Module PyText.

(** [c.isspace()] on one ASCII character. *)
Definition is_space (c : ascii) : bool :=
  let n := nat_of_ascii c in
  ((9 <=? n)%nat && (n <=? 13)%nat) || ((28 <=? n)%nat && (n <=? 32)%nat).

(** [s.lstrip()]. *)
Fixpoint lstrip (s : string) : string :=
  match s with
  | EmptyString => EmptyString
  | String c s' => if is_space c then lstrip s' else s
  end.

(** [s.rstrip()]. *)
Fixpoint rstrip (s : string) : string :=
  match s with
  | EmptyString => EmptyString
  | String c s' =>
      match rstrip s' with
      | EmptyString => if is_space c then EmptyString else String c EmptyString
      | r => String c r
      end
  end.

(** [s.strip()]. *)
Definition strip (s : string) : string := rstrip (lstrip s).

(** [s[i:j]], with Python's reading of negative and oversized indices. *)
Definition slice (s : string) (i j : Z) : string :=
  let len := Z.of_nat (String.length s) in
  let clamp := fun k => if (k <? 0)%Z then Z.max 0 (len + k) else Z.min k len in
  String.substring (Z.to_nat (clamp i)) (Z.to_nat (clamp j) - Z.to_nat (clamp i)) s.

(** Regular expressions over character classes. *)
Inductive re : Type :=
| Void
| Eps
| Chr (p : ascii -> bool)
| Cat (a b : re)
| Alt (a b : re)
| Star (a : re).

(** [a+]. *)
Definition Plus (a : re) : re := Cat a (Star a).

(** The expression matches the empty text. *)
Fixpoint nullable (r : re) : bool :=
  match r with
  | Void => false
  | Eps => true
  | Chr _ => false
  | Cat a b => nullable a && nullable b
  | Alt a b => nullable a || nullable b
  | Star _ => true
  end.

(** What is left of the expression after the character [c]. *)
Fixpoint deriv (c : ascii) (r : re) : re :=
  match r with
  | Void => Void
  | Eps => Void
  | Chr p => if p c then Eps else Void
  | Cat a b => if nullable a then Alt (Cat (deriv c a) b) (deriv c b)
               else Cat (deriv c a) b
  | Alt a b => Alt (deriv c a) (deriv c b)
  | Star a => Cat (deriv c a) (Star a)
  end.

(** The whole text matches the expression. *)
Fixpoint fullmatch (r : re) (s : string) : bool :=
  match s with
  | EmptyString => nullable r
  | String c s' => fullmatch (deriv c r) s'
  end.

(** The texts of an expression. *)
Inductive In_re : re -> string -> Prop :=
| In_Eps : In_re Eps EmptyString
| In_Chr (p : ascii -> bool) (c : ascii) : p c = true -> In_re (Chr p) (String c EmptyString)
| In_Cat (a b : re) (s t : string) : In_re a s -> In_re b t -> In_re (Cat a b) (s ++ t)
| In_Alt_l (a b : re) (s : string) : In_re a s -> In_re (Alt a b) s
| In_Alt_r (a b : re) (s : string) : In_re b s -> In_re (Alt a b) s
| In_Star_nil (a : re) : In_re (Star a) EmptyString
| In_Star_cons (a : re) (s t : string) :
    In_re a s -> In_re (Star a) t -> In_re (Star a) (s ++ t).

(** [$]: the end of the text, or a line feed that ends it. *)
Definition Dollar : re := Alt Eps (Chr (Ascii.eqb "010"%char)).

Definition in_range (lo hi : nat) (c : ascii) : bool :=
  ((lo <=? nat_of_ascii c)%nat && (nat_of_ascii c <=? hi)%nat)%bool.

(** [[A-Za-z]]. *)
Definition letter (c : ascii) : bool := in_range 65 90 c || in_range 97 122 c.

(** [[0-9]]. *)
Definition digit (c : ascii) : bool := in_range 48 57 c.

(** Every character of the text is in the class. *)
Fixpoint all_in (p : ascii -> bool) (s : string) : bool :=
  match s with
  | EmptyString => true
  | String c s' => p c && all_in p s'
  end.

End PyText.

(** ** email_validator (lines 96-118) *)

(** [[A-Za-z0-9\.\+_-]]. *)
Definition local_char (c : ascii) : bool :=
  PyText.letter c || PyText.digit c || Ascii.eqb c "."%char || Ascii.eqb c "+"%char
  || Ascii.eqb c "_"%char || Ascii.eqb c "-"%char.

(** [[A-Za-z0-9\._-]]. *)
Definition domain_char (c : ascii) : bool :=
  PyText.letter c || PyText.digit c || Ascii.eqb c "."%char || Ascii.eqb c "_"%char
  || Ascii.eqb c "-"%char.

(** The pattern of line 113, [^[A-Za-z0-9\.\+_-]+@[A-Za-z0-9\._-]+\.[a-zA-Z]*$]. *)
Definition email_re : PyText.re :=
  PyText.Cat (PyText.Plus (PyText.Chr local_char))
    (PyText.Cat (PyText.Chr (Ascii.eqb "@"%char))
       (PyText.Cat (PyText.Plus (PyText.Chr domain_char))
          (PyText.Cat (PyText.Chr (Ascii.eqb "."%char))
             (PyText.Cat (PyText.Star (PyText.Chr PyText.letter)) PyText.Dollar)))).

(** Lines 105-111: the text the pattern is tried on, the stripped field or
    what stands between its first "<" and its first ">". *)
Definition email_part_of (data : string) : string :=
  let email := PyText.strip data in
  if Py.contains email "<" && Py.contains email ">" then
    if (Py.find email "<" + 1 <? Py.find email ">")%Z
    then PyText.strip (PyText.slice email (Py.find email "<" + 1) (Py.find email ">"))
    else email
  else email.

(** A local part, "@", a domain, "." and letters: the texts of the pattern
    that end where it ends. *)
Definition address_shape (e : string) : Prop :=
  exists l d t,
    e = l ++ "@" ++ d ++ "." ++ t
    /\ l <> "" /\ PyText.all_in local_char l = true
    /\ d <> "" /\ PyText.all_in domain_char d = true
    /\ PyText.all_in PyText.letter t = true.

(** The result of a validator: it returns, or raises [ValidationError]. *)
Inductive validation : Type :=
| Valid
| ValidationError (message : string).

Definition email_validator_message : string :=
  "Invalid email format. Email must be either email@example.com or *First Last <email@example.com>*".

(** [email_validator()._check(form, field)] on [field.data]. *)
Definition email_validator (data : string) : validation :=
  if PyText.fullmatch email_re (email_part_of data) then Valid
  else ValidationError email_validator_message.

(** ** Requests, flashed messages and responses of the dashboard views *)

(** [flash(message, category)]. *)
Record Flash : Type := mkFlash {
  flash_message : string;
  flash_category : string
}.

(** What the views read of the request and of the session. *)
Record Request : Type := mkRequest {
  (** [current_user.id], [None] for a visitor who is not logged in *)
  current_user : option nat;
  (** [request.method] *)
  method : string;
  (** [request.form.get("form-name")] *)
  form_name : option string;
  (** [new_contact_form.email.data] *)
  form_email : option string;
  (** the CSRF token of the form is the session's *)
  form_csrf_valid : bool;
  (** [request.form.get("forward-email-id")], as the key it denotes *)
  form_forward_email_id : option nat
}.

(** The database and the messages flashed so far. *)
Record Site : Type := mkSite {
  site_db : World;
  flashed : list Flash
}.

(** One line of the activity log (lines 20-30). *)
Record AliasLog : Type := mkAliasLog {
  al_website_email : string;
  al_website_from : option string;
  al_alias : string;
  al_when : nat;
  al_is_reply : bool;
  al_blocked : bool
}.

(** What a view answers. *)
Inductive Response : Type :=
| Unauthorized
| RedirectIndex
| RedirectContactManager (alias_id : nat) (forward_email_id : option nat)
                         (alias : option GenEmail)
| RenderContactManager (forward_emails : list ForwardEmail) (alias : GenEmail)
                       (forward_email_id : option nat)
| RenderLog (alias : GenEmail) (page_id : nat) (logs : list AliasLog)
            (total email_forwarded email_replied email_blocked : nat) (last_page : bool)
| ServerError (e : Py.exn).

Definition flash (message category : string) (s : Site) : Site :=
  mkSite (site_db s) (flashed s ++ [mkFlash message category]).

Definition with_site_db (w : World) (s : Site) : Site := mkSite w (flashed s).

(** [sorted(l, key=key, reverse=True)]: descending by key, elements of
    equal key in the order they had. *)
Fixpoint insert_reverse {A : Type} (key : A -> nat) (x : A) (l : list A) : list A :=
  match l with
  | [] => [x]
  | y :: l' => if (key x <? key y)%nat then y :: insert_reverse key x l' else x :: l
  end.

Definition sorted_reverse {A : Type} (key : A -> nat) (l : list A) : list A :=
  fold_right (insert_reverse key) [] l.

(** [ForwardEmail.get(id)]. *)
Definition ForwardEmail_get (w : World) (id : option nat) : option ForwardEmail :=
  match id with
  | Some id => first_by (fun f => Nat.eqb (fe_id f) id) (forward_emails w)
  | None => None
  end.

(** [ForwardEmail.delete(id)]: the rows with that key are removed. *)
Definition ForwardEmail_delete (id : nat) (w : World) : World :=
  with_forward_emails (filter (fun f => negb (Nat.eqb (fe_id f) id)) (forward_emails w)) w.

(** [gen_email.forward_emails]: the mappings of the alias. *)
Definition forward_emails_of (w : World) (gen_email : GenEmail) : list ForwardEmail :=
  filter (fun f => Nat.eqb (fe_gen_email_id f) (ge_id gen_email)) (forward_emails w).

(** A value in an f-string. *)
Definition format_opt (o : option string) : string :=
  match o with
  | Some s => s
  | None => "None"
  end.

(** [validators.DataRequired()]: the field holds more than white space. *)
Definition data_required (data : option string) : bool :=
  match data with
  | Some d => negb (String.eqb (PyText.strip d) "")
  | None => false
  end.

(** [NewContactForm().validate()] (lines 121-124): the token check of
    FlaskForm, then the validators of the field in order, the first failure
    ending the chain. *)
Definition NewContactForm_validate (req : Request) : bool :=
  form_csrf_valid req
  && (data_required (form_email req)
      && match form_email req with
         | Some d => match email_validator d with Valid => true | ValidationError _ => false end
         | None => false
         end).

(** ** get_alias_log and alias_log (lines 33-93) *)

Section ActivityLog.

(** [app.config.PAGE_LIMIT], and the [created_at] column of a log entry. *)
Variable PAGE_LIMIT : nat.
Variable created_at : ForwardEmailLog -> nat.

(** The query of lines 36-40 and 76-80: the pairs of a mapping of the alias
    and a log entry of that mapping. *)
Definition alias_log_base (w : World) (gen_email : GenEmail)
  : list (ForwardEmail * ForwardEmailLog) :=
  flat_map (fun fel =>
              map (fun fe => (fe, fel))
                  (filter (fun fe => Nat.eqb (fe_id fe) (fel_forward_id fel)
                                     && Nat.eqb (fe_gen_email_id fe) (ge_id gen_email))
                          (forward_emails w)))
           (forward_email_logs w).

(** Lines 36-43: the page [page_id] of the query, latest entry first. *)
Definition alias_log_page (w : World) (gen_email : GenEmail) (page_id : nat)
  : list (ForwardEmail * ForwardEmailLog) :=
  firstn PAGE_LIMIT
         (skipn (page_id * PAGE_LIMIT)
                (sorted_reverse (fun r => fel_id (snd r)) (alias_log_base w gen_email))).

(** Lines 45-54. *)
Definition alias_log_line (gen_email : GenEmail) (r : ForwardEmail * ForwardEmailLog)
  : AliasLog :=
  mkAliasLog (fe_website_email (fst r)) (fe_website_from (fst r)) (ge_email gen_email)
             (created_at (snd r)) (fel_is_reply (snd r)) (fel_blocked (snd r)).

Definition get_alias_log (w : World) (gen_email : GenEmail) (page_id : nat) : list AliasLog :=
  sorted_reverse al_when (map (alias_log_line gen_email) (alias_log_page w gen_email page_id)).

(** Lines 82-88: the three counters. *)
Definition email_forwarded_of (rows : list (ForwardEmail * ForwardEmailLog)) : nat :=
  length (filter (fun r => negb (fel_blocked (snd r)))
                 (filter (fun r => negb (fel_is_reply (snd r))) rows)).

Definition email_replied_of (rows : list (ForwardEmail * ForwardEmailLog)) : nat :=
  length (filter (fun r => fel_is_reply (snd r)) rows).

Definition email_blocked_of (rows : list (ForwardEmail * ForwardEmailLog)) : nat :=
  length (filter (fun r => fel_blocked (snd r)) rows).

(** The view [alias_log], behind [login_required]. *)
Definition alias_log (req : Request) (alias_id page_id : nat) (s : Site) : Response * Site :=
  match current_user req with
  | None => (Unauthorized, s)
  | Some current_user_id =>
      match GenEmail_get (site_db s) alias_id with
      | None => (RedirectIndex, flash "You do not have access to this page" "warning" s)
      | Some gen_email =>
          if negb (Nat.eqb (user_id (ge_user gen_email)) current_user_id) then
            (RedirectIndex, flash "You do not have access to this page" "warning" s)
          else
            let logs := get_alias_log (site_db s) gen_email page_id in
            let base := alias_log_base (site_db s) gen_email in
            (RenderLog gen_email page_id logs (length base) (email_forwarded_of base)
                       (email_replied_of base) (email_blocked_of base)
                       (length logs <? PAGE_LIMIT)%nat,
             s)
      end
  end.

End ActivityLog.

(** ** alias_contact_manager (lines 127-228) *)

Section ContactManager.

Variable app : App.

(** Lines 154-157: up to [n] samples, the first unused one ending the loop. *)
Fixpoint generate_reverse_alias (n : nat) (reply_email : option string) (w : World)
  : option string * World :=
  match n with
  | O => (reply_email, w)
  | S n' =>
      let reply_email := "ra+" ++ random_string app (random_calls w) 25
                         ++ "@" ++ EMAIL_DOMAIN app in
      let w := with_random_calls (S (random_calls w)) w in
      match ForwardEmail_get_by_reply_email w reply_email with
      | None => (Some reply_email, w)
      | Some _ => generate_reverse_alias n' (Some reply_email) w
      end
  end.

(** The mapping [ForwardEmail.create] of line 170 makes. *)
Definition new_contact (w : World) (gen_email : GenEmail) (contact_email reply_email : string)
  : ForwardEmail :=
  mkForwardEmail (next_id (map fe_id (forward_emails w))) (ge_id gen_email)
                 (get_email_part app (Some contact_email)) (Some contact_email) reply_email.

(** Lines 149-188, for a form that validates. *)
Definition create_contact (alias_id : nat) (gen_email : GenEmail) (data : string) (s : Site)
  : Response * Site :=
  let contact_email := PyText.strip data in
  let (sampled, w) := generate_reverse_alias 1000 None (site_db s) in
  match sampled with
  | None => (ServerError (Py.NameError "reply_email"), with_site_db w s)
  | Some reply_email =>
      let website_email := get_email_part app (Some contact_email) in
      match ForwardEmail_get_by w (ge_id gen_email) website_email with
      | Some _ =>
          (RedirectContactManager alias_id None None,
           flash (website_email ++ " is already added") "error" (with_site_db w s))
      | None =>
          let forward_email := new_contact w gen_email contact_email reply_email in
          let w := with_forward_emails (forward_emails w ++ [forward_email]) w in
          let w := with_commits (S (commits w)) w in
          (RedirectContactManager alias_id (Some (fe_id forward_email)) (Some gen_email),
           flash ("Reverse alias for " ++ contact_email ++ " is created") "success"
                 (with_site_db w s))
      end
  end.

(** Lines 190-212. *)
Definition delete_contact (req : Request) (alias_id : nat) (gen_email : GenEmail) (s : Site)
  : Response * Site :=
  match ForwardEmail_get (site_db s) (form_forward_email_id req), form_forward_email_id req with
  | Some forward_email, Some forward_email_id =>
      if negb (Nat.eqb (fe_gen_email_id forward_email) (ge_id gen_email)) then
        (RedirectContactManager alias_id None None,
         flash "You cannot delete reverse-alias" "warning" s)
      else
        let w := ForwardEmail_delete forward_email_id (site_db s) in
        let w := with_commits (S (commits w)) w in
        (RedirectContactManager alias_id None None,
         flash ("Reverse-alias for " ++ format_opt (fe_website_from forward_email)
                ++ " has been deleted") "success" (with_site_db w s))
  | _, _ =>
      (RedirectContactManager alias_id None None,
       flash "Unknown error. Refresh the page" "warning" s)
  end.

(** Lines 214-228: the page, the highlighted mapping first. *)
Definition contact_page (gen_email : GenEmail) (forward_email_id : option nat) (s : Site)
  : Response * Site :=
  let forward_emails := forward_emails_of (site_db s) gen_email in
  let forward_emails :=
    match forward_email_id with
    | Some (S id) =>
        sorted_reverse (fun fe => if Nat.eqb (fe_id fe) (S id) then 1 else 0) forward_emails
    | _ => forward_emails
    end in
  (RenderContactManager forward_emails gen_email forward_email_id, s).

(** The view [alias_contact_manager], behind [login_required]. *)
Definition alias_contact_manager (req : Request) (alias_id : nat)
    (forward_email_id : option nat) (s : Site) : Response * Site :=
  match current_user req with
  | None => (Unauthorized, s)
  | Some current_user_id =>
      match GenEmail_get (site_db s) alias_id with
      | None => (RedirectIndex, flash "You do not have access to this page" "warning" s)
      | Some gen_email =>
          if negb (Nat.eqb (user_id (ge_user gen_email)) current_user_id) then
            (RedirectIndex, flash "You do not have access to this page" "warning" s)
          else if String.eqb (method req) "POST" then
            if header_eqb (form_name req) (Some "create") then
              if NewContactForm_validate req then
                match form_email req with
                | Some data => create_contact alias_id gen_email data s
                | None => (ServerError (Py.AttributeError "strip"), s)
                end
              else contact_page gen_email forward_email_id s
            else if header_eqb (form_name req) (Some "delete") then
              delete_contact req alias_id gen_email s
            else contact_page gen_email forward_email_id s
          else contact_page gen_email forward_email_id s
      end
  end.

(** The reverse alias made from the k-th sample of the random source. *)
Definition reverse_alias_sample (k : nat) : string :=
  "ra+" ++ random_string app k 25 ++ "@" ++ EMAIL_DOMAIN app.

End ContactManager.

(** The store after the relay took the envelopes one after the other. *)
Definition relay_all (app : App) (envelopes : list Envelope) (w : World) : World :=
  fold_left (fun w envelope => db (snd (handle_DATA app envelope w))) envelopes w.

(** The alias [alias_id] exists and is the user's. *)
Definition manages (w : World) (user : option nat) (alias_id : nat) : Prop :=
  exists gen_email,
    GenEmail_get w alias_id = Some gen_email
    /\ user = Some (user_id (ge_user gen_email)).

(** The keys of the mappings are unique. *)
Definition mapping_ids_unique (w : World) : Prop :=
  NoDup (map fe_id (forward_emails w)).

(** * The payment webhooks of server.py *)

Module Billing.

(** [PlanEnum]. *)
Inductive PlanEnum : Type :=
| monthly
| yearly.

(** The rows of app.models as the webhooks read and write them. *)
Record User : Type := mkUser {
  user_id : nat;
  user_email : string
}.

Record Subscription : Type := mkSubscription {
  sub_id : nat;
  sub_user_id : nat;
  cancel_url : option string;
  update_url : option string;
  subscription_id : option string;
  event_time : nat;
  next_bill_date : nat;
  plan : PlanEnum;
  cancelled : bool
}.

Record CoinbaseSubscription : Type := mkCoinbaseSubscription {
  cs_id : nat;
  cs_user_id : nat;
  end_at : nat;
  code : string
}.

(** A call of [send_email]: the recipient, the subject and the templates
    rendered for the text and the HTML part. *)
Record Email : Type := mkEmail {
  email_to : string;
  email_subject : string;
  email_plaintext : string;
  email_html : option string
}.

Record Store : Type := mkStore {
  users : list User;
  subscriptions : list Subscription;
  coinbase_subscriptions : list CoinbaseSubscription;
  (** calls of [db.session.commit()] so far *)
  commits : nat;
  (** calls of [send_email] so far *)
  sent : list Email
}.

(** The form of a call of [/paddle], each field as its reader takes it. *)
Record PaddleForm : Type := mkPaddleForm {
  (** [request.form.get("alert_name")] *)
  alert_name : option string;
  (** [json.loads(request.form.get("passthrough")).get("user_id")]; [None]
      when it raises *)
  passthrough_user_id : option (option nat);
  (** [int(request.form.get("subscription_plan_id"))]; [None] when it
      raises *)
  subscription_plan_id : option nat;
  (** [request.form.get("cancel_url")] and the like *)
  form_cancel_url : option string;
  form_update_url : option string;
  form_subscription_id : option string;
  (** [arrow.get(request.form.get("next_bill_date"), "YYYY-MM-DD").date()];
      [None] when it raises *)
  form_next_bill_date : option nat;
  (** [request.form.get("cancellation_effective_date")] *)
  cancellation_effective_date : option string
}.

(** A Coinbase event: [event["type"]], [int(event["data"]["metadata"]["user_id"])]
    and [event["data"]["code"]], the last two [None] when reading them
    raises. *)
Record Event : Type := mkEvent {
  ev_type : string;
  ev_user_id : option nat;
  ev_code : option string
}.

(** What a webhook answers: a body with a status, or an exception that
    leaves the view. *)
Inductive Answer : Type :=
| Reply (body : string) (status : nat)
| Uncaught (line : string).

Definition option_eqb (a b : option string) : bool :=
  match a, b with
  | Some x, Some y => String.eqb x y
  | None, None => true
  | _, _ => false
  end.

(** [User.get(user_id)]. *)
Definition User_get (st : Store) (id : option nat) : option User :=
  match id with
  | Some id => find (fun u => Nat.eqb (user_id u) id) (users st)
  | None => None
  end.

(** [Subscription.get_by(user_id=...)]. *)
Definition Subscription_get_by_user_id (st : Store) (id : nat) : option Subscription :=
  find (fun s => Nat.eqb (sub_user_id s) id) (subscriptions st).

(** [Subscription.get_by(subscription_id=...)]. *)
Definition Subscription_get_by_subscription_id (st : Store) (id : option string)
  : option Subscription :=
  find (fun s => option_eqb (subscription_id s) id) (subscriptions st).

(** [CoinbaseSubscription.get_by(user_id=...)]. *)
Definition CoinbaseSubscription_get_by (st : Store) (id : nat) : option CoinbaseSubscription :=
  find (fun s => Nat.eqb (cs_user_id s) id) (coinbase_subscriptions st).

Definition with_subscriptions (l : list Subscription) (st : Store) : Store :=
  mkStore (users st) l (coinbase_subscriptions st) (commits st) (sent st).

Definition with_coinbase_subscriptions (l : list CoinbaseSubscription) (st : Store) : Store :=
  mkStore (users st) (subscriptions st) l (commits st) (sent st).

(** [db.session.commit()]. *)
Definition commit (st : Store) : Store :=
  mkStore (users st) (subscriptions st) (coinbase_subscriptions st) (S (commits st)) (sent st).

(** [send_email(to, subject, plaintext, html)]. *)
Definition send_email (to subject plaintext : string) (html : option string) (st : Store)
  : Store :=
  mkStore (users st) (subscriptions st) (coinbase_subscriptions st) (commits st)
          (sent st ++ [mkEmail to subject plaintext html]).

(** Assignments to the attributes of the row a query returned: the row
    with that key is changed in place. *)
Definition update_subscription (id : nat) (f : Subscription -> Subscription) (st : Store)
  : Store :=
  with_subscriptions
    (map (fun s => if Nat.eqb (sub_id s) id then f s else s) (subscriptions st)) st.

Definition update_coinbase_subscription (id : nat)
    (f : CoinbaseSubscription -> CoinbaseSubscription) (st : Store) : Store :=
  with_coinbase_subscriptions
    (map (fun s => if Nat.eqb (cs_id s) id then f s else s) (coinbase_subscriptions st)) st.

Definition set_cancel_url (v : option string) (s : Subscription) : Subscription :=
  mkSubscription (sub_id s) (sub_user_id s) v (update_url s) (subscription_id s)
                 (event_time s) (next_bill_date s) (plan s) (cancelled s).

Definition set_update_url (v : option string) (s : Subscription) : Subscription :=
  mkSubscription (sub_id s) (sub_user_id s) (cancel_url s) v (subscription_id s)
                 (event_time s) (next_bill_date s) (plan s) (cancelled s).

Definition set_subscription_id (v : option string) (s : Subscription) : Subscription :=
  mkSubscription (sub_id s) (sub_user_id s) (cancel_url s) (update_url s) v
                 (event_time s) (next_bill_date s) (plan s) (cancelled s).

Definition set_event_time (v : nat) (s : Subscription) : Subscription :=
  mkSubscription (sub_id s) (sub_user_id s) (cancel_url s) (update_url s) (subscription_id s)
                 v (next_bill_date s) (plan s) (cancelled s).

Definition set_next_bill_date (v : nat) (s : Subscription) : Subscription :=
  mkSubscription (sub_id s) (sub_user_id s) (cancel_url s) (update_url s) (subscription_id s)
                 (event_time s) v (plan s) (cancelled s).

Definition set_plan (v : PlanEnum) (s : Subscription) : Subscription :=
  mkSubscription (sub_id s) (sub_user_id s) (cancel_url s) (update_url s) (subscription_id s)
                 (event_time s) (next_bill_date s) v (cancelled s).

Definition set_cancelled (v : bool) (s : Subscription) : Subscription :=
  mkSubscription (sub_id s) (sub_user_id s) (cancel_url s) (update_url s) (subscription_id s)
                 (event_time s) (next_bill_date s) (plan s) v.

Definition set_code (v : string) (s : CoinbaseSubscription) : CoinbaseSubscription :=
  mkCoinbaseSubscription (cs_id s) (cs_user_id s) (end_at s) v.

Definition set_end_at (v : nat) (s : CoinbaseSubscription) : CoinbaseSubscription :=
  mkCoinbaseSubscription (cs_id s) (cs_user_id s) v (code s).

Section Webhooks.

(** What the webhooks take from modules that are not among the sources:
    the product ids of app.config, the signature checks of paddle_utils and
    of coinbase_commerce, the value [Subscription.create] gives the
    [cancelled] column, [CoinbaseSubscription.is_active] at a time of the
    clock, and [shift(years=1)] of arrow. *)
Variable PADDLE_MONTHLY_PRODUCT_ID : nat.
Variable PADDLE_MONTHLY_PRODUCT_IDS : list nat.
Variable PADDLE_YEARLY_PRODUCT_IDS : list nat.
Variable verify_incoming_request : PaddleForm -> bool.
Variable cancelled_default : bool.
Variable construct_event : string -> option string -> Event + string.
Variable is_active : CoinbaseSubscription -> nat -> bool.
Variable shift_years_1 : nat -> nat.

(** [x in xs] for a list of product ids. *)
Definition in_ids (x : nat) (xs : list nat) : bool := existsb (Nat.eqb x) xs.

(** Lines 604-614: the plan of a product id at [subscription_created]. *)
Definition plan_of_created (subscription_plan_id : nat) : option PlanEnum :=
  if in_ids subscription_plan_id PADDLE_MONTHLY_PRODUCT_IDS then Some monthly
  else if in_ids subscription_plan_id PADDLE_YEARLY_PRODUCT_IDS then Some yearly
  else None.

(** Lines 708-714: the plan of a product id at [subscription_updated]. *)
Definition plan_of_updated (subscription_plan_id : nat) : PlanEnum :=
  if Nat.eqb subscription_plan_id PADDLE_MONTHLY_PRODUCT_ID then monthly else yearly.

(** Lines 593-648: [subscription_created]. *)
Definition subscription_created (form : PaddleForm) (now : nat) (st : Store)
  : Answer * Store :=
  match passthrough_user_id form with
  | None => (Uncaught "passthrough", st)
  | Some user_id =>
      let user := User_get st user_id in
      match subscription_plan_id form with
      | None => (Uncaught "subscription_plan_id", st)
      | Some subscription_plan_id =>
          match plan_of_created subscription_plan_id with
          | None => (Reply "No such subscription" 400, st)
          | Some plan =>
              match user with
              | None => (Uncaught "user.id", st)
              | Some user =>
                  match Subscription_get_by_user_id st (Billing.user_id user) with
                  | None =>
                      match form_next_bill_date form with
                      | None => (Uncaught "next_bill_date", st)
                      | Some next_bill_date =>
                          let sub := mkSubscription
                                       (next_id (map sub_id (subscriptions st)))
                                       (Billing.user_id user) (form_cancel_url form)
                                       (form_update_url form) (form_subscription_id form)
                                       now next_bill_date plan cancelled_default in
                          (Reply "OK" 200,
                           commit (with_subscriptions (subscriptions st ++ [sub]) st))
                      end
                  | Some sub =>
                      let st := update_subscription
                                  (sub_id sub)
                                  (fun s => set_event_time now
                                              (set_subscription_id (form_subscription_id form)
                                                 (set_update_url (form_update_url form)
                                                    (set_cancel_url (form_cancel_url form) s))))
                                  st in
                      match form_next_bill_date form with
                      | None => (Uncaught "next_bill_date", st)
                      | Some next_bill_date =>
                          (Reply "OK" 200,
                           commit (update_subscription
                                     (sub_id sub)
                                     (fun s => set_cancelled false
                                                 (set_plan plan
                                                    (set_next_bill_date next_bill_date s)))
                                     st))
                      end
                  end
              end
          end
      end
  end.

(** Lines 650-663: [subscription_payment_succeeded]. *)
Definition subscription_payment_succeeded (form : PaddleForm) (now : nat) (st : Store)
  : Answer * Store :=
  match Subscription_get_by_subscription_id st (form_subscription_id form) with
  | Some sub =>
      let st := update_subscription (sub_id sub) (set_event_time now) st in
      match form_next_bill_date form with
      | None => (Uncaught "next_bill_date", st)
      | Some next_bill_date =>
          (Reply "OK" 200,
           commit (update_subscription (sub_id sub) (set_next_bill_date next_bill_date) st))
      end
  | None => (Reply "OK" 200, st)
  end.

(** Lines 665-695: [subscription_cancelled]. *)
Definition subscription_cancelled (form : PaddleForm) (now : nat) (st : Store)
  : Answer * Store :=
  match Subscription_get_by_subscription_id st (form_subscription_id form) with
  | Some sub =>
      let st := commit (update_subscription
                          (sub_id sub) (fun s => set_cancelled true (set_event_time now s))
                          st) in
      match User_get st (Some (sub_user_id sub)) with
      | None => (Uncaught "user.email", st)
      | Some user =>
          (Reply "OK" 200,
           send_email (user_email user)
                      "SimpleLogin - what can we do to improve the product?"
                      "transactional/subscription-cancel.txt" None st)
      end
  | None => (Reply "No such subscription" 400, st)
  end.

(** Lines 696-729: [subscription_updated]. *)
Definition subscription_updated (form : PaddleForm) (now : nat) (st : Store)
  : Answer * Store :=
  match Subscription_get_by_subscription_id st (form_subscription_id form) with
  | Some sub =>
      match subscription_plan_id form with
      | None => (Uncaught "subscription_plan_id", st)
      | Some subscription_plan_id =>
          let plan := plan_of_updated subscription_plan_id in
          let st := update_subscription
                      (sub_id sub)
                      (fun s => set_event_time now
                                  (set_update_url (form_update_url form)
                                     (set_cancel_url (form_cancel_url form) s)))
                      st in
          match form_next_bill_date form with
          | None => (Uncaught "next_bill_date", st)
          | Some next_bill_date =>
              (Reply "OK" 200,
               commit (update_subscription
                         (sub_id sub)
                         (fun s => set_cancelled false
                                     (set_plan plan (set_next_bill_date next_bill_date s)))
                         st))
          end
      end
  | None => (Reply "No such subscription" 400, st)
  end.

(** The view [paddle] (lines 583-730) at the time [now] of the clock. *)
Definition paddle (form : PaddleForm) (now : nat) (st : Store) : Answer * Store :=
  if negb (verify_incoming_request form) then (Reply "KO" 400, st)
  else if option_eqb (alert_name form) (Some "subscription_created") then
    subscription_created form now st
  else if option_eqb (alert_name form) (Some "subscription_payment_succeeded") then
    subscription_payment_succeeded form now st
  else if option_eqb (alert_name form) (Some "subscription_cancelled") then
    subscription_cancelled form now st
  else if option_eqb (alert_name form) (Some "subscription_updated") then
    subscription_updated form now st
  else (Reply "OK" 200, st).

(** [handle_coinbase_event] (lines 761-815): [Some] of what it returns,
    [None] when it raises. *)
Definition handle_coinbase_event (event : Event) (now : nat) (st : Store)
  : option bool * Store :=
  match ev_user_id event with
  | None => (None, st)
  | Some user_id =>
      match ev_code event with
      | None => (None, st)
      | Some code =>
          match User_get st (Some user_id) with
          | None => (Some false, st)
          | Some user =>
              match CoinbaseSubscription_get_by st user_id with
              | None =>
                  let coinbase_subscription :=
                    mkCoinbaseSubscription
                      (next_id (map cs_id (coinbase_subscriptions st)))
                      user_id (shift_years_1 now) code in
                  let st := commit (with_coinbase_subscriptions
                                      (coinbase_subscriptions st ++ [coinbase_subscription])
                                      st) in
                  (Some true,
                   send_email (user_email user) "Your SimpleLogin account has been upgraded"
                              "transactional/coinbase/new-subscription.txt"
                              (Some "transactional/coinbase/new-subscription.html") st)
              | Some coinbase_subscription =>
                  let recoded :=
                    if negb (String.eqb (Billing.code coinbase_subscription) code)
                    then set_code code coinbase_subscription
                    else coinbase_subscription in
                  let extended :=
                    if is_active recoded now
                    then set_end_at (shift_years_1 (end_at recoded)) recoded
                    else set_end_at (shift_years_1 now) recoded in
                  let st := commit (update_coinbase_subscription
                                      (cs_id coinbase_subscription) (fun _ => extended) st) in
                  (Some true,
                   send_email (user_email user) "Your SimpleLogin account has been extended"
                              "transactional/coinbase/extend-subscription.txt"
                              (Some "transactional/coinbase/extend-subscription.html") st)
              end
          end
      end
  end.

(** The view [coinbase_webhook] (lines 735-758). *)
Definition coinbase_webhook (request_data : string) (request_sig : option string)
    (now : nat) (st : Store) : Answer * Store :=
  match construct_event request_data request_sig with
  | inr e => (Reply e 400, st)
  | inl event =>
      if String.eqb (ev_type event) "charge:confirmed" then
        match handle_coinbase_event event now st with
        | (Some true, st') => (Reply "success" 200, st')
        | (Some false, st') => (Reply "error" 400, st')
        | (None, st') => (Uncaught "handle_coinbase_event", st')
        end
      else (Reply "success" 200, st)
  end.

(** A user has at most one subscription of each kind. *)
Definition one_subscription_per_user (st : Store) : Prop :=
  NoDup (map sub_user_id (subscriptions st))
  /\ NoDup (map cs_user_id (coinbase_subscriptions st)).

(** The keys of the subscriptions are unique. *)
Definition subscription_keys_unique (st : Store) : Prop :=
  NoDup (map sub_id (subscriptions st)) /\ NoDup (map cs_id (coinbase_subscriptions st)).

End Webhooks.

(** What an alert leaves of the store: users and Coinbase subscriptions as
    they were; answered "OK", or "No such subscription" with nothing
    written; or ended by an exception before any mail. *)
Definition settled (st : Store) (out : Answer * Store) : Prop :=
  users (snd out) = users st
  /\ coinbase_subscriptions (snd out) = coinbase_subscriptions st
  /\ match fst out with
     | Reply body status =>
         (body = "OK" /\ status = 200)
         \/ (body = "No such subscription" /\ status = 400 /\ snd out = st)
     | Uncaught _ => sent (snd out) = sent st
     end.

End Billing.

(** ** Scenarios for the payment webhooks *)

Module BillingCases.
Import Billing.

Definition MONTHLY_ID : nat := 10.
Definition MONTHLY_IDS : list nat := [10; 11].
Definition YEARLY_IDS : list nat := [20].

(** A check that takes every form whose cancel URL is not "forged". *)
Definition verify (form : PaddleForm) : bool :=
  negb (option_eqb (form_cancel_url form) (Some "forged")).

(** A check that takes the signature "valid" and reads the payload as the
    code of a confirmed charge of user 1. *)
Definition construct (request_data : string) (request_sig : option string) : Event + string :=
  if option_eqb request_sig (Some "valid")
  then inl (mkEvent "charge:confirmed" (Some 1) (Some request_data))
  else inr "invalid signature".

(** Time in days. *)
Definition is_active (s : CoinbaseSubscription) (now : nat) : bool := (now <? end_at s)%nat.
Definition shift (t : nat) : nat := t + 365.

Definition alice : User := mkUser 1 "alice@home.example".

Definition alice_sub : Subscription :=
  mkSubscription 1 1 (Some "https://pay.example/cancel/1") (Some "https://pay.example/update/1")
                 (Some "sub-1") 100 130 monthly false.

Definition store0 : Store := mkStore [alice] [] [] 0 [].
Definition store1 : Store := mkStore [alice] [alice_sub] [] 0 [].

Definition created_form : PaddleForm :=
  mkPaddleForm (Some "subscription_created") (Some (Some 1)) (Some 20)
               (Some "https://pay.example/cancel/2") (Some "https://pay.example/update/2")
               (Some "sub-2") (Some 500) None.

Definition cancelled_form : PaddleForm :=
  mkPaddleForm (Some "subscription_cancelled") None None None None (Some "sub-1") None
               (Some "2020-05-10").

Definition updated_form : PaddleForm :=
  mkPaddleForm (Some "subscription_updated") None (Some 11)
               (Some "https://pay.example/cancel/1") (Some "https://pay.example/update/1")
               (Some "sub-1") (Some 160) None.

End BillingCases.

(** ** More scenarios on the concrete deployment *)

Module Cases.

(** A message for an address nobody has and nobody provides. *)
Definition fwd_nobody : Envelope :=
  mkEnvelope "jane@biz.example" ["Nobody@relay.example"]
             (Demo.raw_of Demo.jane "nobody@relay.example" "hello") [] [].

(** A custom domain of the owner that catches every address. *)
Definition open_domain : CustomDomain := mkCustomDomain 2 "open.example" true true Demo.owner.

Definition world3 : World :=
  mkWorld [Demo.shop; Demo.off] [Demo.boss_mapping] [] [Demo.sales]
          [Demo.own_domain; open_domain] 0 0 [] [].

Definition fwd_open : Envelope :=
  mkEnvelope "jane@biz.example" ["Any@open.example"]
             (Demo.raw_of Demo.jane "any@open.example" "hello") [] [].

(** An alias whose custom domain has been removed, and its mapping. *)
Definition gone : GenEmail :=
  mkGenEmail 4 "me@gone.example" Demo.owner None true None (Some 7) false.

Definition gone_mapping : ForwardEmail :=
  mkForwardEmail 3 4 "boss@biz.example" (Some "Boss <boss@biz.example>")
                 "reply+cccc@relay.example".

Definition world4 : World :=
  mkWorld [Demo.shop; Demo.off; gone] [Demo.boss_mapping; gone_mapping] [] [] [] 0 0 [] [].

Definition reply_gone : Envelope :=
  mkEnvelope "owner@home.example" ["reply+cccc@relay.example"]
             (Demo.raw_of "owner@home.example" "reply+cccc@relay.example" "hi") [] [].

(** A user who may not create aliases, a directory of theirs, and a message
    to an address under it. *)
Definition frozen : User := mkUser 2 "Frozen" "frozen@home.example" false.

Definition lab : Directory := mkDirectory 2 "lab" frozen.

Definition world5 : World :=
  mkWorld [Demo.shop; Demo.off] [Demo.boss_mapping] [] [Demo.sales; lab] [] 0 0 [] [].

Definition fwd_lab : Envelope :=
  mkEnvelope "jane@biz.example" ["lab+x@relay.example"]
             (Demo.raw_of Demo.jane "lab+x@relay.example" "hello") [] [].





(** The owner's answer as a message without a From header. *)
Definition reply_without_from : Envelope :=
  mkEnvelope "owner@home.example" ["reply+aaaa@relay.example"]
             ("To: reply+aaaa@relay.example" ++ Py.LF ++ Py.LF ++ "hi") [] [].

(** The owner answers Jane through the reply address the forward made. *)
Definition reply_jane : Envelope :=
  mkEnvelope "owner@home.example" ["reply+tok0@relay.example"]
             (Demo.raw_of "owner@home.example" "reply+tok0@relay.example" "hi Jane") [] [].

(** The dashboard: the owner, logged in, adds Jane as a contact of [shop],
    looks at the page, and deletes the contact again. *)
Definition site0 : Site := mkSite Demo.world0 [].

Definition req_create : Request :=
  mkRequest (Some 1) "POST" (Some "create") (Some " Jane Doe <jane@biz.example> ") true None.

Definition req_delete : Request :=
  mkRequest (Some 1) "POST" (Some "delete") None true (Some 2).

Definition req_get : Request := mkRequest (Some 1) "GET" None None true None.

(** The owner writes to Jane through the reverse alias of the dashboard. *)
Definition reply_contact : Envelope :=
  mkEnvelope "owner@home.example" ["ra+tok0@relay.example"]
             (Demo.raw_of "owner@home.example" "ra+tok0@relay.example" "hi Jane") [] [].

(** The alias [shop] with two contacts and four log entries, for the pages. *)
Definition news_mapping : ForwardEmail :=
  mkForwardEmail 2 1 "news@biz.example" (Some "news@biz.example") "ra+cccc@relay.example".

Definition world6 : World :=
  mkWorld [Demo.shop; Demo.off] [Demo.boss_mapping; news_mapping]
          [mkForwardEmailLog 1 1 false false; mkForwardEmailLog 2 2 false false;
           mkForwardEmailLog 3 1 true false; mkForwardEmailLog 4 1 false false]
          [] [] 0 0 [] [].

(** The clock of the log: an entry every ten ticks. *)
Definition clock (fel : ForwardEmailLog) : nat := 10 * fel_id fel.

End Cases.

(** * Properties of the relay *)

Arguments Py.lower : simpl never.
Arguments Py.startswith : simpl never.
Arguments Py.endswith : simpl never.
Arguments Py.find : simpl never.
Arguments Py.contains : simpl never.
Arguments Py.slice_from : simpl never.
Arguments Py.slice_to : simpl never.
Arguments Py.replace : simpl never.
Arguments Py.str : simpl never.
Arguments Py.in_list : simpl never.
Arguments String.append : simpl never.
Arguments String.eqb : simpl never.
Arguments next_id : simpl never.

(** Unfolds the monad under the goal and along the hypotheses. *)
Ltac run :=
  unfold bind, ret, raise, get_db, modify_db, get_msg, put_msg in *; simpl in *.

(** ** The first recipient *)

Lemma first_rcpt_cons (envelope : Envelope) (r : string) (rest : list string) (c : Ctx) :
  rcpt_tos envelope = r :: rest ->
  first_rcpt envelope c = (Ok (Py.lower r), c).
Proof.
  intros H. unfold first_rcpt. rewrite H. reflexivity.
Qed.

Lemma first_rcpt_nil (envelope : Envelope) (c : Ctx) :
  rcpt_tos envelope = [] ->
  first_rcpt envelope c = (Raised Py.IndexError, c).
Proof.
  intros H. unfold first_rcpt. rewrite H. reflexivity.
Qed.

(** ** Frame rules: what a step leaves alone *)

Lemma keeps_db_ret {X A : Type} (g : World -> X) (a : A) : keeps_db g (ret a).
Proof. intros c. reflexivity. Qed.

Lemma keeps_db_raise {X A : Type} (g : World -> X) (e : Py.exn) :
  keeps_db g (@raise A e).
Proof. intros c. reflexivity. Qed.

Lemma keeps_db_bind {X A B : Type} (g : World -> X) (m : M A) (f : A -> M B) :
  keeps_db g m -> (forall a, keeps_db g (f a)) -> keeps_db g (bind m f).
Proof.
  intros Hm Hf c. unfold bind. specialize (Hm c).
  destruct (m c) as [[a|e] c1]; simpl in *.
  - rewrite Hf. exact Hm.
  - exact Hm.
Qed.

Lemma keeps_db_get_db {X : Type} (g : World -> X) : keeps_db g get_db.
Proof. intros c. reflexivity. Qed.

Lemma keeps_db_get_msg {X : Type} (g : World -> X) : keeps_db g get_msg.
Proof. intros c. reflexivity. Qed.

Lemma keeps_db_put_msg {X : Type} (g : World -> X) (m : Message) : keeps_db g (put_msg m).
Proof. intros c. reflexivity. Qed.

Lemma keeps_db_modify_db {X : Type} (g : World -> X) (f : World -> World) :
  (forall w, g (f w) = g w) -> keeps_db g (modify_db f).
Proof. intros H c. simpl. apply H. Qed.

Lemma keeps_msg_ret {A : Type} (a : A) : keeps_msg (ret a).
Proof. intros c. reflexivity. Qed.

Lemma keeps_msg_raise {A : Type} (e : Py.exn) : keeps_msg (@raise A e).
Proof. intros c. reflexivity. Qed.

Lemma keeps_msg_bind {A B : Type} (m : M A) (f : A -> M B) :
  keeps_msg m -> (forall a, keeps_msg (f a)) -> keeps_msg (bind m f).
Proof.
  intros Hm Hf c. unfold bind. specialize (Hm c).
  destruct (m c) as [[a|e] c1]; simpl in *.
  - rewrite Hf. exact Hm.
  - exact Hm.
Qed.

Lemma keeps_msg_get_db : keeps_msg get_db.
Proof. intros c. reflexivity. Qed.

Lemma keeps_msg_get_msg : keeps_msg get_msg.
Proof. intros c. reflexivity. Qed.

Lemma keeps_msg_modify_db (f : World -> World) : keeps_msg (modify_db f).
Proof. intros c. reflexivity. Qed.

Create HintDb keeps.
#[local] Hint Resolve keeps_db_ret keeps_db_raise keeps_db_get_db keeps_db_get_msg
  keeps_db_put_msg keeps_msg_ret keeps_msg_raise keeps_msg_get_db keeps_msg_get_msg
  keeps_msg_modify_db : keeps.

(** Walks a handler body: binds, branches and the primitive steps. *)
Ltac frame :=
  repeat (intros;
          match goal with
          | |- keeps_db _ (bind _ _) => apply keeps_db_bind
          | |- keeps_msg (bind _ _) => apply keeps_msg_bind
          | |- keeps_db _ (modify_db _) =>
              apply keeps_db_modify_db; intros; first [reflexivity | solve [auto]]
          | |- keeps_db _ (if ?b then _ else _) => destruct b
          | |- keeps_msg (if ?b then _ else _) => destruct b
          | |- keeps_db _ (match ?x with _ => _ end) => destruct x
          | |- keeps_msg (match ?x with _ => _ end) => destruct x
          | |- _ => solve [eauto with keeps]
          end).

Lemma keeps_db_replace_header {X : Type} (g : World -> X) (name value : string) :
  keeps_db g (replace_header name value).
Proof. unfold replace_header. frame. Qed.

Lemma keeps_db_delete_header {X : Type} (g : World -> X) (name : string) :
  keeps_db g (delete_header name).
Proof. unfold delete_header. frame. Qed.

Lemma keeps_db_add_or_replace_header {X : Type} (g : World -> X) (name value : string) :
  keeps_db g (add_or_replace_header name value).
Proof. unfold add_or_replace_header. frame. Qed.

Lemma keeps_db_add_dkim_signature {X : Type} (app : App) (g : World -> X) (d : string) :
  keeps_db g (add_dkim_signature app d).
Proof. unfold add_dkim_signature. frame. Qed.

Lemma keeps_msg_commit : keeps_msg commit.
Proof. unfold commit. frame. Qed.

Lemma keeps_msg_notify (n : Notification) : keeps_msg (notify n).
Proof. unfold notify. frame. Qed.

Lemma keeps_msg_sendmail (a b raw : string) (mo ro : list string) :
  keeps_msg (sendmail a b raw mo ro).
Proof. unfold sendmail. frame. Qed.

Lemma keeps_msg_GenEmail_create (e : string) (u : User) (d cd : option nat) (a : bool) :
  keeps_msg (GenEmail_create e u d cd a).
Proof. unfold GenEmail_create. frame. Qed.

Lemma keeps_msg_ForwardEmail_create (g : nat) (we : string) (wf : option string)
    (r : string) : keeps_msg (ForwardEmail_create g we wf r).
Proof. unfold ForwardEmail_create. frame. Qed.

Lemma keeps_msg_ForwardEmailLog_create (f : nat) (b : bool) :
  keeps_msg (ForwardEmailLog_create f b).
Proof. unfold ForwardEmailLog_create. frame. Qed.

#[local] Hint Resolve keeps_db_replace_header keeps_db_delete_header
  keeps_db_add_or_replace_header keeps_db_add_dkim_signature keeps_msg_commit
  keeps_msg_notify keeps_msg_sendmail keeps_msg_GenEmail_create
  keeps_msg_ForwardEmail_create keeps_msg_ForwardEmailLog_create : keeps.

(** ** Headers *)

Lemma same_header_other (n n' : string) (h : string * string) :
  Py.lower n <> Py.lower n' -> same_header n h = true -> same_header n' h = false.
Proof.
  unfold same_header. intros Hne H. apply String.eqb_eq in H.
  apply String.eqb_neq. congruence.
Qed.

Lemma find_replace_first_other (n n' v : string) (hs hs' : list (string * string)) :
  Py.lower n <> Py.lower n' ->
  replace_first n' v hs = Some hs' ->
  find (same_header n) hs' = find (same_header n) hs.
Proof.
  intros Hne. revert hs'. induction hs as [|h hs IH]; intros hs' H; simpl in H.
  - discriminate.
  - destruct (same_header n' h) eqn:E.
    + injection H as <-. simpl.
      assert (Hh : same_header n h = false).
      { destruct (same_header n h) eqn:E'; [|reflexivity].
        rewrite (same_header_other n n' h Hne E') in E. discriminate. }
      rewrite Hh.
      replace (same_header n (fst h, v)) with (same_header n h) by reflexivity.
      rewrite Hh. reflexivity.
    + destruct (replace_first n' v hs) as [hs1|] eqn:E1; [|discriminate].
      injection H as <-. simpl. rewrite (IH hs1 eq_refl). reflexivity.
Qed.

Lemma find_replace_first_same (n v : string) (hs hs' : list (string * string)) :
  replace_first n v hs = Some hs' ->
  option_map snd (find (same_header n) hs') = Some v.
Proof.
  revert hs'. induction hs as [|h hs IH]; intros hs' H; simpl in H.
  - discriminate.
  - destruct (same_header n h) eqn:E.
    + injection H as <-. simpl.
      replace (same_header n (fst h, v)) with (same_header n h) by reflexivity.
      rewrite E. reflexivity.
    + destruct (replace_first n v hs) as [hs1|] eqn:E1; [|discriminate].
      injection H as <-. simpl. rewrite E. apply IH. reflexivity.
Qed.

Lemma replace_first_found (n v : string) (hs : list (string * string)) :
  find (same_header n) hs <> None -> exists hs', replace_first n v hs = Some hs'.
Proof.
  induction hs as [|h hs IH]; simpl; intros H.
  - contradiction.
  - destruct (same_header n h).
    + eauto.
    + destruct (IH H) as [hs' ->]. simpl. eauto.
Qed.

Lemma replace_first_missing (n v : string) (hs : list (string * string)) :
  find (same_header n) hs = None -> replace_first n v hs = None.
Proof.
  induction hs as [|h hs IH]; simpl; intros H.
  - reflexivity.
  - destruct (same_header n h); [discriminate|]. rewrite (IH H). reflexivity.
Qed.

Lemma find_filter_other (n n' : string) (hs : list (string * string)) :
  Py.lower n <> Py.lower n' ->
  find (same_header n) (filter (fun h => negb (same_header n' h)) hs)
  = find (same_header n) hs.
Proof.
  intros Hne. induction hs as [|h hs IH]; simpl.
  - reflexivity.
  - destruct (same_header n h) eqn:E.
    + rewrite (same_header_other n n' h Hne E). simpl. rewrite E. reflexivity.
    + destruct (same_header n' h); simpl; [|rewrite E]; exact IH.
Qed.

Lemma find_app_other (n n' v : string) (hs : list (string * string)) :
  Py.lower n <> Py.lower n' ->
  find (same_header n) (hs ++ [(n', v)]) = find (same_header n) hs.
Proof.
  intros Hne. induction hs as [|h hs IH]; simpl.
  - assert (H : same_header n (n', v) = false).
    { unfold same_header. simpl. apply String.eqb_neq. congruence. }
    rewrite H. reflexivity.
  - destruct (same_header n h); [reflexivity|exact IH].
Qed.

(** What each header operation does to the state and to the other headers. *)

Lemma delete_header_run (n' : string) (c : Ctx) :
  exists m', delete_header n' c = (Ok tt, mkCtx (db c) m')
             /\ body m' = body (msg c)
             /\ forall n, Py.lower n <> Py.lower n' -> msg_get m' n = msg_get (msg c) n.
Proof.
  unfold delete_header. run. eexists. split; [reflexivity|]. split; [reflexivity|].
  intros n Hne. unfold msg_get. simpl. rewrite (find_filter_other n n' _ Hne). reflexivity.
Qed.

Lemma add_or_replace_header_run (n' v : string) (c : Ctx) :
  exists m', add_or_replace_header n' v c = (Ok tt, mkCtx (db c) m')
             /\ body m' = body (msg c)
             /\ forall n, Py.lower n <> Py.lower n' -> msg_get m' n = msg_get (msg c) n.
Proof.
  unfold add_or_replace_header. run.
  destruct (replace_first n' v (headers (msg c))) as [hs|] eqn:E; simpl.
  - eexists. split; [reflexivity|]. split; [reflexivity|].
    intros n Hne. unfold msg_get. simpl.
    rewrite (find_replace_first_other n n' v _ _ Hne E). reflexivity.
  - eexists. split; [reflexivity|]. split; [reflexivity|].
    intros n Hne. unfold msg_get. simpl. rewrite (find_app_other n n' v _ Hne). reflexivity.
Qed.

Lemma replace_header_run (n' v : string) (c : Ctx) :
  msg_get (msg c) n' <> None ->
  exists m', replace_header n' v c = (Ok tt, mkCtx (db c) m')
             /\ body m' = body (msg c)
             /\ msg_get m' n' = Some v
             /\ forall n, Py.lower n <> Py.lower n' -> msg_get m' n = msg_get (msg c) n.
Proof.
  intros Hhas. unfold replace_header. run.
  assert (Hf : find (same_header n') (headers (msg c)) <> None).
  { unfold msg_get in Hhas. destruct (find (same_header n') (headers (msg c)));
      [discriminate|contradiction]. }
  destruct (replace_first_found n' v _ Hf) as [hs E]. rewrite E. simpl.
  eexists. split; [reflexivity|]. split; [reflexivity|]. split.
  - unfold msg_get. simpl. apply (find_replace_first_same _ _ _ _ E).
  - intros n Hne. unfold msg_get. simpl.
    rewrite (find_replace_first_other n n' v _ _ Hne E). reflexivity.
Qed.

Lemma replace_header_missing (n' v : string) (c : Ctx) :
  msg_get (msg c) n' = None ->
  replace_header n' v c = (Raised (Py.KeyError (Py.lower n')), c).
Proof.
  intros Hnone. unfold replace_header. run.
  assert (Hf : find (same_header n') (headers (msg c)) = None).
  { unfold msg_get in Hnone. destruct (find (same_header n') (headers (msg c)));
      [discriminate|reflexivity]. }
  rewrite (replace_first_missing n' v _ Hf). reflexivity.
Qed.

Lemma add_dkim_signature_run (app : App) (d : string) (c : Ctx) :
  exists m', add_dkim_signature app d c = (Ok tt, mkCtx (db c) m')
             /\ body m' = body (msg c)
             /\ forall n, Py.lower n <> Py.lower "DKIM-Signature" ->
                          msg_get m' n = msg_get (msg c) n.
Proof.
  unfold add_dkim_signature. run. eexists. split; [reflexivity|]. split; [reflexivity|].
  intros n Hne. unfold msg_get. simpl. rewrite (find_app_other n _ _ _ Hne). reflexivity.
Qed.

(** ** Rows: lookups, in-place updates, fresh keys *)

Lemma header_eqb_eq (a b : option string) : header_eqb a b = true <-> a = b.
Proof.
  destruct a as [x|], b as [y|]; simpl; split; intros H; try discriminate; try reflexivity.
  - apply String.eqb_eq in H. congruence.
  - injection H as ->. apply String.eqb_refl.
Qed.

Lemma for_pair_website_from_set (g : nat) (we : string) (v : option string)
    (f : ForwardEmail) :
  for_pair g we (website_from_set v f) = for_pair g we f.
Proof. reflexivity. Qed.

Lemma for_pair_true (g : nat) (we : string) (f : ForwardEmail) :
  for_pair g we f = true -> fe_gen_email_id f = g /\ fe_website_email f = we.
Proof.
  unfold for_pair. intros H. apply andb_true_iff in H. destruct H as [H1 H2].
  apply Nat.eqb_eq in H1. apply String.eqb_eq in H2. now split.
Qed.

Lemma website_from_set_same (f : ForwardEmail) :
  website_from_set (fe_website_from f) f = f.
Proof. destruct f. reflexivity. Qed.

Lemma update_first_length {A : Type} (p : A -> bool) (f : A -> A) (l : list A) :
  length (update_first p f l) = length l.
Proof.
  induction l as [|x l IH]; simpl; [reflexivity|].
  destruct (p x); simpl; congruence.
Qed.

Lemma update_first_fixed {A : Type} (p : A -> bool) (f : A -> A) (l : list A) (x : A) :
  find p l = Some x -> f x = x -> update_first p f l = l.
Proof.
  induction l as [|y l IH]; simpl; intros Hf Hx; [reflexivity|].
  destruct (p y).
  - injection Hf as ->. rewrite Hx. reflexivity.
  - rewrite (IH Hf Hx). reflexivity.
Qed.

Lemma find_update_first {A : Type} (p : A -> bool) (f : A -> A) (l : list A) (x : A) :
  (forall y, p (f y) = p y) ->
  find p l = Some x -> find p (update_first p f l) = Some (f x).
Proof.
  intros Hp. induction l as [|y l IH]; simpl; intros Hf; [discriminate|].
  destruct (p y) eqn:E.
  - injection Hf as ->. simpl. rewrite Hp, E. reflexivity.
  - simpl. rewrite E. exact (IH Hf).
Qed.

Lemma filter_update_first_length {A : Type} (p q : A -> bool) (f : A -> A) (l : list A) :
  (forall y, q (f y) = q y) ->
  length (filter q (update_first p f l)) = length (filter q l).
Proof.
  intros Hq. induction l as [|y l IH]; simpl; [reflexivity|].
  destruct (p y); simpl.
  - rewrite Hq. destruct (q y); reflexivity.
  - destruct (q y); simpl; congruence.
Qed.

Lemma find_none_filter {A : Type} (p : A -> bool) (l : list A) :
  find p l = None -> filter p l = [].
Proof.
  induction l as [|y l IH]; simpl; intros H; [reflexivity|].
  destruct (p y); [discriminate|exact (IH H)].
Qed.

Lemma find_some_filter {A : Type} (p : A -> bool) (l : list A) (x : A) :
  find p l = Some x -> 1 <= length (filter p l).
Proof.
  induction l as [|y l IH]; simpl; intros H; [discriminate|].
  destruct (p y); simpl; [lia|exact (IH H)].
Qed.

Lemma find_app_new {A : Type} (p : A -> bool) (l : list A) (x : A) :
  find p l = None -> p x = true -> find p (l ++ [x]) = Some x.
Proof.
  induction l as [|y l IH]; simpl; intros H Hx.
  - rewrite Hx. reflexivity.
  - destruct (p y); [discriminate|exact (IH H Hx)].
Qed.

Lemma next_id_fresh (ids : list nat) : Forall (fun i => i <> next_id ids) ids.
Proof.
  unfold next_id.
  pose proof (proj1 (list_max_le ids (list_max ids)) (Nat.le_refl _)) as H.
  eapply Forall_impl; [|exact H]. simpl. intros i Hi. lia.
Qed.

Lemma set_blocked_other (id : nat) (l : list ForwardEmailLog) :
  Forall (fun i => i <> id) (map fel_id l) -> set_blocked id l = l.
Proof.
  induction l as [|e l IH]; simpl; intros H; [reflexivity|].
  inversion H as [|? ? Hne Hrest]; subst.
  destruct (Nat.eqb_spec (fel_id e) id); [contradiction|].
  rewrite (IH Hrest). reflexivity.
Qed.

Lemma set_blocked_new (l : list ForwardEmailLog) (forward_id : nat) (is_reply : bool) :
  set_blocked (next_id (map fel_id l))
              (l ++ [mkForwardEmailLog (next_id (map fel_id l)) forward_id is_reply false])
  = (l ++ [mkForwardEmailLog (next_id (map fel_id l)) forward_id is_reply true])%list.
Proof.
  unfold set_blocked at 1. rewrite map_app. fold (set_blocked (next_id (map fel_id l)) l).
  rewrite (set_blocked_other _ _ (next_id_fresh _)). simpl.
  rewrite Nat.eqb_refl. reflexivity.
Qed.

Lemma one_mapping_update (l : list ForwardEmail) (g : nat) (we : string)
    (v : option string) (g' : nat) (we' : string) :
  length (filter (for_pair g' we')
                 (update_first (for_pair g we) (website_from_set v) l))
  = length (filter (for_pair g' we') l).
Proof.
  apply filter_update_first_length. intros y. apply for_pair_website_from_set.
Qed.

Lemma one_mapping_append (l : list ForwardEmail) (f : ForwardEmail) (g' : nat) (we' : string) :
  find (for_pair (fe_gen_email_id f) (fe_website_email f)) l = None ->
  length (filter (for_pair g' we') l) <= 1 ->
  length (filter (for_pair g' we') (l ++ [f])) <= 1.
Proof.
  intros Hnone Hle. rewrite filter_app, length_app. simpl.
  destruct (for_pair g' we' f) eqn:E; simpl; [|lia].
  apply for_pair_true in E. destruct E as [<- <-].
  rewrite (find_none_filter _ _ Hnone). simpl. lia.
Qed.

Section RelayFacts.

Variable app : App.

Lemma first_by_some_in {A : Type} (p : A -> bool) (rows : list A) (x : A) :
  first_by p rows = Some x -> In x rows /\ p x = true.
Proof.
  unfold first_by. apply find_some.
Qed.

Lemma handle_DATA_unfold (envelope : Envelope) (r : string) (rest : list string) (w : World) :
  rcpt_tos envelope = r :: rest ->
  handle_DATA app envelope w =
  if Py.startswith (Py.lower r) "reply+" || Py.startswith (Py.lower r) "ra+"
  then handle_reply app envelope (parsed app envelope w)
  else handle_forward app envelope (parsed app envelope w).
Proof.
  intros Hr. unfold handle_DATA, parsed, bind.
  rewrite (first_rcpt_cons _ _ _ _ Hr).
  now destruct (Py.startswith (Py.lower r) "reply+" || Py.startswith (Py.lower r) "ra+").
Qed.

(** C8: the first recipient, in lower case, decides the pipeline, and
    nothing else of the envelope or of the state does: with the prefix
    [reply+] and with the prefix [ra+] alike the envelope is handed to
    [handle_reply], run on the parsed message and the same state, and
    without either prefix it is handed to [handle_forward]. *)
Theorem handle_DATA_routes_by_recipient
    (envelope : Envelope) (r : string) (rest : list string) (w : World) :
  rcpt_tos envelope = r :: rest ->
  (Py.startswith (Py.lower r) "reply+" = true ->
   handle_DATA app envelope w = handle_reply app envelope (parsed app envelope w))
  /\ (Py.startswith (Py.lower r) "ra+" = true ->
      handle_DATA app envelope w = handle_reply app envelope (parsed app envelope w))
  /\ (Py.startswith (Py.lower r) "reply+" = false ->
      Py.startswith (Py.lower r) "ra+" = false ->
      handle_DATA app envelope w = handle_forward app envelope (parsed app envelope w)).
Proof.
  intros Hr. rewrite (handle_DATA_unfold _ _ _ _ Hr).
  repeat split.
  - intros H. rewrite H. reflexivity.
  - intros H. rewrite H, orb_true_r. reflexivity.
  - intros H1 H2. rewrite H1, H2. reflexivity.
Qed.

(** C9 as amended: only the first recipient is read.  An envelope with
    further recipients is handled exactly as the envelope with the first
    one alone; an envelope without recipients raises [IndexError] before
    anything is done. *)
Theorem handle_DATA_reads_first_recipient_only (envelope : Envelope) (w : World) :
  (forall r rest, rcpt_tos envelope = r :: rest ->
     handle_DATA app envelope w = handle_DATA app (with_rcpt_tos [r] envelope) w)
  /\ (rcpt_tos envelope = [] ->
      handle_DATA app envelope w = (Raised Py.IndexError, parsed app envelope w)).
Proof.
  split.
  - intros r rest Hr.
    unfold handle_DATA, handle_reply, handle_forward, notify_unauthorized_reply,
      reply_relay, reply_send, forward_relay, forward_deliver, bind, first_rcpt.
    rewrite Hr. reflexivity.
  - intros Hnil. unfold handle_DATA, parsed, bind at 1.
    rewrite (first_rcpt_nil _ _ Hnil). reflexivity.
Qed.

(** ** The reply pipeline *)

Lemma raises_only_bind {A B : Type} (P : Py.exn -> Prop) (m : M A) (f : A -> M B) :
  raises_only P m -> (forall a, raises_only P (f a)) -> raises_only P (bind m f).
Proof.
  intros Hm Hf c e c' E. unfold bind in E.
  destruct (m c) as [[a|e1] c1] eqn:Em.
  - exact (Hf a c1 e c' E).
  - injection E as <- <-. exact (Hm c e1 c1 Em).
Qed.

Lemma raises_only_delete_header (P : Py.exn -> Prop) (n : string) :
  raises_only P (delete_header n).
Proof. intros c e c' E. unfold delete_header in E. run. discriminate. Qed.

Lemma raises_only_add_or_replace_header (P : Py.exn -> Prop) (n v : string) :
  raises_only P (add_or_replace_header n v).
Proof.
  intros c e c' E. unfold add_or_replace_header in E. run.
  destruct (replace_first n v (headers (msg c))); discriminate.
Qed.

Lemma raises_only_replace_header (n v : string) :
  raises_only is_KeyError (replace_header n v).
Proof.
  intros c e c' E. unfold replace_header in E. run.
  destruct (replace_first n v (headers (msg c))); [discriminate|].
  injection E as <- _. exact I.
Qed.

Lemma reply_transform_raises_KeyError (alias : string) (forward_email : ForwardEmail) :
  raises_only is_KeyError (reply_transform app alias forward_email).
Proof.
  unfold reply_transform.
  repeat first [ apply raises_only_delete_header
               | apply raises_only_add_or_replace_header
               | apply raises_only_replace_header
               | apply raises_only_bind; [|intros] ].
Qed.

Lemma returns_only_ret (P : string -> Prop) (s : string) : P s -> returns_only P (ret s).
Proof. intros H c s' c' E. injection E as <- _. exact H. Qed.

Lemma returns_only_bind {A : Type} (P : string -> Prop) (m : M A) (f : A -> M string) :
  (forall a, returns_only P (f a)) -> returns_only P (bind m f).
Proof.
  intros Hf c s c' E. unfold bind in E.
  destruct (m c) as [[a|e] c1]; [|discriminate].
  exact (Hf a c1 s c' E).
Qed.

Lemma reply_relay_returns_250 (envelope : Envelope) (alias alias_domain reply_email : string)
    (forward_email : ForwardEmail) :
  returns_only (fun s => s = "250 Message accepted for delivery")
               (reply_relay app envelope alias alias_domain reply_email forward_email).
Proof.
  unfold reply_relay.
  repeat (apply returns_only_bind; intros).
  now apply returns_only_ret.
Qed.


Lemma keeps_db_reply_transform {X : Type} (g : World -> X) (alias : string)
    (forward_email : ForwardEmail) :
  keeps_db g (reply_transform app alias forward_email).
Proof. unfold reply_transform. frame. Qed.

Lemma keeps_db_reply_sign {X : Type} (g : World -> X) (alias_domain : string) :
  keeps_db g (reply_sign app alias_domain).
Proof. unfold reply_sign. frame. Qed.

Lemma keeps_notifications_reply_relay (envelope : Envelope)
    (alias alias_domain reply_email : string) (forward_email : ForwardEmail) :
  keeps_db notifications
           (reply_relay app envelope alias alias_domain reply_email forward_email).
Proof.
  unfold reply_relay, reply_send, sendmail, ForwardEmailLog_create, commit.
  pose proof (keeps_db_reply_transform notifications).
  pose proof (keeps_db_reply_sign notifications).
  frame.
Qed.

(** The header transform of a reply goes through when the message has the
    two headers it replaces. *)
Lemma reply_transform_run (alias : string) (forward_email : ForwardEmail) (c : Ctx) :
  msg_get (msg c) "From" <> None ->
  msg_get (msg c) "To" <> None ->
  exists m', reply_transform app alias forward_email c = (Ok tt, mkCtx (db c) m')
             /\ body m' = body (msg c)
             /\ msg_get m' "From" = Some alias
             /\ msg_get m' "To" = Some (fe_website_email forward_email).
Proof.
  intros HF HT. unfold reply_transform.
  destruct (delete_header_run "DKIM-Signature" c) as (m1 & E1 & B1 & G1).
  unfold bind at 1. rewrite E1.
  destruct (replace_header_run "From" alias (mkCtx (db c) m1)) as (m2 & E2 & B2 & S2 & G2).
  { simpl. rewrite G1 by (vm_compute; discriminate). exact HF. }
  unfold bind at 1. rewrite E2. simpl in *.
  destruct (delete_header_run "Reply-To" (mkCtx (db c) m2)) as (m3 & E3 & B3 & G3).
  unfold bind at 1. rewrite E3. simpl in *.
  destruct (replace_header_run "To" (fe_website_email forward_email) (mkCtx (db c) m3))
    as (m4 & E4 & B4 & S4 & G4).
  { simpl. rewrite G3, G2, G1 by (vm_compute; discriminate). exact HT. }
  unfold bind at 1. rewrite E4. simpl in *.
  destruct (add_or_replace_header_run "List-Unsubscribe"
              (unsubscribe_header app (fe_gen_email_id forward_email)) (mkCtx (db c) m4))
    as (m5 & E5 & B5 & G5).
  unfold bind at 1. rewrite E5. simpl in *.
  destruct (add_or_replace_header_run "List-Unsubscribe-Post" "List-Unsubscribe=One-Click"
              (mkCtx (db c) m5)) as (m6 & E6 & B6 & G6).
  unfold bind at 1. rewrite E6. simpl in *.
  destruct (delete_header_run "Received-SPF" (mkCtx (db c) m6)) as (m7 & E7 & B7 & G7).
  rewrite E7. simpl in *.
  exists m7. split; [reflexivity|]. split; [congruence|]. split.
  - rewrite G7, G6, G5, G4, G3 by (vm_compute; discriminate). exact S2.
  - rewrite G7, G6, G5 by (vm_compute; discriminate). exact S4.
Qed.

(** Where the domain check of lines 311-314 passed, the signing step of
    lines 394-400 finds the custom domain it looks up. *)
Lemma custom_domain_found_when_signing (w : World) (alias : string) :
  alias_domain_known app w alias ->
  Py.in_list (Py.slice_from alias (Py.find alias "@" + 1)) (ALIAS_DOMAINS app) = false ->
  CustomDomain_get_by_domain w (Py.slice_from alias (Py.find alias "@" + 1)) <> None.
Proof.
  intros [Hb|Hcd] Hnot; [|exact Hcd].
  unfold email_belongs_to_alias_domains, get_email_domain_part in Hb. congruence.
Qed.

Lemma reply_sign_run (alias : string) (c : Ctx) :
  alias_domain_known app (db c) alias ->
  exists m', reply_sign app (Py.slice_from alias (Py.find alias "@" + 1)) c
             = (Ok tt, mkCtx (db c) m')
             /\ body m' = body (msg c)
             /\ forall n, Py.lower n <> Py.lower "DKIM-Signature" ->
                          msg_get m' n = msg_get (msg c) n.
Proof.
  intros Hknown. unfold reply_sign.
  destruct (Py.in_list _ (ALIAS_DOMAINS app)) eqn:Hin.
  - apply add_dkim_signature_run.
  - pose proof (custom_domain_found_when_signing _ _ Hknown Hin) as Hcd.
    run. destruct (CustomDomain_get_by_domain (db c) _) as [cd|]; [|contradiction].
    destruct (cd_dkim_verified cd).
    + apply add_dkim_signature_run.
    + exists (msg c). destruct c. repeat split; reflexivity.
Qed.

(** [handle_reply] up to the sender check, for an envelope whose mapping
    and alias resolve. *)
Lemma handle_reply_resolved (envelope : Envelope) (r : string) (rest : list string)
    (c : Ctx) (forward_email : ForwardEmail) (gen_email : GenEmail) :
  rcpt_tos envelope = r :: rest ->
  Py.endswith (Py.lower r) (EMAIL_DOMAIN app) = true ->
  ForwardEmail_get_by_reply_email (db c) (Py.lower r) = Some forward_email ->
  GenEmail_get (db c) (fe_gen_email_id forward_email) = Some gen_email ->
  alias_domain_known app (db c) (ge_email gen_email) ->
  handle_reply app envelope c =
  if negb (String.eqb (Py.lower (mail_from envelope))
                      (Py.lower (mailbox_email_of gen_email)))
  then (notify_unauthorized_reply envelope gen_email (mailbox_email_of gen_email)
                                  (Py.lower r) ;;
        ret "550 ignored") c
  else reply_relay app envelope (ge_email gen_email)
                   (Py.slice_from (ge_email gen_email) (Py.find (ge_email gen_email) "@" + 1))
                   (Py.lower r) forward_email c.
Proof.
  intros Hr Hend Hfe Hge Hknown.
  unfold handle_reply, bind, get_db. rewrite (first_rcpt_cons _ _ _ _ Hr).
  cbv beta iota. rewrite Hend. change (negb true) with false. cbv beta iota. rewrite Hfe, Hge.
  assert (Hpass : negb (email_belongs_to_alias_domains app (ge_email gen_email))
                  && match CustomDomain_get_by_domain (db c)
                             (Py.slice_from (ge_email gen_email)
                                            (Py.find (ge_email gen_email) "@" + 1)) with
                     | Some _ => false
                     | None => true
                     end = false).
  { destruct Hknown as [Hb|Hcd].
    - rewrite Hb. reflexivity.
    - destruct (CustomDomain_get_by_domain (db c) _); [|contradiction].
      apply andb_false_r. }
  rewrite Hpass.
  now destruct (negb (String.eqb (Py.lower (mail_from envelope))
                                 (Py.lower (mailbox_email_of gen_email)))).
Qed.

(** C1: for a reply whose mapping and alias resolve, a sender that differs
    (after lower-casing) from the alias's mailbox, or from the user's email
    when the alias has no mailbox, gets "550 ignored"; the only change of
    state is two notifications, the first to the mailbox, the second to the
    sender: no header is touched and nothing is sent.  A sender that matches
    puts the run on the transform-and-transport path of lines 365-419: it
    never ends in "550 ignored" and notifies nobody, and for a message that
    has the From and To headers the transform replaces, the transformed and
    signed message goes to the transport, addressed from the alias to the
    correspondent, and the status is 250. *)
Theorem handle_reply_sender_check
    (envelope : Envelope) (r : string) (rest : list string) (c : Ctx)
    (forward_email : ForwardEmail) (gen_email : GenEmail) :
  rcpt_tos envelope = r :: rest ->
  Py.endswith (Py.lower r) (EMAIL_DOMAIN app) = true ->
  ForwardEmail_get_by_reply_email (db c) (Py.lower r) = Some forward_email ->
  GenEmail_get (db c) (fe_gen_email_id forward_email) = Some gen_email ->
  alias_domain_known app (db c) (ge_email gen_email) ->
  (Py.lower (mail_from envelope) <> Py.lower (mailbox_email_of gen_email) ->
   exists s1 p1 h1 s2 p2 h2,
     handle_reply app envelope c =
     (Ok "550 ignored",
      mkCtx (with_notifications
               (notifications (db c)
                ++ [SendEmail (mailbox_email_of gen_email) s1 p1 h1;
                    SendEmail (mail_from envelope) s2 p2 h2]) (db c))
            (msg c)))
  /\ (Py.lower (mail_from envelope) = Py.lower (mailbox_email_of gen_email) ->
      handle_reply app envelope c
      = reply_relay app envelope (ge_email gen_email)
                    (Py.slice_from (ge_email gen_email) (Py.find (ge_email gen_email) "@" + 1))
                    (Py.lower r) forward_email c
      /\ (forall res c', handle_reply app envelope c = (res, c') ->
            res <> Ok "550 ignored" /\ notifications (db c') = notifications (db c))
      /\ (msg_get (msg c) "From" <> None ->
          msg_get (msg c) "To" <> None ->
          exists m',
            (reply_transform app (ge_email gen_email) forward_email ;;
             reply_sign app (Py.slice_from (ge_email gen_email)
                                           (Py.find (ge_email gen_email) "@" + 1))) c
            = (Ok tt, mkCtx (db c) m')
            /\ handle_reply app envelope c =
               (Ok "250 Message accepted for delivery",
                mkCtx (replied envelope gen_email forward_email (as_string m') (db c)) m'))).
Proof.
  intros Hr Hend Hfe Hge Hknown.
  rewrite (handle_reply_resolved _ _ _ _ _ _ Hr Hend Hfe Hge Hknown).
  split.
  - intros Hne. apply String.eqb_neq in Hne. rewrite Hne. change (negb false) with true. cbv beta iota.
    unfold notify_unauthorized_reply, send_email, notify. run.
    do 6 eexists. rewrite <- app_assoc. reflexivity.
  - intros Heq. apply String.eqb_eq in Heq. rewrite Heq. change (negb true) with false. cbv beta iota.
    split; [reflexivity|]. split.
    + intros res c' E. split.
      * intros ->.
        pose proof (reply_relay_returns_250 _ _ _ _ _ _ _ _ E). discriminate.
      * pose proof (keeps_notifications_reply_relay envelope (ge_email gen_email)
                      (Py.slice_from (ge_email gen_email)
                                     (Py.find (ge_email gen_email) "@" + 1))
                      (Py.lower r) forward_email c) as K.
        rewrite E in K. exact K.
    + intros HF HT.
      destruct (reply_transform_run (ge_email gen_email) forward_email c HF HT)
        as (m1 & E1 & _ & _ & _).
      destruct (reply_sign_run (ge_email gen_email) (mkCtx (db c) m1) Hknown)
        as (m2 & E2 & _ & _).
      simpl in E2. exists m2. split.
      * unfold bind. rewrite E1. exact E2.
      * unfold reply_relay. unfold bind at 1. rewrite E1.
        unfold bind at 1. rewrite E2.
        unfold reply_send, sendmail, ForwardEmailLog_create, commit. run.
        reflexivity.
Qed.

(** C10: a run of [handle_reply] never raises the [AttributeError] of
    [custom_domain.dkim_verified] on an absent record, since the signing
    step is only reached after the check of lines 311-314, and where that
    check passed while the alias's domain is not in [ALIAS_DOMAINS], the
    second lookup of the custom domain returns a record. *)
Theorem handle_reply_signing_finds_custom_domain (envelope : Envelope) (c : Ctx) :
  fst (handle_reply app envelope c) <> Raised (Py.AttributeError "dkim_verified")
  /\ (forall alias,
        alias_domain_known app (db c) alias ->
        Py.in_list (Py.slice_from alias (Py.find alias "@" + 1)) (ALIAS_DOMAINS app) = false ->
        exists custom_domain,
          CustomDomain_get_by_domain (db c) (Py.slice_from alias (Py.find alias "@" + 1))
          = Some custom_domain).
Proof.
  split.
  - unfold handle_reply, first_rcpt.
    destruct (rcpt_tos envelope) as [|r rest]; [run; discriminate|].
    unfold bind at 1, ret.
    destruct (Py.endswith (Py.lower r) (EMAIL_DOMAIN app));
      [change (negb true) with false; cbv beta iota|run; discriminate].
    unfold bind at 1, get_db.
    destruct (ForwardEmail_get_by_reply_email (db c) (Py.lower r)) as [fe|];
      [|run; discriminate].
    destruct (GenEmail_get (db c) (fe_gen_email_id fe)) as [g|]; [|run; discriminate].
    set (alias := ge_email g).
    set (alias_domain := Py.slice_from alias (Py.find alias "@" + 1)).
    destruct (negb (email_belongs_to_alias_domains app alias)
              && match CustomDomain_get_by_domain (db c) alias_domain with
                 | Some _ => false
                 | None => true
                 end) eqn:Hcheck; [run; discriminate|].
    assert (Hknown : alias_domain_known app (db c) alias).
    { unfold alias_domain_known. fold alias_domain.
      destruct (email_belongs_to_alias_domains app alias); [now left|right].
      destruct (CustomDomain_get_by_domain (db c) alias_domain); [discriminate|].
      discriminate. }
    destruct (negb (String.eqb _ _)).
    + unfold notify_unauthorized_reply, send_email, notify. run. discriminate.
    + unfold reply_relay, bind at 1.
      pose proof (keeps_db_reply_transform (fun w => w) alias fe c) as Kdb.
      destruct (reply_transform app alias fe c) as [[[]|e] c1] eqn:E1; simpl in Kdb.
      * rewrite <- Kdb in Hknown.
        destruct (reply_sign_run alias c1 Hknown) as (m2 & E2 & _).
        fold alias_domain in E2. unfold bind at 1. rewrite E2.
        unfold reply_send, sendmail, ForwardEmailLog_create, commit. run. discriminate.
      * simpl. intros Hbad. injection Hbad as ->.
        exact (reply_transform_raises_KeyError _ _ _ _ _ E1).
  - intros alias Hknown Hnot.
    pose proof (custom_domain_found_when_signing _ _ Hknown Hnot) as H.
    destruct (CustomDomain_get_by_domain (db c) _) as [cd|]; [eauto|contradiction].
Qed.

(** ** The forward pipeline *)

Lemma resolve_alias_found (alias : string) (c : Ctx) (gen_email : GenEmail) :
  GenEmail_get_by_email (db c) alias = Some gen_email ->
  resolve_alias app alias c = (Ok (Some gen_email), c).
Proof.
  intros H. unfold resolve_alias. run. rewrite H. reflexivity.
Qed.

Lemma get_by_reply_email_none_unused (w : World) (reply_email : string) :
  ForwardEmail_get_by_reply_email w reply_email = None <->
  unused_reply_email w reply_email.
Proof.
  unfold ForwardEmail_get_by_reply_email, first_by, unused_reply_email. split.
  - intros H f Hin Heq.
    pose proof (find_none _ _ H f Hin) as Hf. simpl in Hf.
    rewrite Heq, String.eqb_refl in Hf. discriminate.
  - intros H. destruct (find _ (forward_emails w)) as [f|] eqn:E; [|reflexivity].
    apply find_some in E. destruct E as [Hin Heq].
    apply String.eqb_eq in Heq. elim (H f Hin Heq).
Qed.

Lemma generate_reply_email_step (n : nat) (prev : option string) (c : Ctx) :
  generate_reply_email app (S n) prev c =
  match ForwardEmail_get_by_reply_email
          (db c) (reply_email_sample app (random_calls (db c))) with
  | None => (Ok (Some (reply_email_sample app (random_calls (db c)))),
             mkCtx (with_random_calls (S (random_calls (db c))) (db c)) (msg c))
  | Some _ => generate_reply_email app n
                (Some (reply_email_sample app (random_calls (db c))))
                (mkCtx (with_random_calls (S (random_calls (db c))) (db c)) (msg c))
  end.
Proof.
  simpl. unfold next_random_string, bind, get_db, modify_db, ret. simpl.
  fold (reply_email_sample app (random_calls (db c))).
  change (ForwardEmail_get_by_reply_email
            (with_random_calls (S (random_calls (db c))) (db c))
            (reply_email_sample app (random_calls (db c))))
    with (ForwardEmail_get_by_reply_email
            (db c) (reply_email_sample app (random_calls (db c)))).
  now destruct (ForwardEmail_get_by_reply_email _ _).
Qed.

(** The loop of lines 227-230 with a bound of at least one: it draws
    [j + 1] samples, all but the last of them taken, and stops either at an
    unused one or at the bound. *)
Lemma generate_reply_email_run (n : nat) :
  forall (prev : option string) (c : Ctx),
    exists j,
      j < S n
      /\ (forall i, i < j ->
            ~ unused_reply_email (db c) (reply_email_sample app (random_calls (db c) + i)))
      /\ (unused_reply_email (db c) (reply_email_sample app (random_calls (db c) + j))
          \/ j = n)
      /\ generate_reply_email app (S n) prev c
         = (Ok (Some (reply_email_sample app (random_calls (db c) + j))),
            mkCtx (with_random_calls (random_calls (db c) + j + 1) (db c)) (msg c)).
Proof.
  induction n as [|n IH]; intros prev c; rewrite generate_reply_email_step;
    destruct (ForwardEmail_get_by_reply_email _ _) as [f|] eqn:E.
  - exists 0. rewrite !Nat.add_0_r, Nat.add_1_r.
    split; [lia|]. split; [intros i Hi; lia|]. split; [now right|reflexivity].
  - exists 0. rewrite !Nat.add_0_r, Nat.add_1_r.
    split; [lia|]. split; [intros i Hi; lia|]. split; [|reflexivity].
    left. apply get_by_reply_email_none_unused. exact E.
  - destruct (IH (Some (reply_email_sample app (random_calls (db c))))
                 (mkCtx (with_random_calls (S (random_calls (db c))) (db c)) (msg c)))
      as (j & Hj & Hbefore & Hlast & Hrun).
    change (db (mkCtx (with_random_calls (S (random_calls (db c))) (db c)) (msg c)))
      with (with_random_calls (S (random_calls (db c))) (db c)) in *.
    change (random_calls (with_random_calls (S (random_calls (db c))) (db c)))
      with (S (random_calls (db c))) in *.
    change (unused_reply_email (with_random_calls (S (random_calls (db c))) (db c)))
      with (unused_reply_email (db c)) in *.
    exists (S j). split; [lia|]. split; [|split].
    + intros i Hi. destruct i as [|i].
      * rewrite Nat.add_0_r. intros Hu.
        apply get_by_reply_email_none_unused in Hu. congruence.
      * replace (random_calls (db c) + S i) with (S (random_calls (db c)) + i) by lia.
        apply Hbefore. lia.
    + replace (random_calls (db c) + S j) with (S (random_calls (db c)) + j) by lia.
      destruct Hlast as [Hu| ->]; [left; exact Hu|now right].
    + rewrite Hrun.
      replace (random_calls (db c) + S j) with (S (random_calls (db c)) + j) by lia.
      reflexivity.
  - exists 0. rewrite !Nat.add_0_r, Nat.add_1_r.
    split; [lia|]. split; [intros i Hi; lia|]. split; [|reflexivity].
    left. apply get_by_reply_email_none_unused. exact E.
Qed.

Arguments generate_reply_email : simpl never.

(** Lines 209-238 always produce the mapping of the alias and the
    correspondent: an existing one has its [website_from] brought up to
    date and is otherwise left alone; a missing one is appended, with the
    reply address the loop chose. *)
Lemma get_or_create_forward_email_run (gen_email : GenEmail) (website_email : string)
    (c : Ctx) :
  exists forward_email c1,
    get_or_create_forward_email app gen_email website_email c = (Ok forward_email, c1)
    /\ msg c1 = msg c
    /\ same_but_mappings (db c) (db c1)
    /\ ForwardEmail_get_by (db c1) (ge_id gen_email) website_email = Some forward_email
    /\ match ForwardEmail_get_by (db c) (ge_id gen_email) website_email with
       | Some existing =>
           forward_email = website_from_set (msg_get (msg c) "From") existing
           /\ forward_emails (db c1)
              = update_first (for_pair (ge_id gen_email) website_email)
                             (website_from_set (msg_get (msg c) "From"))
                             (forward_emails (db c))
           /\ random_calls (db c1) = random_calls (db c)
       | None =>
           exists j,
             j < 1000
             /\ (forall i, i < j ->
                   ~ unused_reply_email
                       (db c) (reply_email_sample app (random_calls (db c) + i)))
             /\ (unused_reply_email
                   (db c) (reply_email_sample app (random_calls (db c) + j))
                 \/ j = 999)
             /\ forward_email
                = mkForwardEmail (next_id (map fe_id (forward_emails (db c))))
                                 (ge_id gen_email) website_email
                                 (msg_get (msg c) "From")
                                 (reply_email_sample app (random_calls (db c) + j))
             /\ forward_emails (db c1) = (forward_emails (db c) ++ [forward_email])%list
             /\ random_calls (db c1) = random_calls (db c) + j + 1
       end.
Proof.
  unfold get_or_create_forward_email, bind at 1, get_msg. cbv beta iota.
  unfold bind at 1, get_db. cbv beta iota.
  destruct (ForwardEmail_get_by (db c) (ge_id gen_email) website_email)
    as [existing|] eqn:Hget.
  - destruct (header_eqb (fe_website_from existing) (msg_get (msg c) "From")) eqn:Hsame.
    + apply header_eqb_eq in Hsame. simpl.
      exists existing, c. unfold ret. repeat split; try reflexivity.
      * exact Hget.
      * rewrite <- Hsame. symmetry. apply website_from_set_same.
      * symmetry. apply (update_first_fixed _ _ _ existing); [exact Hget|].
        rewrite <- Hsame. apply website_from_set_same.
    + simpl. unfold commit. run.
      eexists. eexists. split; [reflexivity|]. simpl.
      repeat split; try reflexivity.
      unfold ForwardEmail_get_by, first_by. simpl.
      apply find_update_first; [intros y; apply for_pair_website_from_set|exact Hget].
  - destruct (generate_reply_email_run 999 None c) as (j & Hj & Hbefore & Hlast & Hrun).
    unfold bind at 1. rewrite Hrun. cbv beta iota.
    unfold ForwardEmail_create, commit. run.
    eexists. eexists. split; [reflexivity|]. simpl.
    split; [reflexivity|]. split; [repeat split; reflexivity|]. split.
    + unfold ForwardEmail_get_by, first_by. simpl.
      apply find_app_new; [exact Hget|].
      unfold for_pair. simpl. now rewrite Nat.eqb_refl, String.eqb_refl.
    + exists j. repeat split; try assumption; reflexivity.
Qed.

Lemma handle_forward_resolved (envelope : Envelope) (r : string) (rest : list string)
    (c : Ctx) (gen_email : GenEmail) :
  rcpt_tos envelope = r :: rest ->
  GenEmail_get_by_email (db c) (Py.lower r) = Some gen_email ->
  handle_forward app envelope c = forward_relay app envelope gen_email c.
Proof.
  intros Hr Hge. unfold handle_forward, bind.
  rewrite (first_rcpt_cons _ _ _ _ Hr), (resolve_alias_found _ _ _ Hge). reflexivity.
Qed.

(** C4: a message for an existing alias that is disabled is answered 250;
    the run appends one log entry, for the mapping of the alias and the
    correspondent and with [blocked] set, leaves the older entries alone,
    makes no transport call, sends no notification and does not touch the
    message. *)
Theorem handle_forward_disabled_alias
    (envelope : Envelope) (r : string) (rest : list string) (c : Ctx)
    (gen_email : GenEmail) :
  rcpt_tos envelope = r :: rest ->
  GenEmail_get_by_email (db c) (Py.lower r) = Some gen_email ->
  ge_enabled gen_email = false ->
  exists forward_email c',
    handle_forward app envelope c = (Ok "250 Message accepted for delivery", c')
    /\ ForwardEmail_get_by (db c') (ge_id gen_email)
                           (get_email_part app (msg_get (msg c) "From"))
       = Some forward_email
    /\ forward_email_logs (db c')
       = (forward_email_logs (db c)
          ++ [mkForwardEmailLog (next_id (map fel_id (forward_email_logs (db c))))
                                (fe_id forward_email) false true])%list
    /\ outbox (db c') = outbox (db c)
    /\ notifications (db c') = notifications (db c)
    /\ msg c' = msg c.
Proof.
  intros Hr Hge Hoff.
  rewrite (handle_forward_resolved _ _ _ _ _ Hr Hge).
  unfold forward_relay, bind at 1, get_msg. cbv beta iota.
  destruct (get_or_create_forward_email_run
              gen_email (get_email_part app (msg_get (msg c) "From")) c)
    as (fe & c1 & Hrun & Hmsg & (_ & Hlogs & _ & _ & Hnotif & Hout) & Hget & _).
  unfold bind at 1. rewrite Hrun. cbv beta iota. unfold forward_deliver. rewrite Hoff.
  unfold ForwardEmailLog_create, commit. run.
  exists fe. eexists. split; [reflexivity|]. simpl.
  repeat split; try assumption.
  rewrite Hlogs. apply set_blocked_new.
Qed.

(** Lines 122-200 leave alone whatever does not depend on the aliases, the
    notifications and the count of commits. *)
Lemma keeps_db_resolve_alias {X : Type} (g : World -> X) (alias : string) :
  (forall l w, g (with_gen_emails l w) = g w) ->
  (forall l w, g (with_notifications l w) = g w) ->
  (forall n w, g (with_commits n w) = g w) ->
  keeps_db g (resolve_alias app alias).
Proof.
  intros H1 H2 H3.
  unfold resolve_alias, provision_directory_alias, provision_domain_alias,
    GenEmail_create, notify, commit.
  frame.
Qed.

Lemma keeps_msg_resolve_alias (alias : string) : keeps_msg (resolve_alias app alias).
Proof.
  unfold resolve_alias, provision_directory_alias, provision_domain_alias. frame.
Qed.

(** The header transform of a forward goes through on a message with a
    From header, and leaves that header with the rewritten value. *)
Lemma forward_transform_run (gen_email : GenEmail) (forward_email : ForwardEmail)
    (website_email : string) (c : Ctx) :
  msg_get (msg c) "From" <> None ->
  exists m', forward_transform app gen_email forward_email website_email c
             = (Ok tt, mkCtx (db c) m')
             /\ body m' = body (msg c)
             /\ msg_get m' "From"
                = Some (forward_from_header (get_email_name app (msg_get (msg c) "From"))
                                            website_email (fe_reply_email forward_email)).
Proof.
  intros HF. unfold forward_transform.
  destruct (add_or_replace_header_run "X-SimpleLogin-Type" "Forward" c)
    as (m1 & E1 & B1 & G1).
  unfold bind at 1. rewrite E1.
  destruct (delete_header_run "Reply-To" (mkCtx (db c) m1)) as (m2 & E2 & B2 & G2).
  unfold bind at 1. rewrite E2. simpl in *.
  unfold bind at 1, get_msg. cbv beta iota. simpl msg.
  assert (HF2 : msg_get m2 "From" = msg_get (msg c) "From").
  { rewrite G2, G1 by (vm_compute; discriminate). reflexivity. }
  rewrite HF2.
  destruct (replace_header_run "From"
              (forward_from_header (get_email_name app (msg_get (msg c) "From"))
                                   website_email (fe_reply_email forward_email))
              (mkCtx (db c) m2)) as (m3 & E3 & B3 & S3 & G3).
  { simpl. rewrite HF2. exact HF. }
  unfold bind at 1. rewrite E3. simpl in *.
  destruct (add_or_replace_header_run "List-Unsubscribe"
              (unsubscribe_header app (ge_id gen_email)) (mkCtx (db c) m3))
    as (m4 & E4 & B4 & G4).
  unfold bind at 1. rewrite E4. simpl in *.
  destruct (add_or_replace_header_run "List-Unsubscribe-Post" "List-Unsubscribe=One-Click"
              (mkCtx (db c) m4)) as (m5 & E5 & B5 & G5).
  unfold bind at 1. rewrite E5. simpl in *.
  destruct (add_dkim_signature_run app (EMAIL_DOMAIN app) (mkCtx (db c) m5))
    as (m6 & E6 & B6 & G6).
  rewrite E6. simpl in *.
  exists m6. split; [reflexivity|]. split; [congruence|].
  rewrite G6, G5, G4 by (vm_compute; discriminate). exact S3.
Qed.

Lemma forward_from_header_named (email_name website_email reply_email : string) :
  email_name <> "" ->
  forward_from_header email_name website_email reply_email
  = email_name ++ " - " ++ Py.replace website_email "@" " at " ++ " <" ++ reply_email ++ ">".
Proof.
  intros Hne. unfold forward_from_header.
  apply String.eqb_neq in Hne. rewrite Hne. reflexivity.
Qed.

Lemma forward_from_header_unnamed (website_email reply_email : string) :
  forward_from_header "" website_email reply_email
  = Py.replace website_email "@" " at " ++ " <" ++ reply_email ++ ">".
Proof. reflexivity. Qed.

(** C5 as amended: a message with a From header, for an enabled alias that
    exists or is created on the fly, goes to the transport with its From
    header rewritten.  With the header parsed to the display name N and the
    address C, and t the reply address of the mapping, the new value is
    [N - C' <t>] when N is not empty and [C' <t>] when it is, C' being C
    with every "@" replaced by " at ".  For N = Jane Doe,
    C = jane@biz.example and t = abcd1234@relay.example that is
    [Jane Doe - jane at biz.example <abcd1234@relay.example>]. *)
Theorem handle_forward_rewrites_from
    (envelope : Envelope) (r : string) (rest : list string) (c c0 : Ctx)
    (gen_email : GenEmail) (from_value N C : string) :
  rcpt_tos envelope = r :: rest ->
  resolve_alias app (Py.lower r) c = (Ok (Some gen_email), c0) ->
  ge_enabled gen_email = true ->
  msg_get (msg c) "From" = Some from_value ->
  get_email_name app (Some from_value) = N ->
  get_email_part app (Some from_value) = C ->
  (exists forward_email c',
     handle_forward app envelope c = (Ok "250 Message accepted for delivery", c')
     /\ ForwardEmail_get_by (db c') (ge_id gen_email) C = Some forward_email
     /\ msg_get (msg c') "From"
        = Some (forward_from_header N C (fe_reply_email forward_email))
     /\ outbox (db c')
        = (outbox (db c)
           ++ [mkSendmail (fe_reply_email forward_email) (mailbox_email_of gen_email)
                          (as_string (msg c')) (mail_options envelope)
                          (rcpt_options envelope)])%list)
  /\ (forall t,
        (N <> "" ->
         forward_from_header N C t
         = N ++ " - " ++ Py.replace C "@" " at " ++ " <" ++ t ++ ">")
        /\ (N = "" ->
            forward_from_header N C t = Py.replace C "@" " at " ++ " <" ++ t ++ ">"))
  /\ forward_from_header "Jane Doe" "jane@biz.example" "abcd1234@relay.example"
     = "Jane Doe - jane at biz.example <abcd1234@relay.example>".
Proof.
  intros Hr Hres Hon HF HN HC. split; [|split].
  - pose proof (keeps_db_resolve_alias outbox (Py.lower r)
                  (fun _ _ => eq_refl) (fun _ _ => eq_refl) (fun _ _ => eq_refl) c) as Kout.
    pose proof (keeps_msg_resolve_alias (Py.lower r) c) as Kmsg.
    rewrite Hres in Kout, Kmsg. simpl in Kout, Kmsg.
    unfold handle_forward, bind at 1. rewrite (first_rcpt_cons _ _ _ _ Hr).
    unfold bind at 1. rewrite Hres.
    unfold forward_relay, bind at 1, get_msg. cbv beta iota.
    rewrite Kmsg, HF, HC.
    destruct (get_or_create_forward_email_run gen_email C c0)
      as (fe & c1 & Hrun & Hmsg & (_ & _ & _ & _ & _ & Hout) & Hget & _).
    rewrite Kmsg in Hmsg. rewrite Kout in Hout.
    unfold bind at 1. rewrite Hrun. cbv beta iota. unfold forward_deliver. rewrite Hon.
    unfold bind at 1, ForwardEmailLog_create. run.
    set (c2 := mkCtx _ (msg c1)).
    destruct (forward_transform_run gen_email fe C c2) as (m' & Et & _ & Hfrom).
    { subst c2. simpl. rewrite Hmsg, HF. discriminate. }
    rewrite Et. unfold sendmail, commit. run.
    exists fe. eexists. split; [reflexivity|]. simpl.
    split; [exact Hget|]. split.
    + rewrite Hfrom. subst c2. simpl. rewrite Hmsg, HF, HN. reflexivity.
    + rewrite Hout. reflexivity.
  - intros t. split.
    + apply forward_from_header_named.
    + intros ->. apply forward_from_header_unnamed.
  - reflexivity.
Qed.

Lemma keeps_db_forward_transform {X : Type} (g : World -> X) (gen_email : GenEmail)
    (forward_email : ForwardEmail) (website_email : string) :
  keeps_db g (forward_transform app gen_email forward_email website_email).
Proof. unfold forward_transform. frame. Qed.

(** Lines 240-293 leave alone whatever does not depend on the log, the
    outbox and the count of commits. *)
Lemma keeps_db_forward_deliver {X : Type} (g : World -> X) (envelope : Envelope)
    (gen_email : GenEmail) (mailbox_email : string) (forward_email : ForwardEmail)
    (website_email : string) :
  (forall l w, g (with_forward_email_logs l w) = g w) ->
  (forall l w, g (with_outbox l w) = g w) ->
  (forall n w, g (with_commits n w) = g w) ->
  keeps_db g (forward_deliver app envelope gen_email mailbox_email forward_email
                              website_email).
Proof.
  intros H1 H2 H3.
  unfold forward_deliver, ForwardEmailLog_create, sendmail, commit.
  pose proof (keeps_db_forward_transform g gen_email forward_email website_email).
  frame.
Qed.

(** What a forward does to the table of mappings: nothing, or the
    [website_from] of the first mapping of one pair is set, or a mapping is
    appended for a pair that had none. *)
Lemma handle_forward_mappings (envelope : Envelope) (c : Ctx) :
  let l := forward_emails (db c) in
  let l' := forward_emails (db (snd (handle_forward app envelope c))) in
  l' = l
  \/ (exists g we v, l' = update_first (for_pair g we) (website_from_set v) l)
  \/ (exists f, find (for_pair (fe_gen_email_id f) (fe_website_email f)) l = None
                /\ l' = (l ++ [f])%list).
Proof.
  cbv zeta.
  remember (forward_emails (db (snd (handle_forward app envelope c)))) as l' eqn:Hl'.
  revert Hl'. unfold handle_forward, first_rcpt.
  destruct (rcpt_tos envelope) as [|r rest]; [intros ->; left; reflexivity|].
  unfold bind at 1, ret. cbv beta iota.
  pose proof (keeps_db_resolve_alias forward_emails (Py.lower r)
                (fun _ _ => eq_refl) (fun _ _ => eq_refl) (fun _ _ => eq_refl) c) as K0.
  unfold bind at 1.
  destruct (resolve_alias app (Py.lower r) c) as [[[g|]|e] c0]; simpl in K0;
    [|intros ->; left; exact K0|intros ->; left; exact K0].
  unfold forward_relay, bind at 1, get_msg. cbv beta iota.
  set (we := get_email_part app (msg_get (msg c0) "From")).
  destruct (get_or_create_forward_email_run g we c0)
    as (fe & c1 & Hrun & _ & _ & _ & Hcase).
  unfold bind at 1. rewrite Hrun. cbv beta iota.
  pose proof (keeps_db_forward_deliver forward_emails envelope g (mailbox_email_of g) fe we
                (fun _ _ => eq_refl) (fun _ _ => eq_refl) (fun _ _ => eq_refl) c1) as K1.
  rewrite K1, <- K0. intros ->.
  unfold ForwardEmail_get_by, first_by in Hcase.
  destruct (find (for_pair (ge_id g) we) (forward_emails (db c0))) as [existing|] eqn:Hfind.
  - destruct Hcase as (_ & Hl & _). right. left.
    exists (ge_id g), we, (msg_get (msg c0) "From"). exact Hl.
  - destruct Hcase as (j & _ & _ & _ & Hfe & Hl & _). right. right.
    exists fe. split; [|exact Hl]. rewrite Hfe. simpl. exact Hfind.
Qed.

Lemma forward_relay_after (envelope : Envelope) (gen_email : GenEmail) (c c1 : Ctx)
    (forward_email : ForwardEmail) :
  get_or_create_forward_email app gen_email (get_email_part app (msg_get (msg c) "From")) c
  = (Ok forward_email, c1) ->
  forward_relay app envelope gen_email c
  = forward_deliver app envelope gen_email (mailbox_email_of gen_email) forward_email
                    (get_email_part app (msg_get (msg c) "From")) c1.
Proof.
  intros H. unfold forward_relay, bind, get_msg. rewrite H. reflexivity.
Qed.

Lemma handle_forward_keeps_one_mapping (envelope : Envelope) (c : Ctx) :
  one_mapping_per_pair (db c) ->
  one_mapping_per_pair (db (snd (handle_forward app envelope c))).
Proof.
  intros Hinv g' we'. unfold mappings_of.
  specialize (Hinv g' we'). unfold mappings_of in Hinv.
  destruct (handle_forward_mappings envelope c) as [->|[(g & we & v & ->)|(f & Hnone & ->)]].
  - exact Hinv.
  - rewrite one_mapping_update. exact Hinv.
  - apply one_mapping_append; assumption.
Qed.

(** C3: two forwards from one correspondent to one existing alias, on a
    store with at most one mapping per pair, leave exactly one mapping for
    the pair.  The second forward finds the mapping the first one left,
    keeps its id and its reply address, and changes the table of mappings
    only by setting that mapping's [website_from] to the From header of the
    second message, which changes nothing when the two are equal.  And any
    forward whatever keeps the store at one mapping per pair at most. *)
Theorem handle_forward_twice_one_mapping
    (envelope1 envelope2 : Envelope) (r1 r2 : string) (rest1 rest2 : list string)
    (m1 m2 : Message) (w : World) (gen_email : GenEmail) (C : string) :
  rcpt_tos envelope1 = r1 :: rest1 ->
  rcpt_tos envelope2 = r2 :: rest2 ->
  Py.lower r2 = Py.lower r1 ->
  GenEmail_get_by_email w (Py.lower r1) = Some gen_email ->
  get_email_part app (msg_get m1 "From") = C ->
  get_email_part app (msg_get m2 "From") = C ->
  one_mapping_per_pair w ->
  let c1 := snd (handle_forward app envelope1 (mkCtx w m1)) in
  let c2 := snd (handle_forward app envelope2 (mkCtx (db c1) m2)) in
  (exists first second,
     ForwardEmail_get_by (db c1) (ge_id gen_email) C = Some first
     /\ ForwardEmail_get_by (db c2) (ge_id gen_email) C = Some second
     /\ mappings_of (db c2) (ge_id gen_email) C = [second]
     /\ fe_id second = fe_id first
     /\ fe_reply_email second = fe_reply_email first
     /\ fe_website_from second = msg_get m2 "From"
     /\ forward_emails (db c2)
        = update_first (for_pair (ge_id gen_email) C)
                       (website_from_set (msg_get m2 "From")) (forward_emails (db c1))
     /\ (fe_website_from first = msg_get m2 "From" ->
         forward_emails (db c2) = forward_emails (db c1)))
  /\ (forall envelope c,
        one_mapping_per_pair (db c) ->
        one_mapping_per_pair (db (snd (handle_forward app envelope c)))).
Proof.
  intros Hr1 Hr2 Hsame Hge HC1 HC2 Hinv c1 c2.
  split; [|intros envelope c; apply handle_forward_keeps_one_mapping].
  (* the first forward *)
  assert (Hinv1 : one_mapping_per_pair (db c1))
    by (apply handle_forward_keeps_one_mapping; exact Hinv).
  assert (Hinv2 : one_mapping_per_pair (db c2))
    by (apply handle_forward_keeps_one_mapping; exact Hinv1).
  destruct (get_or_create_forward_email_run gen_email C (mkCtx w m1))
    as (first & ca & Hrun1 & _ & (Hgen1 & _) & Hget1 & _).
  assert (E1 : c1 = snd (forward_deliver app envelope1 gen_email (mailbox_email_of gen_email)
                                         first C ca)).
  { unfold c1.
    rewrite (handle_forward_resolved envelope1 r1 rest1 (mkCtx w m1) gen_email Hr1 Hge).
    rewrite (forward_relay_after envelope1 gen_email (mkCtx w m1) ca first);
      simpl; rewrite HC1; [reflexivity|exact Hrun1]. }
  assert (Hfe1 : forward_emails (db c1) = forward_emails (db ca)).
  { rewrite E1. apply (keeps_db_forward_deliver forward_emails); reflexivity. }
  assert (Hge1 : gen_emails (db c1) = gen_emails w).
  { simpl in Hgen1. rewrite E1, <- Hgen1. apply (keeps_db_forward_deliver gen_emails); reflexivity. }
  assert (Hfound1 : ForwardEmail_get_by (db c1) (ge_id gen_email) C = Some first).
  { unfold ForwardEmail_get_by in *. rewrite Hfe1. exact Hget1. }
  assert (Halias1 : GenEmail_get_by_email (db c1) (Py.lower r2) = Some gen_email).
  { unfold GenEmail_get_by_email in *. rewrite Hge1, Hsame. exact Hge. }
  (* the second forward *)
  destruct (get_or_create_forward_email_run gen_email C (mkCtx (db c1) m2))
    as (second & cb & Hrun2 & _ & _ & Hget2 & Hcase).
  simpl in Hcase. rewrite Hfound1 in Hcase. destruct Hcase as (Hsecond & Hl2 & _).
  assert (E2 : c2 = snd (forward_deliver app envelope2 gen_email (mailbox_email_of gen_email)
                                         second C cb)).
  { unfold c2.
    rewrite (handle_forward_resolved envelope2 r2 rest2 (mkCtx (db c1) m2) gen_email Hr2 Halias1).
    rewrite (forward_relay_after envelope2 gen_email (mkCtx (db c1) m2) cb second);
      simpl; rewrite HC2; [reflexivity|exact Hrun2]. }
  assert (Hfe2 : forward_emails (db c2) = forward_emails (db cb)).
  { rewrite E2. apply (keeps_db_forward_deliver forward_emails); reflexivity. }
  assert (Hfound2 : ForwardEmail_get_by (db c2) (ge_id gen_email) C = Some second).
  { unfold ForwardEmail_get_by in *. rewrite Hfe2. exact Hget2. }
  exists first, second.
  split; [exact Hfound1|]. split; [exact Hfound2|]. split; [|split; [|split; [|split; [|split]]]].
  - specialize (Hinv2 (ge_id gen_email) C). unfold mappings_of in *.
    unfold ForwardEmail_get_by, first_by in Hfound2.
    pose proof (find_some_filter _ _ _ Hfound2) as Hge2.
    destruct (filter (for_pair (ge_id gen_email) C) (forward_emails (db c2)))
      as [|x [|y l]] eqn:Hf; simpl in *; try lia.
    assert (Hx : find (for_pair (ge_id gen_email) C) (forward_emails (db c2)) = Some x).
    { clear - Hf. induction (forward_emails (db c2)) as [|z zs IH]; simpl in *; [discriminate|].
      destruct (for_pair (ge_id gen_email) C z).
      - injection Hf as -> _. reflexivity.
      - exact (IH Hf). }
    congruence.
  - rewrite Hsecond. reflexivity.
  - rewrite Hsecond. reflexivity.
  - rewrite Hsecond. reflexivity.
  - rewrite Hfe2. exact Hl2.
  - intros Heq. rewrite Hfe2, Hl2.
    apply (update_first_fixed _ _ _ first).
    + exact Hfound1.
    + rewrite <- Heq. apply website_from_set_same.
Qed.

(** The statuses [handle_forward] returns: there is no temporary one. *)
Lemma handle_forward_statuses (envelope : Envelope) :
  returns_only (fun s => s = "510 Email not exist"
                         \/ s = "250 Message accepted for delivery")
               (handle_forward app envelope).
Proof.
  unfold handle_forward.
  apply returns_only_bind; intros alias.
  apply returns_only_bind; intros [gen_email|].
  - unfold forward_relay, forward_deliver.
    repeat (apply returns_only_bind; intros).
    apply returns_only_ret. now right.
  - apply returns_only_ret. now left.
Qed.

(** C7 as amended: when a forward needs a new mapping, the reply address
    comes from a loop of at most 1000 draws of the random source, each
    checked against all mappings; the loop stops at the first draw no
    mapping has, the mapping is appended with the address of the draw the
    loop stopped at, and when some draw within the bound is unused that
    address is one no mapping already has.  The handler has no temporary
    status: what it returns is 510 or 250. *)
Theorem handle_forward_new_mapping_token
    (envelope : Envelope) (r : string) (rest : list string) (c c0 : Ctx)
    (gen_email : GenEmail) :
  rcpt_tos envelope = r :: rest ->
  resolve_alias app (Py.lower r) c = (Ok (Some gen_email), c0) ->
  ForwardEmail_get_by (db c) (ge_id gen_email) (get_email_part app (msg_get (msg c) "From"))
  = None ->
  (let c' := snd (handle_forward app envelope c) in
   exists j,
     j < 1000
     /\ random_calls (db c') = random_calls (db c) + j + 1
     /\ (forall i, i < j ->
           ~ unused_reply_email (db c) (reply_email_sample app (random_calls (db c) + i)))
     /\ forward_emails (db c')
        = (forward_emails (db c)
           ++ [mkForwardEmail (next_id (map fe_id (forward_emails (db c))))
                              (ge_id gen_email)
                              (get_email_part app (msg_get (msg c) "From"))
                              (msg_get (msg c) "From")
                              (reply_email_sample app (random_calls (db c) + j))])%list
     /\ ((exists i, i < 1000
                    /\ unused_reply_email
                         (db c) (reply_email_sample app (random_calls (db c) + i))) ->
         unused_reply_email (db c) (reply_email_sample app (random_calls (db c) + j))))
  /\ returns_only (fun s => s = "510 Email not exist"
                            \/ s = "250 Message accepted for delivery")
                  (handle_forward app envelope).
Proof.
  intros Hr Hres Hnone. split; [|apply handle_forward_statuses]. intros c'.
  pose proof (keeps_db_resolve_alias forward_emails (Py.lower r)
                (fun _ _ => eq_refl) (fun _ _ => eq_refl) (fun _ _ => eq_refl) c) as Kfe.
  pose proof (keeps_db_resolve_alias random_calls (Py.lower r)
                (fun _ _ => eq_refl) (fun _ _ => eq_refl) (fun _ _ => eq_refl) c) as Krc.
  pose proof (keeps_msg_resolve_alias (Py.lower r) c) as Kmsg.
  rewrite Hres in Kfe, Krc, Kmsg. simpl in Kfe, Krc, Kmsg.
  set (we := get_email_part app (msg_get (msg c) "From")) in *.
  destruct (get_or_create_forward_email_run gen_email we c0)
    as (fe & c1 & Hrun & _ & _ & _ & Hcase).
  assert (Hnone0 : ForwardEmail_get_by (db c0) (ge_id gen_email) we = None).
  { unfold ForwardEmail_get_by in *. rewrite Kfe. exact Hnone. }
  rewrite Hnone0 in Hcase.
  destruct Hcase as (j & Hj & Hbefore & Hlast & Hfe & Hl & Hrand).
  assert (Hunused : forall s, unused_reply_email (db c0) s <-> unused_reply_email (db c) s).
  { intros s. unfold unused_reply_email. rewrite Kfe. reflexivity. }
  assert (E : c' = snd (forward_deliver app envelope gen_email (mailbox_email_of gen_email)
                                        fe we c1)).
  { unfold c', handle_forward, bind.
    rewrite (first_rcpt_cons _ _ _ _ Hr), Hres.
    fold (bind (A := ForwardEmail) (B := string)).
    change (snd (forward_relay app envelope gen_email c0)
            = snd (forward_deliver app envelope gen_email (mailbox_email_of gen_email)
                                   fe we c1)).
    rewrite (forward_relay_after envelope gen_email c0 c1 fe); rewrite Kmsg;
      [reflexivity|exact Hrun]. }
  assert (Hfe' : forward_emails (db c') = forward_emails (db c1)).
  { rewrite E. apply (keeps_db_forward_deliver forward_emails); reflexivity. }
  assert (Hrc' : random_calls (db c') = random_calls (db c1)).
  { rewrite E. apply (keeps_db_forward_deliver random_calls); reflexivity. }
  rewrite Krc, Kmsg in *.
  exists j. split; [exact Hj|]. split; [congruence|]. split; [|split].
  - intros i Hi Hu. apply (Hbefore i Hi). apply Hunused. exact Hu.
  - rewrite Hfe', Hl, Hfe, Kfe. reflexivity.
  - intros (i & Hi & Hu).
    destruct Hlast as [Hok| ->]; [apply Hunused; exact Hok|].
    assert (Hcase : i < 999 \/ i = 999) by lia.
    destruct Hcase as [Hlt| ->]; [|exact Hu].
    elim (Hbefore i Hlt). apply Hunused. exact Hu.
Qed.

End RelayFacts.

(** * The handlers at work on the concrete deployment *)

Example lower_mixed : Py.lower "Reply+AbC@SL.co" = "reply+abc@sl.co".
Proof. reflexivity. Qed.

Example endswith_domain : Py.endswith "reply+abc@sl.co" "sl.co" = true.
Proof. reflexivity. Qed.

Example find_missing : Py.find "shop" "@" = (-1)%Z.
Proof. reflexivity. Qed.

Example slice_domain :
  Py.slice_from "shop@relay.example" (Py.find "shop@relay.example" "@" + 1)
  = "relay.example".
Proof. reflexivity. Qed.

Example slice_without_at : Py.slice_from "shop" (Py.find "shop" "@" + 1) = "shop".
Proof. reflexivity. Qed.

Example slice_prefix :
  Py.slice_to "sales/x@sl.co" (Py.find "sales/x@sl.co" "/") = "sales".
Proof. reflexivity. Qed.

Example replace_every_at : Py.replace "a@b@c" "@" " at " = "a at b at c".
Proof. reflexivity. Qed.

Example replace_word :
  Py.replace "to ra+x@sl.co, ra+x@sl.co." "ra+x@sl.co" "a@sl.co" = "to a@sl.co, a@sl.co.".
Proof. reflexivity. Qed.

Example parse_jane :
  Demo.get_email_name (Some Demo.jane) = "Jane Doe"
  /\ Demo.get_email_part (Some Demo.jane) = "jane@biz.example".
Proof. split; reflexivity. Qed.

Example provision_directory_alias_run :
  fst (handle_DATA Demo.app Demo.fwd_sales Demo.world2)
  = Ok "250 Message accepted for delivery"
  /\ map (fun g => (ge_email g, ge_directory_id g))
         (gen_emails (db (snd (handle_DATA Demo.app Demo.fwd_sales Demo.world2))))
     = [("shop@relay.example", None); ("off@relay.example", None);
        ("sales/anything@relay.example", Some 1)]
  /\ gen_emails (db (snd (handle_DATA Demo.app Demo.fwd_sales
                            (db (snd (handle_DATA Demo.app Demo.fwd_sales Demo.world2))))))
     = gen_emails (db (snd (handle_DATA Demo.app Demo.fwd_sales Demo.world2))).
Proof. vm_compute. repeat split. Qed.

Example reply_without_to_raises :
  fst (handle_DATA Demo.app Demo.reply_without_to Demo.world0) = Raised (Py.KeyError "to")
  /\ outbox (db (snd (handle_DATA Demo.app Demo.reply_without_to Demo.world0))) = [].
Proof. vm_compute. repeat split. Qed.

Lemma world0_one_mapping_per_pair : one_mapping_per_pair Demo.world0.
Proof.
  intros g we. unfold mappings_of. simpl.
  destruct (for_pair g we Demo.boss_mapping); simpl; lia.
Qed.

(** C1, run: Eve's reply is refused with two notifications and nothing
    else; the owner's reply, sent from an address that differs in case
    only, goes out. *)
Lemma handle_reply_sender_check_witness :
  (exists s1 p1 h1 s2 p2 h2,
     handle_reply Demo.app Demo.reply_eve (parsed Demo.app Demo.reply_eve Demo.world0)
     = (Ok "550 ignored",
        mkCtx (with_notifications
                 [SendEmail "owner@home.example" s1 p1 h1;
                  SendEmail "eve@evil.example" s2 p2 h2] Demo.world0)
              (parsestr Demo.app (content Demo.reply_eve))))
  /\ (exists m',
        handle_reply Demo.app Demo.reply_owner (parsed Demo.app Demo.reply_owner Demo.world0)
        = (Ok "250 Message accepted for delivery",
           mkCtx (replied Demo.reply_owner Demo.shop Demo.boss_mapping (as_string m')
                          Demo.world0) m')).
Proof.
  split.
  - apply (handle_reply_sender_check Demo.app Demo.reply_eve "reply+aaaa@relay.example" []
             (parsed Demo.app Demo.reply_eve Demo.world0) Demo.boss_mapping Demo.shop);
      try reflexivity.
    + left. reflexivity.
    + vm_compute. discriminate.
  - destruct (handle_reply_sender_check Demo.app Demo.reply_owner "reply+aaaa@relay.example" []
                (parsed Demo.app Demo.reply_owner Demo.world0) Demo.boss_mapping Demo.shop
                eq_refl eq_refl eq_refl eq_refl (or_introl eq_refl)) as [_ Hmatch].
    destruct (Hmatch eq_refl) as (_ & _ & Hrun).
    destruct Hrun as (m' & _ & Hrun); [vm_compute; discriminate..|].
    exists m'. exact Hrun.
Defined.

(** C3, run: Jane writes twice to [shop]; one mapping results, with the
    reply address of the first forward. *)
Lemma handle_forward_twice_one_mapping_witness :
  exists second,
    mappings_of
      (db (snd (handle_forward Demo.app Demo.fwd_shop_again
                  (mkCtx (db (snd (handle_forward Demo.app Demo.fwd_shop
                                     (parsed Demo.app Demo.fwd_shop Demo.world0))))
                         (parsestr Demo.app (content Demo.fwd_shop_again))))))
      1 "jane@biz.example"
    = [second]
    /\ fe_reply_email second = "reply+tok0@relay.example".
Proof.
  destruct (handle_forward_twice_one_mapping Demo.app Demo.fwd_shop Demo.fwd_shop_again
              "shop@relay.example" "Shop@relay.example" [] []
              (parsestr Demo.app (content Demo.fwd_shop))
              (parsestr Demo.app (content Demo.fwd_shop_again))
              Demo.world0 Demo.shop "jane@biz.example"
              eq_refl eq_refl eq_refl eq_refl eq_refl eq_refl world0_one_mapping_per_pair)
    as [(first & second & Hfirst & _ & Hone & _ & Htoken & _) _].
  exists second. split; [exact Hone|].
  rewrite Htoken. vm_compute in Hfirst. injection Hfirst as <-. reflexivity.
Defined.

(** C4, run: Jane's message to the disabled alias is accepted, logged as
    blocked and goes nowhere. *)
Lemma handle_forward_disabled_alias_witness :
  exists forward_email c',
    handle_forward Demo.app Demo.fwd_off (parsed Demo.app Demo.fwd_off Demo.world0)
    = (Ok "250 Message accepted for delivery", c')
    /\ forward_email_logs (db c') = [mkForwardEmailLog 1 (fe_id forward_email) false true]
    /\ outbox (db c') = [].
Proof.
  destruct (handle_forward_disabled_alias Demo.app Demo.fwd_off "off@relay.example" []
              (parsed Demo.app Demo.fwd_off Demo.world0) Demo.off eq_refl eq_refl eq_refl)
    as (fe & c' & Hrun & _ & Hlog & Hout & _).
  exists fe, c'. split; [exact Hrun|]. split; [exact Hlog|exact Hout].
Defined.

(** C5, run: Jane's display name and address in the forwarded From header. *)
Lemma handle_forward_rewrites_from_witness :
  exists forward_email c',
    handle_forward Demo.app Demo.fwd_shop (parsed Demo.app Demo.fwd_shop Demo.world0)
    = (Ok "250 Message accepted for delivery", c')
    /\ msg_get (msg c') "From"
       = Some ("Jane Doe - jane at biz.example <" ++ fe_reply_email forward_email ++ ">").
Proof.
  destruct (handle_forward_rewrites_from Demo.app Demo.fwd_shop "shop@relay.example" []
              (parsed Demo.app Demo.fwd_shop Demo.world0)
              (parsed Demo.app Demo.fwd_shop Demo.world0) Demo.shop Demo.jane
              "Jane Doe" "jane@biz.example" eq_refl eq_refl eq_refl eq_refl eq_refl eq_refl)
    as [(fe & c' & Hrun & _ & Hfrom & _) _].
  exists fe, c'. split; [exact Hrun|exact Hfrom].
Defined.

(** C5, counterexample: a From header that is a bare address has the empty
    display name, and the rewritten header then has no [" - "] in front. *)
Lemma handle_forward_bare_address_from :
  Demo.get_email_name (Some "jane@biz.example") = ""
  /\ Demo.get_email_part (Some "jane@biz.example") = "jane@biz.example"
  /\ msg_get (msg (snd (handle_DATA Demo.app Demo.fwd_bare Demo.world0))) "From"
     = Some "jane at biz.example <reply+tok0@relay.example>"
  /\ "jane at biz.example <reply+tok0@relay.example>"
     <> "" ++ " - " ++ Py.replace "jane@biz.example" "@" " at "
           ++ " <" ++ "reply+tok0@relay.example" ++ ">".
Proof.
  repeat split; try reflexivity. vm_compute. discriminate.
Qed.



(** C7, run: the first draw is unused and becomes the reply address. *)
Lemma handle_forward_new_mapping_token_witness :
  exists j,
    j < 1000
    /\ random_calls (db (snd (handle_forward Demo.app Demo.fwd_shop
                                (parsed Demo.app Demo.fwd_shop Demo.world0))))
       = 0 + j + 1
    /\ unused_reply_email Demo.world0 (reply_email_sample Demo.app (0 + j)).
Proof.
  destruct (handle_forward_new_mapping_token Demo.app Demo.fwd_shop "shop@relay.example" []
              (parsed Demo.app Demo.fwd_shop Demo.world0)
              (parsed Demo.app Demo.fwd_shop Demo.world0) Demo.shop
              eq_refl eq_refl eq_refl)
    as [(j & Hj & Hrand & _ & _ & Hunused) _].
  exists j. split; [exact Hj|]. split; [exact Hrand|].
  apply Hunused. exists 0. split; [lia|].
  intros f Hin. simpl in Hin. destruct Hin as [<-|[]]. vm_compute. discriminate.
Defined.

(** C7, counterexample: a random source whose every draw is taken.  After
    1000 draws the mapping is created all the same, with a reply address
    another mapping has, and the message is accepted. *)
Lemma handle_forward_exhausted_duplicates_token :
  fst (handle_DATA Demo.stuck_app Demo.fwd_shop Demo.world0)
  = Ok "250 Message accepted for delivery"
  /\ map fe_reply_email
         (forward_emails (db (snd (handle_DATA Demo.stuck_app Demo.fwd_shop Demo.world0))))
     = ["reply+aaaa@relay.example"; "reply+aaaa@relay.example"]
  /\ random_calls (db (snd (handle_DATA Demo.stuck_app Demo.fwd_shop Demo.world0))) = 1000.
Proof.
  vm_compute. repeat split.
Qed.

(** C8, run: a [reply+] address and an [ra+] address both reach
    [handle_reply]; an alias address reaches [handle_forward]. *)
Lemma handle_DATA_routes_by_recipient_witness :
  handle_DATA Demo.app Demo.reply_owner Demo.world0
  = handle_reply Demo.app Demo.reply_owner (parsed Demo.app Demo.reply_owner Demo.world0)
  /\ handle_DATA Demo.app Demo.reply_me Demo.world1
     = handle_reply Demo.app Demo.reply_me (parsed Demo.app Demo.reply_me Demo.world1)
  /\ handle_DATA Demo.app Demo.fwd_shop Demo.world0
     = handle_forward Demo.app Demo.fwd_shop (parsed Demo.app Demo.fwd_shop Demo.world0).
Proof.
  split; [|split].
  - exact (proj1 (handle_DATA_routes_by_recipient Demo.app Demo.reply_owner
                    "reply+aaaa@relay.example" [] Demo.world0 eq_refl) eq_refl).
  - exact (proj1 (proj2 (handle_DATA_routes_by_recipient Demo.app Demo.reply_me
                           "ra+bbbb@relay.example" [] Demo.world1 eq_refl)) eq_refl).
  - exact (proj2 (proj2 (handle_DATA_routes_by_recipient Demo.app Demo.fwd_shop
                           "shop@relay.example" [] Demo.world0 eq_refl)) eq_refl eq_refl).
Defined.

(** C9, counterexample: an envelope with two recipients is accepted and
    handled exactly as the envelope with the first of them alone. *)
Lemma handle_DATA_second_recipient_ignored :
  length (rcpt_tos Demo.fwd_two) = 2
  /\ handle_DATA Demo.app Demo.fwd_two Demo.world0
     = handle_DATA Demo.app Demo.fwd_shop Demo.world0
  /\ fst (handle_DATA Demo.app Demo.fwd_two Demo.world0)
     = Ok "250 Message accepted for delivery".
Proof.
  vm_compute. repeat split.
Qed.

(** C9, run: the two-recipient envelope and its one-recipient cut. *)
Lemma handle_DATA_reads_first_recipient_only_witness :
  handle_DATA Demo.app Demo.fwd_two Demo.world0
  = handle_DATA Demo.app (with_rcpt_tos ["shop@relay.example"] Demo.fwd_two) Demo.world0.
Proof.
  exact (proj1 (handle_DATA_reads_first_recipient_only Demo.app Demo.fwd_two Demo.world0)
               "shop@relay.example" ["other@relay.example"] eq_refl).
Defined.

(** C10, run: a reply through an alias of a custom domain finds the
    domain's record when signing. *)
Lemma handle_reply_signing_finds_custom_domain_witness :
  fst (handle_reply Demo.app Demo.reply_me (parsed Demo.app Demo.reply_me Demo.world1))
  <> Raised (Py.AttributeError "dkim_verified")
  /\ exists custom_domain,
       CustomDomain_get_by_domain Demo.world1 "own.example" = Some custom_domain.
Proof.
  destruct (handle_reply_signing_finds_custom_domain Demo.app Demo.reply_me
              (parsed Demo.app Demo.reply_me Demo.world1)) as [Hno Hfound].
  split; [exact Hno|].
  apply (Hfound "me@own.example").
  - right. vm_compute. discriminate.
  - reflexivity.
Defined.

(** C2, at the failing input: the owner's reply quotes the reply address in
    its text; the bytes handed to [sendmail] still contain it, and differ
    from what the replacement would have made of them. *)
Theorem handle_reply_sends_reply_address_unreplaced :
  fst (handle_DATA Demo.app Demo.reply_owner Demo.world0)
  = Ok "250 Message accepted for delivery"
  /\ map (fun s => Py.contains (sm_msg s) "reply+aaaa@relay.example")
         (outbox (db (snd (handle_DATA Demo.app Demo.reply_owner Demo.world0))))
     = [true]
  /\ map (fun s => String.eqb (Py.replace (sm_msg s) "reply+aaaa@relay.example"
                                          "shop@relay.example")
                              (sm_msg s))
         (outbox (db (snd (handle_DATA Demo.app Demo.reply_owner Demo.world0))))
     = [false].
Proof.
  vm_compute. repeat split.
Qed.

(** * Further properties of the relay *)

Section RelayMore.

Variable app : App.

(** ** Provisioning on the fly (lines 122-200) *)

Lemma provision_directory_alias_unfold (alias : string) (c : Ctx) :
  provision_directory_alias app alias c =
  match directory_of app (db c) alias with
  | Some directory =>
      if can_create_new_alias (dir_user directory) then
        let g := new_alias (db c) alias (dir_user directory)
                           (Some (dir_id directory)) None false in
        (Ok (Some g), mkCtx (alias_created g (db c)) (msg c))
      else
        (Ok None, mkCtx (with_notifications
                           (notifications (db c) ++ directory_denial app (db c) alias)
                           (db c)) (msg c))
  | None => (Ok None, c)
  end.
Proof.
  unfold provision_directory_alias, directory_denial, directory_of, directory_name_of.
  destruct (email_belongs_to_alias_domains app alias); [|reflexivity].
  destruct (Py.contains alias "/" || Py.contains alias "+" || Py.contains alias "#");
    [|reflexivity].
  cbv zeta. unfold bind at 1, get_db. cbv beta iota.
  destruct (Directory_get_by_name (db c) _) as [d|]; [|reflexivity].
  destruct (can_create_new_alias (dir_user d)); reflexivity.
Qed.

Lemma provision_domain_alias_unfold (alias : string) (c : Ctx) :
  provision_domain_alias alias c =
  match catch_all_of (db c) alias with
  | Some custom_domain =>
      if can_create_new_alias (cd_user custom_domain) then
        let g := new_alias (db c) alias (cd_user custom_domain) None
                           (Some (cd_id custom_domain)) true in
        (Ok (Some g), mkCtx (alias_created g (db c)) (msg c))
      else
        (Ok None, mkCtx (with_notifications
                           (notifications (db c) ++ domain_denial (db c) alias)
                           (db c)) (msg c))
  | None => (Ok None, c)
  end.
Proof.
  unfold provision_domain_alias, domain_denial, catch_all_of.
  cbv zeta. unfold bind at 1, get_db. cbv beta iota.
  destruct (CustomDomain_get_by_domain (db c) _) as [d|]; [|reflexivity].
  destruct (cd_catch_all d); [|reflexivity].
  destruct (can_create_new_alias (cd_user d)); reflexivity.
Qed.

Lemma notified_nil (w : World) : notified [] w = w.
Proof. unfold notified, with_notifications. rewrite app_nil_r. now destruct w. Qed.

Lemma notified_app (ns ns' : list Notification) (w : World) :
  notified ns' (notified ns w) = notified (ns ++ ns') w.
Proof. unfold notified, with_notifications. simpl. now rewrite app_assoc. Qed.

Lemma ctx_eta (c : Ctx) : mkCtx (db c) (msg c) = c.
Proof. now destruct c. Qed.

(** Lines 122-200 as one case distinction: the alias is found, or a
    directory provides it, or a catch-all domain does, or nobody does; the
    owners who were asked and may not create aliases are notified. *)
Lemma resolve_alias_unfold (alias : string) (c : Ctx) :
  resolve_alias app alias c =
  match GenEmail_get_by_email (db c) alias with
  | Some gen_email => (Ok (Some gen_email), c)
  | None =>
      match directory_provides app (db c) alias with
      | Some directory =>
          let g := new_alias (db c) alias (dir_user directory)
                             (Some (dir_id directory)) None false in
          (Ok (Some g), mkCtx (alias_created g (db c)) (msg c))
      | None =>
          let w1 := notified (directory_denial app (db c) alias) (db c) in
          match domain_provides (db c) alias with
          | Some custom_domain =>
              let g := new_alias (db c) alias (cd_user custom_domain) None
                                 (Some (cd_id custom_domain)) true in
              (Ok (Some g), mkCtx (alias_created g w1) (msg c))
          | None =>
              (Ok None, mkCtx (notified (directory_denial app (db c) alias
                                         ++ domain_denial (db c) alias) (db c)) (msg c))
          end
      end
  end.
Proof.
  unfold resolve_alias, bind at 1, get_db. cbv beta iota.
  destruct (GenEmail_get_by_email (db c) alias) as [g|]; [reflexivity|].
  unfold bind at 1. rewrite provision_directory_alias_unfold.
  unfold directory_provides, directory_denial.
  destruct (directory_of app (db c) alias) as [d|] eqn:Hd.
  - destruct (can_create_new_alias (dir_user d)) eqn:Hcan; [reflexivity|].
    cbv beta iota zeta. rewrite provision_domain_alias_unfold.
    unfold domain_provides, domain_denial. simpl db. simpl msg.
    assert (Hname : exists n, directory_name_of alias = Some n).
    { unfold directory_of in Hd.
      destruct (email_belongs_to_alias_domains app alias); [|discriminate].
      destruct (directory_name_of alias) as [n|]; [eauto|discriminate]. }
    destruct Hname as [n Hn]. rewrite Hn.
    change (catch_all_of (with_notifications
                            (notifications (db c)
                             ++ [CannotCreateDirectoryAlias (dir_user d) alias n]) (db c))
                         alias) with (catch_all_of (db c) alias).
    destruct (catch_all_of (db c) alias) as [cd|]; [|].
    + destruct (can_create_new_alias (cd_user cd)); [reflexivity|].
      fold (notified [CannotCreateDirectoryAlias (dir_user d) alias n] (db c)).
      fold (notified [CannotCreateDomainAlias (cd_user cd) alias (get_email_domain_part alias)]
                     (notified [CannotCreateDirectoryAlias (dir_user d) alias n] (db c))).
      rewrite notified_app. reflexivity.
    + rewrite app_nil_r. reflexivity.
  - cbv beta iota zeta. rewrite provision_domain_alias_unfold.
    unfold domain_provides, domain_denial.
    cbv iota. rewrite notified_nil.
    destruct (catch_all_of (db c) alias) as [cd|].
    + destruct (can_create_new_alias (cd_user cd)); [reflexivity|]. reflexivity.
    + simpl. rewrite notified_nil, ctx_eta. reflexivity.
Qed.

Lemma handle_forward_after_resolve (envelope : Envelope) (r : string) (rest : list string)
    (c : Ctx) :
  rcpt_tos envelope = r :: rest ->
  handle_forward app envelope c =
  match resolve_alias app (Py.lower r) c with
  | (Ok (Some gen_email), c0) => forward_relay app envelope gen_email c0
  | (Ok None, c0) => (Ok "510 Email not exist", c0)
  | (Raised e, c0) => (Raised e, c0)
  end.
Proof.
  intros Hr. unfold handle_forward, bind. rewrite (first_rcpt_cons _ _ _ _ Hr).
  destruct (resolve_alias app (Py.lower r) c) as [[[g|]|e] c0]; reflexivity.
Qed.

(** Lines 202-293 write mappings and log entries and call the transport;
    they leave the aliases, the directories, the custom domains and the
    notifications alone. *)
Lemma forward_relay_frame (envelope : Envelope) (gen_email : GenEmail) (c : Ctx) :
  let w' := db (snd (forward_relay app envelope gen_email c)) in
  gen_emails w' = gen_emails (db c)
  /\ directories w' = directories (db c)
  /\ custom_domains w' = custom_domains (db c)
  /\ notifications w' = notifications (db c).
Proof.
  destruct (get_or_create_forward_email_run
              app gen_email (get_email_part app (msg_get (msg c) "From")) c)
    as (fe & c1 & Hrun & _ & (H1 & _ & H3 & H4 & H5 & _) & _).
  cbv zeta. rewrite (forward_relay_after app envelope gen_email c c1 fe Hrun).
  rewrite <- H1, <- H3, <- H4, <- H5.
  repeat split; apply keeps_db_forward_deliver; reflexivity.
Qed.

(** X1: a message for an address that is no alias and that nobody provides
    (no directory and no catch-all domain stands behind it, or their owners
    may not create aliases) is answered "510 Email not exist"; the only
    change of state is one notification to each owner who was asked and
    refused, the directory's first; with nobody to ask the state is left
    as it was. *)
Theorem handle_forward_unprovisioned_510
    (envelope : Envelope) (r : string) (rest : list string) (c : Ctx) :
  rcpt_tos envelope = r :: rest ->
  GenEmail_get_by_email (db c) (Py.lower r) = None ->
  directory_provides app (db c) (Py.lower r) = None ->
  domain_provides (db c) (Py.lower r) = None ->
  handle_forward app envelope c
  = (Ok "510 Email not exist",
     mkCtx (notified (directory_denial app (db c) (Py.lower r)
                      ++ domain_denial (db c) (Py.lower r)) (db c)) (msg c))
  /\ (directory_of app (db c) (Py.lower r) = None ->
      catch_all_of (db c) (Py.lower r) = None ->
      handle_forward app envelope c = (Ok "510 Email not exist", c)).
Proof.
  intros Hr Hnone Hdir Hdom.
  rewrite (handle_forward_after_resolve _ _ _ _ Hr), resolve_alias_unfold.
  rewrite Hnone, Hdir. cbv zeta. rewrite Hdom. split; [reflexivity|].
  intros Hd Hc. unfold directory_denial, domain_denial. rewrite Hd, Hc.
  cbv iota. simpl List.app. rewrite notified_nil, ctx_eta. reflexivity.
Qed.

(** X2: a message for an address that is no alias yet, behind which stands a
    directory whose owner may create aliases, has the alias created: one
    row, with the address, the directory's owner and the directory's id,
    not marked as created automatically, whether or not a catch-all domain
    would provide it too; nobody is notified, and the message goes on to
    lines 202-293 with that alias. *)
Theorem handle_forward_directory_alias
    (envelope : Envelope) (r : string) (rest : list string) (c : Ctx)
    (directory : Directory) :
  rcpt_tos envelope = r :: rest ->
  GenEmail_get_by_email (db c) (Py.lower r) = None ->
  directory_provides app (db c) (Py.lower r) = Some directory ->
  let g := new_alias (db c) (Py.lower r) (dir_user directory)
                     (Some (dir_id directory)) None false in
  let c' := snd (handle_forward app envelope c) in
  handle_forward app envelope c
  = forward_relay app envelope g (mkCtx (alias_created g (db c)) (msg c))
  /\ gen_emails (db c') = (gen_emails (db c) ++ [g])%list
  /\ notifications (db c') = notifications (db c)
  /\ GenEmail_get_by_email (db c') (Py.lower r) = Some g.
Proof.
  intros Hr Hnone Hdir g c'.
  assert (E : handle_forward app envelope c
              = forward_relay app envelope g (mkCtx (alias_created g (db c)) (msg c))).
  { rewrite (handle_forward_after_resolve _ _ _ _ Hr), resolve_alias_unfold.
    rewrite Hnone, Hdir. reflexivity. }
  split; [exact E|].
  destruct (forward_relay_frame envelope g (mkCtx (alias_created g (db c)) (msg c)))
    as (Hg & _ & _ & Hn).
  unfold c'. rewrite E. split; [exact Hg|]. split; [exact Hn|].
  unfold GenEmail_get_by_email, first_by in *. rewrite Hg. simpl.
  apply find_app_new; [exact Hnone|]. simpl. apply String.eqb_refl.
Qed.

(** X3: a message for an address that is no alias yet and that no directory
    provides, behind whose domain stands a catch-all custom domain whose
    owner may create aliases, has the alias created: one row, with the
    address, the domain's owner and the domain's id, marked as created
    automatically; a directory owner who was asked and refused is notified. *)
Theorem handle_forward_catch_all_alias
    (envelope : Envelope) (r : string) (rest : list string) (c : Ctx)
    (custom_domain : CustomDomain) :
  rcpt_tos envelope = r :: rest ->
  GenEmail_get_by_email (db c) (Py.lower r) = None ->
  directory_provides app (db c) (Py.lower r) = None ->
  domain_provides (db c) (Py.lower r) = Some custom_domain ->
  let g := new_alias (db c) (Py.lower r) (cd_user custom_domain) None
                     (Some (cd_id custom_domain)) true in
  let c' := snd (handle_forward app envelope c) in
  gen_emails (db c') = (gen_emails (db c) ++ [g])%list
  /\ notifications (db c')
     = (notifications (db c) ++ directory_denial app (db c) (Py.lower r))%list
  /\ GenEmail_get_by_email (db c') (Py.lower r) = Some g.
Proof.
  intros Hr Hnone Hdir Hdom g c'.
  assert (E : handle_forward app envelope c
              = forward_relay app envelope g
                  (mkCtx (alias_created g (notified (directory_denial app (db c) (Py.lower r))
                                                    (db c))) (msg c))).
  { rewrite (handle_forward_after_resolve _ _ _ _ Hr), resolve_alias_unfold.
    rewrite Hnone, Hdir. cbv zeta. rewrite Hdom. reflexivity. }
  destruct (forward_relay_frame envelope g
              (mkCtx (alias_created g (notified (directory_denial app (db c) (Py.lower r))
                                                (db c))) (msg c)))
    as (Hg & _ & _ & Hn).
  unfold c'. rewrite E. split; [exact Hg|]. split; [exact Hn|].
  unfold GenEmail_get_by_email, first_by in *. rewrite Hg. simpl.
  apply find_app_new; [exact Hnone|]. simpl. apply String.eqb_refl.
Qed.

(** ** What a run does to the log and to the transport *)

Lemma raises_only_add_dkim_signature (P : Py.exn -> Prop) (d : string) :
  raises_only P (add_dkim_signature app d).
Proof. intros c e c' E. unfold add_dkim_signature in E. run. discriminate. Qed.

Lemma raises_only_get_msg (P : Py.exn -> Prop) : raises_only P get_msg.
Proof. intros c e c' E. unfold get_msg in E. discriminate. Qed.

Lemma forward_transform_raises_KeyError (gen_email : GenEmail)
    (forward_email : ForwardEmail) (website_email : string) :
  raises_only is_KeyError (forward_transform app gen_email forward_email website_email).
Proof.
  unfold forward_transform.
  repeat first [ apply raises_only_delete_header
               | apply raises_only_add_or_replace_header
               | apply raises_only_replace_header
               | apply raises_only_add_dkim_signature
               | apply raises_only_get_msg
               | apply raises_only_bind; [|intros] ].
Qed.

(** Lines 240-293: the log gets one entry, blocked exactly when the alias
    is disabled; the transport is called once, on the way to 250, for an
    enabled alias, and not at all otherwise. *)
Lemma forward_deliver_outcome (envelope : Envelope) (gen_email : GenEmail)
    (mailbox_email : string) (forward_email : ForwardEmail) (website_email : string)
    (c : Ctx) :
  let out := forward_deliver app envelope gen_email mailbox_email forward_email
                             website_email c in
  forward_email_logs (db (snd out))
  = (forward_email_logs (db c)
     ++ [mkForwardEmailLog (next_id (map fel_id (forward_email_logs (db c))))
                           (fe_id forward_email) false (negb (ge_enabled gen_email))])%list
  /\ ((fst out = Ok "250 Message accepted for delivery"
       /\ ge_enabled gen_email = true
       /\ outbox (db (snd out))
          = (outbox (db c)
             ++ [mkSendmail (fe_reply_email forward_email) mailbox_email
                            (as_string (msg (snd out))) (mail_options envelope)
                            (rcpt_options envelope)])%list)
      \/ (fst out = Ok "250 Message accepted for delivery"
          /\ ge_enabled gen_email = false
          /\ outbox (db (snd out)) = outbox (db c)
          /\ msg (snd out) = msg c)
      \/ (exists k, fst out = Raised (Py.KeyError k)
                    /\ ge_enabled gen_email = true
                    /\ outbox (db (snd out)) = outbox (db c))).
Proof.
  cbv zeta.
  destruct (forward_deliver app envelope gen_email mailbox_email forward_email
                            website_email c) as [res c'] eqn:E.
  unfold forward_deliver, ForwardEmailLog_create, sendmail, commit, bind, get_db, get_msg,
    modify_db, ret in E.
  simpl in E.
  destruct (ge_enabled gen_email) eqn:Hen.
  - match type of E with
    | context [forward_transform app gen_email forward_email website_email ?c1] =>
        pose proof (keeps_db_forward_transform app (fun w => w) gen_email forward_email
                      website_email c1) as Kdb;
        destruct (forward_transform app gen_email forward_email website_email c1)
          as [[[]|e] c2] eqn:Et
    end; simpl in Kdb; injection E as <- <-; simpl; rewrite Kdb; simpl.
    + split; [reflexivity|]. left. repeat split; reflexivity.
    + split; [reflexivity|]. right. right.
      pose proof (forward_transform_raises_KeyError _ _ _ _ _ _ Et) as Hk.
      destruct e; try contradiction. exists key. repeat split; reflexivity.
  - injection E as <- <-. simpl.
    split; [apply set_blocked_new|]. right. left. repeat split; reflexivity.
Qed.

(** Lines 365-419: either the reply is sent and logged on the way to 250,
    or an exception ends the run with the world as it was. *)
Lemma reply_relay_outcome (envelope : Envelope) (alias alias_domain reply_email : string)
    (forward_email : ForwardEmail) (c : Ctx) :
  let out := reply_relay app envelope alias alias_domain reply_email forward_email c in
  (fst out = Ok "250 Message accepted for delivery"
   /\ outbox (db (snd out))
      = (outbox (db c)
         ++ [mkSendmail alias (fe_website_email forward_email) (as_string (msg (snd out)))
                        (mail_options envelope) (rcpt_options envelope)])%list
   /\ forward_email_logs (db (snd out))
      = (forward_email_logs (db c)
         ++ [mkForwardEmailLog (next_id (map fel_id (forward_email_logs (db c))))
                               (fe_id forward_email) true false])%list
   /\ notifications (db (snd out)) = notifications (db c))
  \/ ((exists e, fst out = Raised e) /\ db (snd out) = db c).
Proof.
  cbv zeta.
  destruct (reply_relay app envelope alias alias_domain reply_email forward_email c)
    as [res c'] eqn:E.
  unfold reply_relay, bind at 1 in E.
  pose proof (keeps_db_reply_transform app (fun w => w) alias forward_email c) as K1.
  destruct (reply_transform app alias forward_email c) as [[[]|e] c1]; simpl in K1;
    [|injection E as <- <-; right; simpl; eauto].
  unfold bind at 1 in E.
  pose proof (keeps_db_reply_sign app (fun w => w) alias_domain c1) as K2.
  destruct (reply_sign app alias_domain c1) as [[[]|e] c2]; simpl in K2;
    [|injection E as <- <-; right; simpl; split; [eauto|congruence]].
  unfold reply_send, sendmail, ForwardEmailLog_create, commit, bind, get_msg, get_db,
    modify_db, ret in E.
  simpl in E. injection E as <- <-. left. simpl. rewrite K2, K1.
  repeat split; reflexivity.
Qed.

(** Closes a branch where the handler left before touching the state. *)
Ltac early_exit :=
  run; intros E; injection E as <- <-; left; simpl; repeat split;
  solve [reflexivity | discriminate | assumption].

(** [handle_reply] ends in one of three ways: before lines 365-419 with
    the state as it was, with "550 ignored" and two notifications, or as
    lines 365-419 do. *)
Lemma handle_reply_outcome (envelope : Envelope) (c : Ctx) :
  let out := handle_reply app envelope c in
  (snd out = c /\ fst out <> Ok "250 Message accepted for delivery")
  \/ (exists n1 n2,
        out = (Ok "550 ignored", mkCtx (notified [n1; n2] (db c)) (msg c)))
  \/ (exists alias alias_domain reply_email forward_email,
        out = reply_relay app envelope alias alias_domain reply_email forward_email c).
Proof.
  cbv zeta. destruct (handle_reply app envelope c) as [res c'] eqn:E. revert E.
  unfold handle_reply, first_rcpt.
  destruct (rcpt_tos envelope) as [|r rest]; [early_exit|].
  unfold bind at 1, ret.
  destruct (Py.endswith (Py.lower r) (EMAIL_DOMAIN app));
    [change (negb true) with false; cbv beta iota|early_exit].
  unfold bind at 1, get_db.
  destruct (ForwardEmail_get_by_reply_email (db c) (Py.lower r)) as [fe|]; [|early_exit].
  destruct (GenEmail_get (db c) (fe_gen_email_id fe)) as [g|]; [|early_exit].
  destruct (negb (email_belongs_to_alias_domains app (ge_email g)) && _); [early_exit|].
  destruct (negb (String.eqb _ _)).
  - unfold notify_unauthorized_reply, send_email, notify, notified. run.
    intros E. injection E as <- <-. right. left.
    do 2 eexists. rewrite <- app_assoc. reflexivity.
  - intros E. right. right. do 4 eexists. symmetry. exact E.
Qed.

Lemma keeps_db_get_or_create_forward_email {X : Type} (g : World -> X)
    (gen_email : GenEmail) (website_email : string) :
  (forall w w', same_but_mappings w w' -> g w' = g w) ->
  keeps_db g (get_or_create_forward_email app gen_email website_email).
Proof.
  intros Hg c.
  destruct (get_or_create_forward_email_run app gen_email website_email c)
    as (fe & c1 & Hrun & _ & Hsame & _).
  rewrite Hrun. simpl. apply Hg. exact Hsame.
Qed.

(** [handle_forward] up to the call of lines 240-293, with what the steps
    before it left of the log, the outbox, the directories and the custom
    domains. *)
Lemma handle_forward_outcome (envelope : Envelope) (c : Ctx) :
  let out := handle_forward app envelope c in
  (fst out <> Ok "250 Message accepted for delivery"
   /\ forward_email_logs (db (snd out)) = forward_email_logs (db c)
   /\ outbox (db (snd out)) = outbox (db c))
  \/ (exists gen_email mailbox_email forward_email website_email c1,
        out = forward_deliver app envelope gen_email mailbox_email forward_email
                              website_email c1
        /\ forward_email_logs (db c1) = forward_email_logs (db c)
        /\ outbox (db c1) = outbox (db c)).
Proof.
  cbv zeta. destruct (handle_forward app envelope c) as [res c'] eqn:E. revert E.
  unfold handle_forward, first_rcpt.
  destruct (rcpt_tos envelope) as [|r rest]; [early_exit|].
  unfold bind at 1, ret. cbv beta iota.
  pose proof (keeps_db_resolve_alias app forward_email_logs (Py.lower r)
                (fun _ _ => eq_refl) (fun _ _ => eq_refl) (fun _ _ => eq_refl) c) as Kl.
  pose proof (keeps_db_resolve_alias app outbox (Py.lower r)
                (fun _ _ => eq_refl) (fun _ _ => eq_refl) (fun _ _ => eq_refl) c) as Ko.
  unfold bind at 1.
  destruct (resolve_alias app (Py.lower r) c) as [[[g|]|e] c0]; simpl in Kl, Ko;
    [|early_exit|early_exit].
  intros E. rewrite <- E. right.
  destruct (get_or_create_forward_email_run
              app g (get_email_part app (msg_get (msg c0) "From")) c0)
    as (fe & c1 & Hrun & _ & (_ & Hlogs & _ & _ & _ & Hout) & _).
  exists g, (mailbox_email_of g), fe, (get_email_part app (msg_get (msg c0) "From")), c1.
  split; [exact (forward_relay_after app envelope g c0 c1 fe Hrun)|].
  split; congruence.
Qed.

Lemma handle_DATA_pipeline (envelope : Envelope) (w : World) :
  handle_DATA app envelope w = handle_reply app envelope (parsed app envelope w)
  \/ handle_DATA app envelope w = handle_forward app envelope (parsed app envelope w).
Proof.
  destruct (rcpt_tos envelope) as [|r rest] eqn:Hr.
  - left. unfold handle_DATA, handle_reply, parsed, bind.
    rewrite !(first_rcpt_nil _ _ Hr). reflexivity.
  - rewrite (handle_DATA_unfold app _ _ _ _ Hr).
    destruct (_ || _); [now left|now right].
Qed.

Lemma keeps_db_reply_relay {X : Type} (g : World -> X) (envelope : Envelope)
    (alias alias_domain reply_email : string) (forward_email : ForwardEmail) :
  (forall l w, g (with_forward_email_logs l w) = g w) ->
  (forall l w, g (with_outbox l w) = g w) ->
  (forall n w, g (with_commits n w) = g w) ->
  keeps_db g (reply_relay app envelope alias alias_domain reply_email forward_email).
Proof.
  intros H1 H2 H3.
  unfold reply_relay, reply_send, sendmail, ForwardEmailLog_create, commit.
  pose proof (keeps_db_reply_transform app g).
  pose proof (keeps_db_reply_sign app g).
  frame.
Qed.

(** X4: one envelope, at most one transport call, and none before an
    answer other than 250: whatever the envelope and the state, a run of
    [handle_DATA] either leaves the outbox as it was or appends exactly one
    message to it, and a run that returns a status other than "250 Message
    accepted for delivery" has left the outbox as it was.  Both transport
    calls are the last thing before the log entry and the commit; a
    transport or a commit that fails is not part of the model, and nothing
    is said about such a run. *)
Theorem handle_DATA_sends_at_most_once (envelope : Envelope) (w : World) :
  let out := handle_DATA app envelope w in
  (outbox (db (snd out)) = outbox w
   \/ exists s, outbox (db (snd out)) = (outbox w ++ [s])%list)
  /\ (forall status,
        fst out = Ok status ->
        status <> "250 Message accepted for delivery" ->
        outbox (db (snd out)) = outbox w).
Proof.
  cbv zeta.
  assert (H : outbox (db (snd (handle_DATA app envelope w))) = outbox w
              \/ (fst (handle_DATA app envelope w) = Ok "250 Message accepted for delivery"
                  /\ exists s, outbox (db (snd (handle_DATA app envelope w)))
                               = (outbox w ++ [s])%list)).
  { destruct (handle_DATA_pipeline envelope w) as [-> | ->].
    - destruct (handle_reply_outcome envelope (parsed app envelope w))
        as [[-> _]|[(n1 & n2 & ->)|(a & ad & re & fe & ->)]].
      + now left.
      + now left.
      + destruct (reply_relay_outcome envelope a ad re fe (parsed app envelope w))
          as [(Hres & Hout & _)|(_ & Hsame)].
        * right. split; [exact Hres|]. eexists. exact Hout.
        * left. rewrite Hsame. reflexivity.
    - destruct (handle_forward_outcome envelope (parsed app envelope w))
        as [(_ & _ & Hout)|(g & mb & fe & we & c1 & -> & _ & Ho1)].
      + left. exact Hout.
      + destruct (forward_deliver_outcome envelope g mb fe we c1)
          as [_ [(Hres & _ & Hout)|[(_ & _ & Hout & _)|(k & _ & _ & Hout)]]].
        * right. split; [exact Hres|]. eexists. rewrite Hout, Ho1. reflexivity.
        * left. rewrite Hout. exact Ho1.
        * left. rewrite Hout. exact Ho1. }
  split.
  - destruct H as [H|[_ H]]; [now left|now right].
  - intros status Hres Hne. destruct H as [H|[H _]]; [exact H|].
    rewrite H in Hres. injection Hres as <-. contradiction.
Qed.

Lemma handle_DATA_logs (envelope : Envelope) (w : World) :
  forward_email_logs (db (snd (handle_DATA app envelope w))) = forward_email_logs w
  \/ exists e, forward_email_logs (db (snd (handle_DATA app envelope w)))
               = (forward_email_logs w ++ [e])%list
               /\ fel_id e = next_id (map fel_id (forward_email_logs w))
               /\ fel_is_reply e && fel_blocked e = false.
Proof.
  destruct (handle_DATA_pipeline envelope w) as [-> | ->].
  - destruct (handle_reply_outcome envelope (parsed app envelope w))
      as [[-> _]|[(n1 & n2 & ->)|(a & ad & re & fe & ->)]].
    + now left.
    + now left.
    + destruct (reply_relay_outcome envelope a ad re fe (parsed app envelope w))
        as [(_ & _ & Hlog & _)|(_ & Hsame)].
      * right. eexists. split; [exact Hlog|]. split; reflexivity.
      * left. rewrite Hsame. reflexivity.
  - destruct (handle_forward_outcome envelope (parsed app envelope w))
      as [(_ & Hlog & _)|(g & mb & fe & we & c1 & -> & Hl1 & _)].
    + left. exact Hlog.
    + destruct (forward_deliver_outcome envelope g mb fe we c1) as [Hlog _].
      right. eexists. rewrite Hlog, Hl1. split; [reflexivity|]. split; reflexivity.
Qed.

Lemma handle_DATA_keeps_logs_reply_or_blocked (envelope : Envelope) (w : World) :
  logs_reply_or_blocked w ->
  logs_reply_or_blocked (db (snd (handle_DATA app envelope w))).
Proof.
  intros Hinv e Hin.
  destruct (handle_DATA_logs envelope w) as [H|(e0 & H & _ & He0)]; rewrite H in Hin.
  - exact (Hinv e Hin).
  - apply in_app_or in Hin. destruct Hin as [Hin|[<-|[]]]; [exact (Hinv e Hin)|exact He0].
Qed.

(** X5: the log is append-only.  A run of [handle_DATA] leaves the entries
    it found untouched and adds at most one, with a fresh id, that is never
    at once a reply and blocked; so a log without such entries stays
    without them. *)
Theorem handle_DATA_log_append_only (envelope : Envelope) (w : World) :
  let w' := db (snd (handle_DATA app envelope w)) in
  (forward_email_logs w' = forward_email_logs w
   \/ exists e, forward_email_logs w' = (forward_email_logs w ++ [e])%list
                /\ fel_id e = next_id (map fel_id (forward_email_logs w))
                /\ fel_is_reply e && fel_blocked e = false)
  /\ (logs_reply_or_blocked w -> logs_reply_or_blocked w').
Proof.
  cbv zeta. pose proof (handle_DATA_logs envelope w) as H.
  split; [exact H|].
  intros Hinv e Hin. destruct H as [H|(e0 & H & _ & He0)]; rewrite H in Hin.
  - exact (Hinv e Hin).
  - apply in_app_or in Hin. destruct Hin as [Hin|[<-|[]]]; [exact (Hinv e Hin)|exact He0].
Qed.

Lemma handle_forward_keeps_configuration (envelope : Envelope) (c : Ctx) :
  let w' := db (snd (handle_forward app envelope c)) in
  directories w' = directories (db c) /\ custom_domains w' = custom_domains (db c).
Proof.
  cbv zeta. destruct (rcpt_tos envelope) as [|r rest] eqn:Hr.
  - unfold handle_forward, bind. rewrite (first_rcpt_nil _ _ Hr). now split.
  - rewrite (handle_forward_after_resolve _ _ _ _ Hr).
    pose proof (keeps_db_resolve_alias app directories (Py.lower r)
                  (fun _ _ => eq_refl) (fun _ _ => eq_refl) (fun _ _ => eq_refl) c) as Kd.
    pose proof (keeps_db_resolve_alias app custom_domains (Py.lower r)
                  (fun _ _ => eq_refl) (fun _ _ => eq_refl) (fun _ _ => eq_refl) c) as Kc.
    destruct (resolve_alias app (Py.lower r) c) as [[[g|]|e] c0]; simpl in Kd, Kc;
      try (split; assumption).
    destruct (forward_relay_frame envelope g c0) as (_ & Hd & Hc & _).
    split; congruence.
Qed.

(** X6: the relay writes no configuration, and a reply writes no alias and
    no mapping: a run of [handle_DATA] leaves the directories and the
    custom domains as they were, and a run of [handle_reply] leaves, besides
    them, the aliases, the mappings and the random source as they were. *)
Theorem handle_DATA_keeps_configuration (envelope : Envelope) :
  (forall w,
     let w' := db (snd (handle_DATA app envelope w)) in
     directories w' = directories w /\ custom_domains w' = custom_domains w)
  /\ (forall c,
        let w' := db (snd (handle_reply app envelope c)) in
        gen_emails w' = gen_emails (db c)
        /\ forward_emails w' = forward_emails (db c)
        /\ random_calls w' = random_calls (db c)).
Proof.
  assert (Hreply : forall {X : Type} (g : World -> X) c,
             (forall l w, g (with_forward_email_logs l w) = g w) ->
             (forall l w, g (with_outbox l w) = g w) ->
             (forall n w, g (with_commits n w) = g w) ->
             (forall l w, g (with_notifications l w) = g w) ->
             g (db (snd (handle_reply app envelope c))) = g (db c)).
  { intros X g c H1 H2 H3 H4.
    destruct (handle_reply_outcome envelope c)
      as [[-> _]|[(n1 & n2 & ->)|(a & ad & re & fe & ->)]].
    - reflexivity.
    - simpl. apply H4.
    - apply keeps_db_reply_relay; assumption. }
  split.
  - intros w. cbv zeta. destruct (handle_DATA_pipeline envelope w) as [-> | ->].
    + split; apply Hreply; reflexivity.
    + exact (handle_forward_keeps_configuration envelope (parsed app envelope w)).
  - intros c. cbv zeta. repeat split; apply Hreply; reflexivity.
Qed.

(** ** Aliases: unique addresses, and provisioning done once *)

Lemma NoDup_snoc {A : Type} (l : list A) (x : A) :
  NoDup l -> ~ In x l -> NoDup (l ++ [x]).
Proof.
  induction l as [|y l IH]; simpl; intros Hnd Hnin.
  - constructor; [intros []|constructor].
  - inversion Hnd as [|? ? Hy Hl]; subst. constructor.
    + intros Hin. apply in_app_or in Hin. destruct Hin as [Hin|[->|[]]]; [now apply Hy|].
      apply Hnin. now left.
    + apply IH; [exact Hl|]. intros Hin. apply Hnin. now right.
Qed.

Lemma get_by_email_none_not_in (w : World) (alias : string) :
  GenEmail_get_by_email w alias = None -> ~ In alias (map ge_email (gen_emails w)).
Proof.
  unfold GenEmail_get_by_email, first_by. intros Hnone Hin.
  apply in_map_iff in Hin. destruct Hin as (g & Heq & Hin).
  pose proof (find_none _ _ Hnone g Hin) as H. simpl in H.
  rewrite Heq, String.eqb_refl in H. discriminate.
Qed.

(** What a forward does to the table of aliases: nothing, or it appends
    one alias with the recipient's address, which no alias had. *)
Lemma handle_forward_gen_emails (envelope : Envelope) (r : string) (rest : list string)
    (c : Ctx) :
  rcpt_tos envelope = r :: rest ->
  let out := handle_forward app envelope c in
  (gen_emails (db (snd out)) = gen_emails (db c)
   /\ (GenEmail_get_by_email (db c) (Py.lower r) = None ->
       fst out = Ok "510 Email not exist"
       /\ directory_provides app (db c) (Py.lower r) = None
       /\ domain_provides (db c) (Py.lower r) = None))
  \/ (GenEmail_get_by_email (db c) (Py.lower r) = None
      /\ (directory_provides app (db c) (Py.lower r) <> None
          \/ domain_provides (db c) (Py.lower r) <> None)
      /\ exists g, ge_email g = Py.lower r
                   /\ gen_emails (db (snd out)) = (gen_emails (db c) ++ [g])%list).
Proof.
  intros Hr. cbv zeta.
  rewrite (handle_forward_after_resolve _ _ _ _ Hr), resolve_alias_unfold.
  destruct (GenEmail_get_by_email (db c) (Py.lower r)) as [g|] eqn:Hget.
  - left. destruct (forward_relay_frame envelope g c) as (Hg & _).
    split; [exact Hg|discriminate].
  - destruct (directory_provides app (db c) (Py.lower r)) as [d|].
    + right. split; [reflexivity|]. split; [left; discriminate|]. cbv zeta.
      set (g := new_alias _ _ _ _ _ _).
      destruct (forward_relay_frame envelope g (mkCtx (alias_created g (db c)) (msg c)))
        as (Hg & _).
      exists g. split; [reflexivity|exact Hg].
    + cbv zeta. destruct (domain_provides (db c) (Py.lower r)) as [cd|].
      * right. split; [reflexivity|]. split; [right; discriminate|].
        set (g := new_alias _ _ _ _ _ _).
        match goal with
        | |- context [forward_relay app envelope g ?c0] =>
            destruct (forward_relay_frame envelope g c0) as (Hg & _)
        end.
        exists g. split; [reflexivity|exact Hg].
      * left. simpl. repeat split; reflexivity.
Qed.

Lemma directory_provides_ext (w w' : World) (alias : string) :
  directories w' = directories w ->
  directory_provides app w' alias = directory_provides app w alias.
Proof.
  intros H. unfold directory_provides, directory_of, Directory_get_by_name.
  rewrite H. reflexivity.
Qed.

Lemma domain_provides_ext (w w' : World) (alias : string) :
  custom_domains w' = custom_domains w ->
  domain_provides w' alias = domain_provides w alias.
Proof.
  intros H. unfold domain_provides, catch_all_of, CustomDomain_get_by_domain.
  rewrite H. reflexivity.
Qed.

(** X7: alias addresses stay unique and provisioning happens once.  A run of
    [handle_forward] adds at most one alias, with the lower-cased first
    recipient as its address and only when no alias has that address; a
    table of aliases with unique addresses keeps them unique; and a second
    run for the same recipient, whatever the message, adds no alias. *)
Theorem handle_forward_provisions_once
    (envelope1 envelope2 : Envelope) (r1 r2 : string) (rest1 rest2 : list string)
    (c : Ctx) (m2 : Message) :
  rcpt_tos envelope1 = r1 :: rest1 ->
  rcpt_tos envelope2 = r2 :: rest2 ->
  Py.lower r2 = Py.lower r1 ->
  let c1 := snd (handle_forward app envelope1 c) in
  let c2 := snd (handle_forward app envelope2 (mkCtx (db c1) m2)) in
  (gen_emails (db c1) = gen_emails (db c)
   \/ (GenEmail_get_by_email (db c) (Py.lower r1) = None
       /\ exists g, ge_email g = Py.lower r1
                    /\ gen_emails (db c1) = (gen_emails (db c) ++ [g])%list))
  /\ (alias_addresses_unique (db c) -> alias_addresses_unique (db c1))
  /\ gen_emails (db c2) = gen_emails (db c1).
Proof.
  intros Hr1 Hr2 Hsame c1 c2.
  pose proof (handle_forward_gen_emails envelope1 r1 rest1 c Hr1) as H1.
  cbv zeta in H1. fold c1 in H1.
  split; [|split].
  - destruct H1 as [[H _]|(Hn & _ & H)]; [now left|right; now split].
  - unfold alias_addresses_unique. intros Hnd.
    destruct H1 as [[-> _]|(Hnone & _ & g & Hg & ->)]; [exact Hnd|].
    rewrite map_app. simpl. apply NoDup_snoc; [exact Hnd|].
    rewrite Hg. now apply get_by_email_none_not_in.
  - pose proof (handle_forward_gen_emails envelope2 r2 rest2 (mkCtx (db c1) m2) Hr2) as H2.
    cbv zeta in H2. fold c2 in H2. simpl db in H2. rewrite Hsame in H2.
    destruct H2 as [[H2 _]|(Hnone2 & Hprov2 & _)]; [exact H2|]. exfalso.
    destruct (handle_forward_keeps_configuration envelope1 c) as [Hd Hc]. fold c1 in Hd, Hc.
    rewrite (directory_provides_ext _ _ _ Hd), (domain_provides_ext _ _ _ Hc) in Hprov2.
    destruct H1 as [[Hg1 Hwhy]|(Hnone1 & _ & g & Hg & Hg1)].
    + assert (Hnone1 : GenEmail_get_by_email (db c) (Py.lower r1) = None).
      { unfold GenEmail_get_by_email in *. rewrite <- Hg1. exact Hnone2. }
      destruct (Hwhy Hnone1) as (_ & Hdir & Hdom).
      destruct Hprov2 as [H|H]; apply H; assumption.
    + unfold GenEmail_get_by_email, first_by in Hnone2. rewrite Hg1 in Hnone2.
      rewrite (find_app_new _ _ g) in Hnone2; [discriminate|exact Hnone1|].
      simpl. rewrite Hg. apply String.eqb_refl.
Qed.

(** ** Reply addresses: made to pass the tests of the reply pipeline *)

Lemma append_cons (ch : ascii) (a b : string) : String ch a ++ b = String ch (a ++ b).
Proof. reflexivity. Qed.

Lemma length_append (a b : string) :
  String.length (a ++ b) = String.length a + String.length b.
Proof.
  induction a as [|ch a IH]; [reflexivity|].
  rewrite append_cons. simpl. now rewrite IH.
Qed.

Lemma substring_full (s : string) : String.substring 0 (String.length s) s = s.
Proof. induction s as [|ch s IH]; simpl; [reflexivity|now rewrite IH]. Qed.

Lemma substring_append_right (a b : string) :
  String.substring (String.length a) (String.length b) (a ++ b) = b.
Proof.
  induction a as [|ch a IH]; [apply substring_full|].
  rewrite append_cons. simpl. exact IH.
Qed.

Lemma endswith_append (a b : string) : Py.endswith (a ++ b) b = true.
Proof.
  unfold Py.endswith. rewrite length_append.
  replace (String.length a + String.length b - String.length b) with (String.length a)
    by lia.
  rewrite substring_append_right, String.eqb_refl.
  apply andb_true_iff. split; [|reflexivity]. apply Nat.leb_le. lia.
Qed.

Lemma prefix_append (a b : string) : String.prefix a (a ++ b) = true.
Proof.
  induction a as [|ch a IH]; [now destruct b|].
  rewrite append_cons. simpl. destruct (ascii_dec ch ch); [exact IH|contradiction].
Qed.

Lemma reply_email_sample_shape (k : nat) :
  Py.startswith (reply_email_sample app k) "reply+" = true
  /\ Py.endswith (reply_email_sample app k) (EMAIL_DOMAIN app) = true.
Proof.
  split; [apply prefix_append|].
  unfold reply_email_sample.
  replace ("reply+" ++ random_string app k 30 ++ "@" ++ EMAIL_DOMAIN app)
    with (("reply+" ++ random_string app k 30 ++ "@") ++ EMAIL_DOMAIN app).
  - apply endswith_append.
  - generalize (random_string app k 30). intros s.
    change ("reply+" ++ s ++ "@" ++ EMAIL_DOMAIN app)
      with ("reply+" ++ (s ++ ("@" ++ EMAIL_DOMAIN app))).
    change (("reply+" ++ s ++ "@") ++ EMAIL_DOMAIN app)
      with (("reply+" ++ (s ++ "@")) ++ EMAIL_DOMAIN app).
    induction s as [|ch s IH]; [reflexivity|].
    cbv [String.append] in *. fold String.append in *. congruence.
Qed.

Lemma update_first_in {A : Type} (p : A -> bool) (f : A -> A) (l : list A) (x : A) :
  In x (update_first p f l) -> In x l \/ exists y, In y l /\ x = f y.
Proof.
  induction l as [|y l IH]; simpl; [intros []|].
  destruct (p y); simpl.
  - intros [<-|Hin]; [right; exists y; split; [now left|reflexivity]|left; now right].
  - intros [<-|Hin]; [left; now left|].
    destruct (IH Hin) as [H|(z & Hz & ->)]; [left; now right|].
    right. exists z. split; [now right|reflexivity].
Qed.

(** What a forward does to the table of mappings, with the reply address
    of a mapping it appends. *)
Lemma handle_forward_mappings_tokens (envelope : Envelope) (c : Ctx) :
  let l := forward_emails (db c) in
  let l' := forward_emails (db (snd (handle_forward app envelope c))) in
  l' = l
  \/ (exists g we v, l' = update_first (for_pair g we) (website_from_set v) l)
  \/ (exists f k, fe_reply_email f = reply_email_sample app k /\ l' = (l ++ [f])%list).
Proof.
  cbv zeta.
  remember (forward_emails (db (snd (handle_forward app envelope c)))) as l' eqn:Hl'.
  revert Hl'. destruct (rcpt_tos envelope) as [|r rest] eqn:Hr.
  - unfold handle_forward, bind. rewrite (first_rcpt_nil _ _ Hr). intros ->. now left.
  - rewrite (handle_forward_after_resolve _ _ _ _ Hr).
    pose proof (keeps_db_resolve_alias app forward_emails (Py.lower r)
                  (fun _ _ => eq_refl) (fun _ _ => eq_refl) (fun _ _ => eq_refl) c) as K0.
    destruct (resolve_alias app (Py.lower r) c) as [[[g|]|e] c0]; simpl in K0;
      [|intros ->; left; exact K0|intros ->; left; exact K0].
    set (we := get_email_part app (msg_get (msg c0) "From")).
    destruct (get_or_create_forward_email_run app g we c0)
      as (fe & c1 & Hrun & _ & _ & _ & Hcase).
    rewrite (forward_relay_after app envelope g c0 c1 fe Hrun). fold we.
    pose proof (keeps_db_forward_deliver app forward_emails envelope g (mailbox_email_of g)
                  fe we (fun _ _ => eq_refl) (fun _ _ => eq_refl) (fun _ _ => eq_refl) c1)
      as K1.
    rewrite K1, <- K0. intros ->.
    destruct (ForwardEmail_get_by (db c0) (ge_id g) we) as [existing|].
    + destruct Hcase as (_ & Hl & _). right. left.
      exists (ge_id g), we, (msg_get (msg c0) "From"). exact Hl.
    + destruct Hcase as (j & _ & _ & _ & Hfe & Hl & _). right. right.
      exists fe, (random_calls (db c0) + j). split; [|exact Hl]. rewrite Hfe. reflexivity.
Qed.

Lemma lower_ascii_idempotent (ch : ascii) :
  Py.lower_ascii (Py.lower_ascii ch) = Py.lower_ascii ch.
Proof.
  destruct ch as [b0 b1 b2 b3 b4 b5 b6 b7].
  destruct b0, b1, b2, b3, b4, b5, b6, b7; reflexivity.
Qed.

Lemma lower_idempotent (s : string) : Py.lower (Py.lower s) = Py.lower s.
Proof.
  induction s as [|ch s IH]; [reflexivity|].
  change (Py.lower (String ch s)) with (String (Py.lower_ascii ch) (Py.lower s)).
  change (Py.lower (String (Py.lower_ascii ch) (Py.lower s)))
    with (String (Py.lower_ascii (Py.lower_ascii ch)) (Py.lower (Py.lower s))).
  now rewrite lower_ascii_idempotent, IH.
Qed.

Lemma reply_lookup_unique (w : World) (f : ForwardEmail) :
  NoDup (map fe_reply_email (forward_emails w)) ->
  In f (forward_emails w) ->
  ForwardEmail_get_by_reply_email w (fe_reply_email f) = Some f.
Proof.
  unfold ForwardEmail_get_by_reply_email, first_by.
  induction (forward_emails w) as [|y l IH]; simpl; intros Hnd Hin; [contradiction|].
  inversion Hnd as [|? ? Hy Hl]; subst.
  destruct Hin as [->|Hin].
  - now rewrite String.eqb_refl.
  - destruct (String.eqb_spec (fe_reply_email y) (fe_reply_email f)) as [Heq|Hne].
    + exfalso. apply Hy. rewrite Heq. now apply in_map.
    + exact (IH Hl Hin).
Qed.

(** X8: the reply addresses [handle_forward] makes and the three tests a
    reply meets first.  A mapping a run appends has a reply address that
    begins with "reply+" and ends with [EMAIL_DOMAIN]; a recipient whose
    lower-casing is that address therefore passes the prefix test of line
    105 and the suffix test of line 299, and, reply addresses being unique,
    the lookup of line 303 finds that mapping.  The tests are made on the
    lower-cased recipient: a mapping the lookup finds has a reply address
    that is its own lower-casing, so an address made with an upper-case
    letter, from [random_string] or from [EMAIL_DOMAIN], is found for no
    recipient.  A run changes no reply address of another mapping, so a
    store whose reply addresses all end with [EMAIL_DOMAIN] stays such a
    store. *)
Theorem handle_forward_reply_addresses_routable (envelope : Envelope) (c : Ctx) :
  let c' := snd (handle_forward app envelope c) in
  (forall f, forward_emails (db c') = (forward_emails (db c) ++ [f])%list ->
             Py.startswith (fe_reply_email f) "reply+" = true
             /\ Py.endswith (fe_reply_email f) (EMAIL_DOMAIN app) = true
             /\ forall r, Py.lower r = fe_reply_email f ->
                          Py.startswith (Py.lower r) "reply+" = true
                          /\ Py.endswith (Py.lower r) (EMAIL_DOMAIN app) = true
                          /\ (reply_addresses_unique (db c') ->
                              ForwardEmail_get_by_reply_email (db c') (Py.lower r)
                              = Some f))
  /\ (forall f r, ForwardEmail_get_by_reply_email (db c') (Py.lower r) = Some f ->
                  Py.lower (fe_reply_email f) = fe_reply_email f)
  /\ map fe_reply_email (firstn (length (forward_emails (db c))) (forward_emails (db c')))
     = map fe_reply_email (forward_emails (db c))
  /\ (reply_addresses_end_with (EMAIL_DOMAIN app) (db c) ->
      reply_addresses_end_with (EMAIL_DOMAIN app) (db c')).
Proof.
  cbv zeta.
  assert (Hmap : forall g we v l,
             map fe_reply_email (update_first (for_pair g we) (website_from_set v) l)
             = map fe_reply_email l).
  { intros g we v l. induction l as [|y l IH]; simpl; [reflexivity|].
    destruct (for_pair g we y); simpl; [reflexivity|now rewrite IH]. }
  assert (Hlow : forall f r,
             ForwardEmail_get_by_reply_email (db (snd (handle_forward app envelope c)))
                                             (Py.lower r) = Some f ->
             Py.lower (fe_reply_email f) = fe_reply_email f).
  { intros f r Hget. apply first_by_some_in in Hget as [_ Heq].
    apply String.eqb_eq in Heq. rewrite Heq. apply lower_idempotent. }
  assert (Hnew : forall f k,
             fe_reply_email f = reply_email_sample app k ->
             In f (forward_emails (db (snd (handle_forward app envelope c)))) ->
             Py.startswith (fe_reply_email f) "reply+" = true
             /\ Py.endswith (fe_reply_email f) (EMAIL_DOMAIN app) = true
             /\ forall r, Py.lower r = fe_reply_email f ->
                          Py.startswith (Py.lower r) "reply+" = true
                          /\ Py.endswith (Py.lower r) (EMAIL_DOMAIN app) = true
                          /\ (reply_addresses_unique
                                (db (snd (handle_forward app envelope c))) ->
                              ForwardEmail_get_by_reply_email
                                (db (snd (handle_forward app envelope c))) (Py.lower r)
                              = Some f)).
  { intros f k Htok Hin.
    destruct (reply_email_sample_shape k) as [Hs He]. rewrite <- Htok in Hs, He.
    split; [exact Hs|]. split; [exact He|].
    intros r Hr. rewrite Hr. split; [exact Hs|]. split; [exact He|].
    intros Huniq. apply reply_lookup_unique; assumption. }
  unfold reply_addresses_end_with.
  destruct (handle_forward_mappings_tokens envelope c)
    as [H|[(g & we & v & H)|(f0 & k & Htok & H)]].
  - split; [|split; [exact Hlow|]]; rewrite H.
    + intros f Hf. apply (f_equal (@length _)) in Hf. rewrite length_app in Hf.
      simpl in Hf. lia.
    + split; [now rewrite firstn_all|trivial].
  - split; [|split; [exact Hlow|]]; rewrite H.
    + intros f Hf. apply (f_equal (@length _)) in Hf.
      rewrite update_first_length, length_app in Hf. simpl in Hf. lia.
    + split.
      * rewrite <- (update_first_length (for_pair g we) (website_from_set v)) at 1.
        rewrite firstn_all. apply Hmap.
      * intros Hinv f Hin. apply update_first_in in Hin.
        destruct Hin as [Hin|(y & Hy & ->)]; [exact (Hinv f Hin)|exact (Hinv y Hy)].
  - split; [|split; [exact Hlow|]].
    + intros f Hf. rewrite H in Hf. apply app_inj_tail in Hf. destruct Hf as [_ <-].
      apply (Hnew f0 k Htok). rewrite H. apply in_or_app. right. now left.
    + rewrite H. split.
      * rewrite firstn_app, firstn_all, Nat.sub_diag. simpl. now rewrite app_nil_r.
      * intros Hinv f Hin. apply in_app_or in Hin.
        destruct Hin as [Hin|[<-|[]]]; [exact (Hinv f Hin)|].
        rewrite Htok. apply reply_email_sample_shape.
Qed.

(** ** The reply pipeline: rejections and exceptions *)

(** X9: a reply through a mapping whose alias has a domain the service does
    not know, neither one of [ALIAS_DOMAINS] nor a custom domain of the
    store, is answered "550 alias unknown by SimpleLogin", whoever sent
    it; the state is left as it was. *)
Theorem handle_reply_unknown_alias_domain
    (envelope : Envelope) (r : string) (rest : list string) (c : Ctx)
    (forward_email : ForwardEmail) (gen_email : GenEmail) :
  rcpt_tos envelope = r :: rest ->
  Py.endswith (Py.lower r) (EMAIL_DOMAIN app) = true ->
  ForwardEmail_get_by_reply_email (db c) (Py.lower r) = Some forward_email ->
  GenEmail_get (db c) (fe_gen_email_id forward_email) = Some gen_email ->
  email_belongs_to_alias_domains app (ge_email gen_email) = false ->
  CustomDomain_get_by_domain
    (db c) (Py.slice_from (ge_email gen_email) (Py.find (ge_email gen_email) "@" + 1))
  = None ->
  handle_reply app envelope c = (Ok "550 alias unknown by SimpleLogin", c).
Proof.
  intros Hr Hend Hfe Hge Hb Hcd.
  unfold handle_reply, bind, get_db. rewrite (first_rcpt_cons _ _ _ _ Hr).
  cbv beta iota. rewrite Hend. change (negb true) with false. cbv beta iota.
  rewrite Hfe, Hge, Hb, Hcd. reflexivity.
Qed.

Lemma reply_transform_missing_from (alias : string) (forward_email : ForwardEmail)
    (c : Ctx) :
  msg_get (msg c) "From" = None ->
  exists m', reply_transform app alias forward_email c
             = (Raised (Py.KeyError "from"), mkCtx (db c) m').
Proof.
  intros HF. unfold reply_transform.
  destruct (delete_header_run "DKIM-Signature" c) as (m1 & E1 & _ & G1).
  unfold bind at 1. rewrite E1. unfold bind at 1.
  rewrite (replace_header_missing "From" alias (mkCtx (db c) m1)).
  - exists m1. reflexivity.
  - simpl. rewrite G1 by (vm_compute; discriminate). exact HF.
Qed.

Lemma reply_transform_missing_to (alias : string) (forward_email : ForwardEmail)
    (c : Ctx) :
  msg_get (msg c) "From" <> None ->
  msg_get (msg c) "To" = None ->
  exists m', reply_transform app alias forward_email c
             = (Raised (Py.KeyError "to"), mkCtx (db c) m').
Proof.
  intros HF HT. unfold reply_transform.
  destruct (delete_header_run "DKIM-Signature" c) as (m1 & E1 & _ & G1).
  unfold bind at 1. rewrite E1.
  destruct (replace_header_run "From" alias (mkCtx (db c) m1))
    as (m2 & E2 & _ & _ & G2).
  { simpl. rewrite G1 by (vm_compute; discriminate). exact HF. }
  unfold bind at 1. rewrite E2. simpl db.
  destruct (delete_header_run "Reply-To" (mkCtx (db c) m2)) as (m3 & E3 & _ & G3).
  unfold bind at 1. rewrite E3. simpl db. unfold bind at 1.
  rewrite (replace_header_missing "To" (fe_website_email forward_email)
             (mkCtx (db c) m3)).
  - exists m3. reflexivity.
  - simpl in *. rewrite G3, G2, G1 by (vm_compute; discriminate). exact HT.
Qed.

(** X10: an authorized reply whose message lacks the From header, or has it
    and lacks the To header, ends in the [KeyError] of
    [msg.replace_header], named "from" or "to"; nothing is sent, logged or
    notified, and the world is left as it was. *)
Theorem handle_reply_missing_header
    (envelope : Envelope) (r : string) (rest : list string) (c : Ctx)
    (forward_email : ForwardEmail) (gen_email : GenEmail) :
  rcpt_tos envelope = r :: rest ->
  Py.endswith (Py.lower r) (EMAIL_DOMAIN app) = true ->
  ForwardEmail_get_by_reply_email (db c) (Py.lower r) = Some forward_email ->
  GenEmail_get (db c) (fe_gen_email_id forward_email) = Some gen_email ->
  alias_domain_known app (db c) (ge_email gen_email) ->
  Py.lower (mail_from envelope) = Py.lower (mailbox_email_of gen_email) ->
  let out := handle_reply app envelope c in
  (msg_get (msg c) "From" = None ->
   fst out = Raised (Py.KeyError "from") /\ db (snd out) = db c)
  /\ (msg_get (msg c) "From" <> None ->
      msg_get (msg c) "To" = None ->
      fst out = Raised (Py.KeyError "to") /\ db (snd out) = db c).
Proof.
  intros Hr Hend Hfe Hge Hknown Hsender. cbv zeta.
  rewrite (handle_reply_resolved app _ _ _ _ _ _ Hr Hend Hfe Hge Hknown).
  apply String.eqb_eq in Hsender. rewrite Hsender.
  change (negb true) with false. cbv beta iota.
  split.
  - intros HF.
    destruct (reply_transform_missing_from (ge_email gen_email) forward_email c HF)
      as (m' & E).
    unfold reply_relay, bind. rewrite E. split; reflexivity.
  - intros HF HT.
    destruct (reply_transform_missing_to (ge_email gen_email) forward_email c HF HT)
      as (m' & E).
    unfold reply_relay, bind. rewrite E. split; reflexivity.
Qed.

(** ** A forward and the reply to it *)

Lemma reply_relay_run (envelope : Envelope) (gen_email : GenEmail)
    (forward_email : ForwardEmail) (reply_email : string) (c : Ctx) :
  msg_get (msg c) "From" <> None ->
  msg_get (msg c) "To" <> None ->
  alias_domain_known app (db c) (ge_email gen_email) ->
  exists m',
    reply_relay app envelope (ge_email gen_email)
                (Py.slice_from (ge_email gen_email) (Py.find (ge_email gen_email) "@" + 1))
                reply_email forward_email c
    = (Ok "250 Message accepted for delivery",
       mkCtx (replied envelope gen_email forward_email (as_string m') (db c)) m')
    /\ msg_get m' "From" = Some (ge_email gen_email)
    /\ msg_get m' "To" = Some (fe_website_email forward_email).
Proof.
  intros HF HT Hknown.
  destruct (reply_transform_run app (ge_email gen_email) forward_email c HF HT)
    as (m1 & E1 & _ & F1 & T1).
  destruct (reply_sign_run app (ge_email gen_email) (mkCtx (db c) m1) Hknown)
    as (m2 & E2 & _ & G2).
  simpl in E2, G2. exists m2. split; [|split].
  - unfold reply_relay. unfold bind at 1. rewrite E1. unfold bind at 1. rewrite E2.
    unfold reply_send, sendmail, ForwardEmailLog_create, commit. run. reflexivity.
  - rewrite G2 by (vm_compute; discriminate). exact F1.
  - rewrite G2 by (vm_compute; discriminate). exact T1.
Qed.

Lemma get_by_unique_reply_email (w : World) (f : ForwardEmail) :
  reply_addresses_unique w ->
  In f (forward_emails w) ->
  ForwardEmail_get_by_reply_email w (fe_reply_email f) = Some f.
Proof. exact (reply_lookup_unique w f). Qed.

(** X11: the round trip.  After a forward from the correspondent C to an
    existing alias, the store has a mapping of the alias and C; and when
    reply addresses are unique and that mapping's ends with
    [EMAIL_DOMAIN], a message sent to its reply address (in any letter
    case) by the alias's mailbox, carrying From and To headers, is
    answered 250 and goes to the transport once, from the alias's address
    to C, with From set to the alias's address and To set to C. *)
Theorem forward_then_reply_round_trip
    (envelope1 : Envelope) (r1 : string) (rest1 : list string) (m1 : Message)
    (w : World) (gen_email : GenEmail) :
  rcpt_tos envelope1 = r1 :: rest1 ->
  GenEmail_get_by_email w (Py.lower r1) = Some gen_email ->
  GenEmail_get w (ge_id gen_email) = Some gen_email ->
  alias_domain_known app w (ge_email gen_email) ->
  let C := get_email_part app (msg_get m1 "From") in
  let c1 := snd (handle_forward app envelope1 (mkCtx w m1)) in
  exists forward_email,
    ForwardEmail_get_by (db c1) (ge_id gen_email) C = Some forward_email
    /\ forall (envelope2 : Envelope) (r2 : string) (rest2 : list string) (m2 : Message),
         reply_addresses_unique (db c1) ->
         Py.endswith (fe_reply_email forward_email) (EMAIL_DOMAIN app) = true ->
         rcpt_tos envelope2 = r2 :: rest2 ->
         Py.lower r2 = fe_reply_email forward_email ->
         Py.lower (mail_from envelope2) = Py.lower (mailbox_email_of gen_email) ->
         msg_get m2 "From" <> None ->
         msg_get m2 "To" <> None ->
         exists c2,
           handle_reply app envelope2 (mkCtx (db c1) m2)
           = (Ok "250 Message accepted for delivery", c2)
           /\ msg_get (msg c2) "From" = Some (ge_email gen_email)
           /\ msg_get (msg c2) "To" = Some C
           /\ outbox (db c2)
              = (outbox (db c1)
                 ++ [mkSendmail (ge_email gen_email) C (as_string (msg c2))
                                (mail_options envelope2) (rcpt_options envelope2)])%list.
Proof.
  intros Hr1 Hge Hid Hknown C c1.
  destruct (get_or_create_forward_email_run app gen_email C (mkCtx w m1))
    as (fe & ca & Hrun & _ & (Hgen & _ & _ & Hcd & _) & Hget & _).
  simpl in Hgen, Hcd.
  assert (E1 : c1 = snd (forward_deliver app envelope1 gen_email (mailbox_email_of gen_email)
                                         fe C ca)).
  { unfold c1.
    rewrite (handle_forward_resolved app envelope1 r1 rest1 (mkCtx w m1) gen_email Hr1 Hge).
    now rewrite (forward_relay_after app envelope1 gen_email (mkCtx w m1) ca fe Hrun). }
  assert (Hfe1 : forward_emails (db c1) = forward_emails (db ca)).
  { rewrite E1. apply (keeps_db_forward_deliver app forward_emails); reflexivity. }
  assert (Hge1 : gen_emails (db c1) = gen_emails w).
  { rewrite E1, <- Hgen. apply (keeps_db_forward_deliver app gen_emails); reflexivity. }
  assert (Hcd1 : custom_domains (db c1) = custom_domains w).
  { rewrite E1, <- Hcd. apply (keeps_db_forward_deliver app custom_domains); reflexivity. }
  assert (Hfound : ForwardEmail_get_by (db c1) (ge_id gen_email) C = Some fe).
  { unfold ForwardEmail_get_by in *. rewrite Hfe1. exact Hget. }
  exists fe. split; [exact Hfound|].
  intros envelope2 r2 rest2 m2 Huniq Hend Hr2 Hlow Hsender HF HT.
  destruct (first_by_some_in _ _ _ Hfound) as [Hin Hpair].
  apply for_pair_true in Hpair. destruct Hpair as [Hfg HfC].
  assert (Htoken : ForwardEmail_get_by_reply_email (db c1) (Py.lower r2) = Some fe).
  { rewrite Hlow. apply get_by_unique_reply_email; assumption. }
  assert (Halias : GenEmail_get (db c1) (fe_gen_email_id fe) = Some gen_email).
  { unfold GenEmail_get in *. rewrite Hge1, Hfg. exact Hid. }
  assert (Hknown1 : alias_domain_known app (db c1) (ge_email gen_email)).
  { unfold alias_domain_known, CustomDomain_get_by_domain in *. rewrite Hcd1. exact Hknown. }
  rewrite <- Hlow in Hend.
  rewrite (handle_reply_resolved app envelope2 r2 rest2 (mkCtx (db c1) m2) fe gen_email
             Hr2 Hend Htoken Halias Hknown1).
  apply String.eqb_eq in Hsender. rewrite Hsender.
  change (negb true) with false. cbv beta iota.
  destruct (reply_relay_run envelope2 gen_email fe (Py.lower r2) (mkCtx (db c1) m2)
              HF HT Hknown1) as (m' & Erun & HFrom & HTo).
  rewrite Erun. eexists. split; [reflexivity|]. simpl.
  rewrite HfC in HTo. split; [exact HFrom|]. split; [exact HTo|].
  rewrite HfC. reflexivity.
Qed.

End RelayMore.

(** * The further properties on the concrete deployment *)

Lemma handle_forward_unprovisioned_510_witness :
  handle_forward Demo.app Cases.fwd_lab (parsed Demo.app Cases.fwd_lab Cases.world5)
  = (Ok "510 Email not exist",
     mkCtx (with_notifications
              [CannotCreateDirectoryAlias Cases.frozen "lab+x@relay.example" "lab"]
              Cases.world5)
           (parsestr Demo.app (content Cases.fwd_lab)))
  /\ handle_forward Demo.app Cases.fwd_nobody (parsed Demo.app Cases.fwd_nobody Demo.world0)
     = (Ok "510 Email not exist", parsed Demo.app Cases.fwd_nobody Demo.world0).
Proof.
  split.
  - exact (proj1 (handle_forward_unprovisioned_510 Demo.app Cases.fwd_lab
                    "lab+x@relay.example" [] (parsed Demo.app Cases.fwd_lab Cases.world5)
                    eq_refl eq_refl eq_refl eq_refl)).
  - exact (proj2 (handle_forward_unprovisioned_510 Demo.app Cases.fwd_nobody
                    "Nobody@relay.example" [] (parsed Demo.app Cases.fwd_nobody Demo.world0)
                    eq_refl eq_refl eq_refl eq_refl) eq_refl eq_refl).
Defined.

Lemma handle_forward_directory_alias_witness :
  let c' := snd (handle_forward Demo.app Demo.fwd_sales
                   (parsed Demo.app Demo.fwd_sales Demo.world2)) in
  gen_emails (db c')
  = [Demo.shop; Demo.off;
     mkGenEmail 3 "sales/anything@relay.example" Demo.owner None true (Some 1) None false]
  /\ notifications (db c') = [].
Proof.
  destruct (handle_forward_directory_alias Demo.app Demo.fwd_sales
              "sales/anything@relay.example" [] (parsed Demo.app Demo.fwd_sales Demo.world2)
              Demo.sales eq_refl eq_refl eq_refl) as (_ & Hg & Hn & _).
  split; [exact Hg|exact Hn].
Defined.

Lemma handle_forward_catch_all_alias_witness :
  let c' := snd (handle_forward Demo.app Cases.fwd_open
                   (parsed Demo.app Cases.fwd_open Cases.world3)) in
  gen_emails (db c')
  = [Demo.shop; Demo.off;
     mkGenEmail 3 "any@open.example" Demo.owner None true None (Some 2) true]
  /\ notifications (db c') = [].
Proof.
  destruct (handle_forward_catch_all_alias Demo.app Cases.fwd_open
              "Any@open.example" [] (parsed Demo.app Cases.fwd_open Cases.world3)
              Cases.open_domain eq_refl eq_refl eq_refl eq_refl) as (Hg & Hn & _).
  split; [exact Hg|exact Hn].
Defined.

Lemma handle_DATA_sends_at_most_once_witness :
  fst (handle_DATA Demo.app Cases.fwd_nobody Demo.world0) = Ok "510 Email not exist"
  /\ outbox (db (snd (handle_DATA Demo.app Cases.fwd_nobody Demo.world0))) = []
  /\ exists s,
       outbox (db (snd (handle_DATA Demo.app Demo.fwd_shop Demo.world0))) = [s].
Proof.
  split; [reflexivity|]. split.
  - apply (proj2 (handle_DATA_sends_at_most_once Demo.app Cases.fwd_nobody Demo.world0)
                 "510 Email not exist"); [reflexivity|discriminate].
  - destruct (proj1 (handle_DATA_sends_at_most_once Demo.app Demo.fwd_shop Demo.world0))
      as [H|H]; [vm_compute in H; discriminate|exact H].
Defined.

Lemma handle_DATA_log_append_only_witness :
  logs_reply_or_blocked (db (snd (handle_DATA Demo.app Demo.fwd_off Demo.world0))).
Proof.
  apply (proj2 (handle_DATA_log_append_only Demo.app Demo.fwd_off Demo.world0)).
  intros e [].
Defined.

Lemma handle_forward_provisions_once_witness :
  let c1 := snd (handle_forward Demo.app Demo.fwd_sales
                   (parsed Demo.app Demo.fwd_sales Demo.world2)) in
  let c2 := snd (handle_forward Demo.app Demo.fwd_sales
                   (mkCtx (db c1) (parsestr Demo.app (content Demo.fwd_sales)))) in
  alias_addresses_unique (db c1) /\ gen_emails (db c2) = gen_emails (db c1).
Proof.
  destruct (handle_forward_provisions_once Demo.app Demo.fwd_sales Demo.fwd_sales
              "sales/anything@relay.example" "sales/anything@relay.example" [] []
              (parsed Demo.app Demo.fwd_sales Demo.world2)
              (parsestr Demo.app (content Demo.fwd_sales)) eq_refl eq_refl eq_refl)
    as (_ & Hu & H2).
  split; [|exact H2].
  apply Hu. unfold alias_addresses_unique. simpl.
  repeat constructor; simpl; intuition discriminate.
Defined.

Lemma handle_forward_reply_addresses_routable_witness :
  let w' := db (snd (handle_forward Demo.app Demo.fwd_shop
                       (parsed Demo.app Demo.fwd_shop Demo.world0))) in
  (exists f,
     forward_emails w' = [Demo.boss_mapping; f]
     /\ ForwardEmail_get_by_reply_email w' (Py.lower "Reply+Tok0@Relay.Example") = Some f)
  /\ reply_addresses_end_with "relay.example" w'.
Proof.
  intros w'.
  destruct (handle_forward_reply_addresses_routable Demo.app Demo.fwd_shop
              (parsed Demo.app Demo.fwd_shop Demo.world0)) as (Hnew & _ & _ & Hend).
  split.
  - eexists. split; [reflexivity|].
    refine (proj2 (proj2 (proj2 (proj2 (Hnew _ eq_refl)) "Reply+Tok0@Relay.Example"
                                eq_refl)) _).
    unfold reply_addresses_unique. vm_compute.
    repeat constructor; simpl; intuition discriminate.
  - apply Hend. intros f [<-|[]]. reflexivity.
Defined.

Lemma handle_reply_unknown_alias_domain_witness :
  handle_reply Demo.app Cases.reply_gone (parsed Demo.app Cases.reply_gone Cases.world4)
  = (Ok "550 alias unknown by SimpleLogin", parsed Demo.app Cases.reply_gone Cases.world4).
Proof.
  exact (handle_reply_unknown_alias_domain Demo.app Cases.reply_gone
           "reply+cccc@relay.example" [] (parsed Demo.app Cases.reply_gone Cases.world4)
           Cases.gone_mapping Cases.gone eq_refl eq_refl eq_refl eq_refl eq_refl eq_refl).
Defined.

Lemma handle_reply_missing_header_witness :
  (let out := handle_reply Demo.app Cases.reply_without_from
                (parsed Demo.app Cases.reply_without_from Demo.world0) in
   fst out = Raised (Py.KeyError "from") /\ db (snd out) = Demo.world0)
  /\ (let out := handle_reply Demo.app Demo.reply_without_to
                   (parsed Demo.app Demo.reply_without_to Demo.world0) in
      fst out = Raised (Py.KeyError "to") /\ db (snd out) = Demo.world0).
Proof.
  split.
  - exact (proj1 (handle_reply_missing_header Demo.app Cases.reply_without_from
                    "reply+aaaa@relay.example" []
                    (parsed Demo.app Cases.reply_without_from Demo.world0)
                    Demo.boss_mapping Demo.shop eq_refl eq_refl eq_refl eq_refl
                    (or_introl eq_refl) eq_refl) eq_refl).
  - apply (proj2 (handle_reply_missing_header Demo.app Demo.reply_without_to
                    "reply+aaaa@relay.example" []
                    (parsed Demo.app Demo.reply_without_to Demo.world0)
                    Demo.boss_mapping Demo.shop eq_refl eq_refl eq_refl eq_refl
                    (or_introl eq_refl) eq_refl)).
    + vm_compute. discriminate.
    + reflexivity.
Defined.

Lemma forward_then_reply_round_trip_witness :
  let c1 := snd (handle_forward Demo.app Demo.fwd_shop
                   (parsed Demo.app Demo.fwd_shop Demo.world0)) in
  exists c2,
    handle_reply Demo.app Cases.reply_jane
      (mkCtx (db c1) (parsestr Demo.app (content Cases.reply_jane)))
    = (Ok "250 Message accepted for delivery", c2)
    /\ msg_get (msg c2) "From" = Some "shop@relay.example"
    /\ msg_get (msg c2) "To" = Some "jane@biz.example"
    /\ outbox (db c2)
       = (outbox (db c1)
          ++ [mkSendmail "shop@relay.example" "jane@biz.example" (as_string (msg c2)) [] []])%list.
Proof.
  intros c1.
  destruct (forward_then_reply_round_trip Demo.app Demo.fwd_shop "shop@relay.example" []
              (parsestr Demo.app (content Demo.fwd_shop)) Demo.world0 Demo.shop
              eq_refl eq_refl eq_refl (or_introl eq_refl)) as (fe & Hget & Hreply).
  vm_compute in Hget. injection Hget as <-.
  apply (Hreply Cases.reply_jane "reply+tok0@relay.example" []
           (parsestr Demo.app (content Cases.reply_jane))).
  - vm_compute. repeat constructor; simpl; intuition discriminate.
  - reflexivity.
  - reflexivity.
  - reflexivity.
  - reflexivity.
  - vm_compute. discriminate.
  - vm_compute. discriminate.
Defined.

(** * The address check of the contact form *)

Module PyTextFacts.
Import PyText.

Lemma append_nil_l (s : string) : ("" ++ s)%string = s.
Proof. reflexivity. Qed.

Lemma append_nil_r (s : string) : (s ++ "")%string = s.
Proof.
  induction s as [|c s IH]; [reflexivity|]. rewrite append_cons, IH. reflexivity.
Qed.

Lemma append_assoc (a b c : string) : ((a ++ b) ++ c)%string = (a ++ (b ++ c))%string.
Proof.
  induction a as [|x a IH]; [reflexivity|]. rewrite !append_cons, IH. reflexivity.
Qed.

Lemma append_eq_nil (s t : string) : (s ++ t)%string = ""%string -> s = ""%string /\ t = ""%string.
Proof. destruct s; [rewrite append_nil_l; auto|rewrite append_cons; discriminate]. Qed.

Lemma In_Eps_inv (s : string) : In_re Eps s <-> s = ""%string.
Proof. split; [inversion 1; reflexivity|intros ->; constructor]. Qed.

Lemma In_Void_inv (s : string) : In_re Void s <-> False.
Proof. split; [inversion 1|tauto]. Qed.

Lemma In_Chr_inv (p : ascii -> bool) (s : string) :
  In_re (Chr p) s <-> exists c, s = String c "" /\ p c = true.
Proof.
  split.
  - inversion 1; subst. eauto.
  - intros (c & -> & H). now constructor.
Qed.

Lemma In_Cat_inv (a b : re) (s : string) :
  In_re (Cat a b) s <-> exists s1 s2, s = (s1 ++ s2)%string /\ In_re a s1 /\ In_re b s2.
Proof.
  split.
  - inversion 1; subst. eauto.
  - intros (s1 & s2 & -> & H1 & H2). now constructor.
Qed.

Lemma In_Alt_inv (a b : re) (s : string) : In_re (Alt a b) s <-> In_re a s \/ In_re b s.
Proof.
  split.
  - inversion 1; subst; auto.
  - intros [H|H]; [now apply In_Alt_l|now apply In_Alt_r].
Qed.

Lemma nullable_In (r : re) : nullable r = true <-> In_re r "".
Proof.
  induction r as [| |p|a IHa b IHb|a IHa b IHb|a IHa]; simpl.
  - split; [discriminate|inversion 1].
  - split; [constructor|reflexivity].
  - split; [discriminate|inversion 1].
  - rewrite Bool.andb_true_iff, IHa, IHb, In_Cat_inv. split.
    + intros [Ha Hb]. exists ""%string, ""%string. auto.
    + intros (s1 & s2 & E & Ha & Hb). symmetry in E.
      apply append_eq_nil in E as [-> ->]. auto.
  - rewrite Bool.orb_true_iff, IHa, IHb, In_Alt_inv. tauto.
  - split; [constructor|reflexivity].
Qed.

Lemma deriv_sound (c : ascii) (r : re) :
  forall s, In_re (deriv c r) s -> In_re r (String c s).
Proof.
  induction r as [| |p|a IHa b IHb|a IHa b IHb|a IHa]; simpl; intros s H.
  - inversion H.
  - inversion H.
  - destruct (p c) eqn:E; [|inversion H].
    apply In_Eps_inv in H as ->. now constructor.
  - assert (Hcat : forall t, In_re (Cat (deriv c a) b) t -> In_re (Cat a b) (String c t)).
    { intros t Ht. apply In_Cat_inv in Ht as (s1 & s2 & -> & H1 & H2).
      change (String c (s1 ++ s2)) with (String c s1 ++ s2)%string.
      constructor; auto. }
    destruct (nullable a) eqn:N; [|auto].
    apply In_Alt_inv in H as [H|H]; [auto|].
    change (String c s) with ("" ++ String c s)%string.
    constructor; [now apply nullable_In|auto].
  - apply In_Alt_inv in H as [H|H]; [apply In_Alt_l|apply In_Alt_r]; auto.
  - apply In_Cat_inv in H as (s1 & s2 & -> & H1 & H2).
    change (String c (s1 ++ s2)) with (String c s1 ++ s2)%string.
    apply In_Star_cons; auto.
Qed.

Lemma deriv_complete (c : ascii) (r : re) (t : string) :
  In_re r t -> forall s, t = String c s -> In_re (deriv c r) s.
Proof.
  induction 1 as [|p x Hx|a b s1 s2 H1 IH1 H2 IH2|a b s1 H1 IH1|a b s1 H1 IH1|a
                 |a s1 s2 H1 IH1 H2 IH2]; intros s E; simpl.
  - discriminate.
  - injection E as -> <-. rewrite Hx. constructor.
  - destruct s1 as [|x s1]; [rewrite append_nil_l in E|rewrite append_cons in E].
    + assert (N : nullable a = true) by now apply nullable_In.
      rewrite N. apply In_Alt_r. auto.
    + injection E as -> <-.
      assert (In_re (Cat (deriv c a) b) (s1 ++ s2)) by (constructor; auto).
      destruct (nullable a); [now apply In_Alt_l|assumption].
  - apply In_Alt_l. auto.
  - apply In_Alt_r. auto.
  - discriminate.
  - destruct s1 as [|x s1]; [rewrite append_nil_l in E|rewrite append_cons in E].
    + apply (IH2 s E).
    + injection E as -> <-. constructor; auto.
Qed.

Lemma fullmatch_In (r : re) (s : string) : fullmatch r s = true <-> In_re r s.
Proof.
  revert r. induction s as [|c s IH]; intros r; simpl.
  - apply nullable_In.
  - rewrite IH. split; [apply deriv_sound|].
    intros H. exact (deriv_complete c r _ H s eq_refl).
Qed.

Lemma In_Star_Chr (p : ascii -> bool) (s : string) :
  In_re (Star (Chr p)) s <-> all_in p s = true.
Proof.
  split.
  - intros H. remember (Star (Chr p)) as r eqn:Er.
    induction H as [|q x Hx|a b s1 s2 H1 IH1 H2 IH2|a b s1 H1 IH1|a b s1 H1 IH1|a
                   |a s1 s2 H1 IH1 H2 IH2]; try discriminate.
    + reflexivity.
    + injection Er as ->. apply In_Chr_inv in H1 as (c & -> & Hc).
      rewrite append_cons, append_nil_l. simpl. rewrite Hc. simpl. auto.
  - induction s as [|c s IH]; simpl; intros H.
    + constructor.
    + apply Bool.andb_true_iff in H as [Hc Hs].
      change (String c s) with (String c "" ++ s)%string.
      apply In_Star_cons; [now constructor|auto].
Qed.

Lemma In_Plus_Chr (p : ascii -> bool) (s : string) :
  In_re (Plus (Chr p)) s <-> s <> ""%string /\ all_in p s = true.
Proof.
  unfold Plus. rewrite In_Cat_inv. split.
  - intros (s1 & s2 & -> & H1 & H2). apply In_Chr_inv in H1 as (c & -> & Hc).
    apply In_Star_Chr in H2. rewrite append_cons, append_nil_l. simpl. rewrite Hc, H2.
    split; [discriminate|reflexivity].
  - intros [Hne H]. destruct s as [|c s]; [congruence|]. simpl in H.
    apply Bool.andb_true_iff in H as [Hc Hs].
    exists (String c ""), s. split; [reflexivity|]. split; [now constructor|].
    now apply In_Star_Chr.
Qed.

Lemma In_Dollar (s : string) : In_re Dollar s <-> s = ""%string \/ s = Py.LF.
Proof.
  unfold Dollar. rewrite In_Alt_inv, In_Eps_inv, In_Chr_inv. split.
  - intros [H|(c & -> & Hc)]; [auto|]. right.
    apply Ascii.eqb_eq in Hc as <-. reflexivity.
  - intros [H| ->]; [auto|]. right. exists "010"%char. split; reflexivity.
Qed.

(** What [rstrip] leaves does not end with white space. *)
Lemma rstrip_last (s a : string) (c : ascii) :
  rstrip s = (a ++ String c "")%string -> is_space c = false.
Proof.
  revert a. induction s as [|x s IH]; simpl; intros a E.
  - destruct a; discriminate.
  - destruct (rstrip s) as [|y r] eqn:R.
    + destruct (is_space x) eqn:X.
      * destruct a; discriminate.
      * destruct a as [|z a]; [rewrite append_nil_l in E|rewrite append_cons in E].
        -- injection E as <-. exact X.
        -- injection E as _ E. destruct a; discriminate.
    + destruct a as [|z a]; [rewrite append_nil_l in E|rewrite append_cons in E].
      * discriminate.
      * injection E as _ E. apply (IH a). exact E.
Qed.

Lemma strip_last (s a : string) (c : ascii) :
  strip s = (a ++ String c "")%string -> is_space c = false.
Proof. apply rstrip_last. Qed.

End PyTextFacts.

(** ** email_validator *)

Lemma all_in_append (p : ascii -> bool) (a b : string) :
  PyText.all_in p (a ++ b) = PyText.all_in p a && PyText.all_in p b.
Proof.
  induction a as [|c a IH]; [reflexivity|].
  rewrite append_cons. simpl. rewrite IH. apply andb_assoc.
Qed.

Lemma In_email_re (s : string) :
  PyText.In_re email_re s
  <-> exists e nl, s = e ++ nl /\ address_shape e /\ (nl = "" \/ nl = Py.LF).
Proof.
  unfold email_re, address_shape. split.
  - intros H.
    apply PyTextFacts.In_Cat_inv in H as (l & s1 & -> & Hl & H).
    apply PyTextFacts.In_Cat_inv in H as (at_ & s2 & -> & Hat & H).
    apply PyTextFacts.In_Cat_inv in H as (d & s3 & -> & Hd & H).
    apply PyTextFacts.In_Cat_inv in H as (dot & s4 & -> & Hdot & H).
    apply PyTextFacts.In_Cat_inv in H as (t & nl & -> & Ht & Hnl).
    apply PyTextFacts.In_Plus_Chr in Hl as [Hl1 Hl2].
    apply PyTextFacts.In_Plus_Chr in Hd as [Hd1 Hd2].
    apply PyTextFacts.In_Chr_inv in Hat as (c1 & -> & Hc1).
    apply PyTextFacts.In_Chr_inv in Hdot as (c2 & -> & Hc2).
    apply Ascii.eqb_eq in Hc1 as <-. apply Ascii.eqb_eq in Hc2 as <-.
    apply PyTextFacts.In_Star_Chr in Ht. apply PyTextFacts.In_Dollar in Hnl.
    exists (l ++ "@" ++ d ++ "." ++ t), nl. split.
    { rewrite !PyTextFacts.append_assoc. reflexivity. }
    split; [|exact Hnl]. exists l, d, t. auto 10.
  - intros (e & nl & -> & (l & d & t & -> & Hl1 & Hl2 & Hd1 & Hd2 & Ht) & Hnl).
    rewrite !PyTextFacts.append_assoc.
    constructor; [apply PyTextFacts.In_Plus_Chr; auto|].
    constructor; [constructor; reflexivity|].
    constructor; [apply PyTextFacts.In_Plus_Chr; auto|].
    constructor; [constructor; reflexivity|].
    constructor; [apply PyTextFacts.In_Star_Chr; auto|].
    apply PyTextFacts.In_Dollar. exact Hnl.
Qed.

Lemma email_part_of_stripped (data : string) :
  exists x, email_part_of data = PyText.strip x.
Proof.
  unfold email_part_of.
  destruct (Py.contains (PyText.strip data) "<" && Py.contains (PyText.strip data) ">");
    [|eauto].
  destruct (Py.find (PyText.strip data) "<" + 1 <? Py.find (PyText.strip data) ">")%Z; eauto.
Qed.

Lemma email_re_on_stripped (x : string) :
  PyText.fullmatch email_re (PyText.strip x) = true <-> address_shape (PyText.strip x).
Proof.
  rewrite PyTextFacts.fullmatch_In, In_email_re. split.
  - intros (e & nl & E & He & [-> | ->]).
    + rewrite PyTextFacts.append_nil_r in E. now rewrite E.
    + apply PyTextFacts.strip_last in E. discriminate.
  - intros H. exists (PyText.strip x), "".
    rewrite PyTextFacts.append_nil_r. auto.
Qed.

Lemma email_validator_accepts_shape (data : string) :
  email_validator data = Valid -> address_shape (email_part_of data).
Proof.
  unfold email_validator. intros H.
  destruct (email_part_of_stripped data) as (x & E). rewrite E in *.
  apply email_re_on_stripped.
  destruct (PyText.fullmatch email_re (PyText.strip x)); [reflexivity|discriminate].
Qed.

(** X12: the contact form's address check accepts exactly the texts whose
    address part, the stripped text or what stands between its first "<"
    and its first ">", is a non-empty run of letters, digits and [. + _ -],
    an "@", a non-empty run of letters, digits and [. _ -], a ".", and a
    run of letters that may be empty; in every other case it raises
    [ValidationError]. *)
Theorem email_validator_accepts (data : string) :
  (email_validator data = Valid <-> address_shape (email_part_of data))
  /\ (email_validator data = ValidationError email_validator_message
      <-> ~ address_shape (email_part_of data)).
Proof.
  assert (M : PyText.fullmatch email_re (email_part_of data) = true
              <-> address_shape (email_part_of data)).
  { destruct (email_part_of_stripped data) as (x & ->). apply email_re_on_stripped. }
  unfold email_validator.
  destruct (PyText.fullmatch email_re (email_part_of data)).
  - split; (split; [intros H|intros H]); try reflexivity; try discriminate.
    + now apply M.
    + exfalso. apply H. now apply M.
  - split; (split; [intros H|intros H]); try reflexivity; try discriminate.
    + apply M in H. discriminate.
    + intros H'. apply M in H'. discriminate.
Qed.

(** The first occurrence of a character. *)

Lemma prefix_nil (s : string) : String.prefix "" s = true.
Proof. now destruct s. Qed.

Lemma index_char_cons (c x : ascii) (s : string) :
  String.index 0 (String c "") (String x s)
  = if Ascii.eqb c x then Some 0
    else match String.index 0 (String c "") s with
         | Some n => Some (S n)
         | None => None
         end.
Proof.
  simpl. destruct (ascii_dec c x) as [->|N].
  - rewrite prefix_nil, Ascii.eqb_refl. reflexivity.
  - apply Ascii.eqb_neq in N. rewrite N. reflexivity.
Qed.

Lemma index_char_nil (c : ascii) : String.index 0 (String c "") "" = None.
Proof. reflexivity. Qed.

Lemma index_char_append_found (c : ascii) (a b : string) :
  String.index 0 (String c "") a = None ->
  String.index 0 (String c "") (a ++ String c b) = Some (String.length a).
Proof.
  induction a as [|x a IH]; intros H.
  - rewrite PyTextFacts.append_nil_l, index_char_cons, Ascii.eqb_refl. reflexivity.
  - rewrite index_char_cons in H. rewrite append_cons, index_char_cons.
    destruct (Ascii.eqb c x); [discriminate|].
    destruct (String.index 0 (String c "") a); [discriminate|].
    rewrite (IH eq_refl). reflexivity.
Qed.

Lemma index_char_append_none (c : ascii) (a b : string) :
  String.index 0 (String c "") a = None ->
  String.index 0 (String c "") b = None ->
  String.index 0 (String c "") (a ++ b) = None.
Proof.
  induction a as [|x a IH]; intros Ha Hb; [exact Hb|].
  rewrite index_char_cons in Ha. rewrite append_cons, index_char_cons.
  destruct (Ascii.eqb c x); [discriminate|].
  destruct (String.index 0 (String c "") a); [discriminate|].
  rewrite (IH eq_refl Hb). reflexivity.
Qed.

Lemma contains_char_none (c : ascii) (s : string) :
  Py.contains s (String c "") = false <-> String.index 0 (String c "") s = None.
Proof.
  unfold Py.contains. destruct (String.index 0 (String c "") s); split; congruence.
Qed.

Lemma substring_prefix (b c : string) : String.substring 0 (String.length b) (b ++ c) = b.
Proof.
  induction b as [|x b IH].
  - rewrite PyTextFacts.append_nil_l. destruct c; reflexivity.
  - rewrite append_cons. simpl. rewrite IH. reflexivity.
Qed.

Lemma substring_middle (a b c : string) :
  String.substring (String.length a) (String.length b) (a ++ b ++ c) = b.
Proof.
  induction a as [|x a IH]; [exact (substring_prefix b c)|].
  rewrite append_cons. simpl. exact IH.
Qed.

Lemma email_part_of_bracketed (data name addr rest : string) :
  PyText.strip data = name ++ "<" ++ addr ++ ">" ++ rest ->
  Py.contains name "<" = false ->
  Py.contains name ">" = false ->
  Py.contains addr ">" = false ->
  addr <> "" ->
  email_part_of data = PyText.strip addr.
Proof.
  intros E Hn1 Hn2 Ha Hne.
  apply contains_char_none in Hn1, Hn2, Ha.
  assert (I1 : String.index 0 "<" (PyText.strip data) = Some (String.length name)).
  { rewrite E. apply index_char_append_found. exact Hn1. }
  assert (I2 : String.index 0 ">" (PyText.strip data)
               = Some (String.length name + 1 + String.length addr)).
  { rewrite E.
    replace (name ++ "<" ++ addr ++ ">" ++ rest) with ((name ++ "<" ++ addr) ++ ">" ++ rest)
      by (rewrite !PyTextFacts.append_assoc; reflexivity).
    change (">" ++ rest) with (String ">"%char rest).
    rewrite index_char_append_found.
    - rewrite !length_append. simpl. f_equal. lia.
    - apply index_char_append_none; [exact Hn2|].
      apply index_char_append_none; [reflexivity|exact Ha]. }
  unfold email_part_of, Py.contains, Py.find. rewrite I1, I2. cbv beta iota. simpl andb.
  cbv iota.
  assert (L : 0 < String.length addr) by (destruct addr; [congruence|simpl; lia]).
  replace (Z.of_nat (String.length name) + 1
           <? Z.of_nat (String.length name + 1 + String.length addr))%Z with true
    by (symmetry; apply Z.ltb_lt; lia).
  f_equal. unfold PyText.slice. rewrite E.
  assert (Len : String.length (name ++ "<" ++ addr ++ ">" ++ rest)
                = String.length name + 1 + String.length addr + 1 + String.length rest).
  { rewrite !length_append. simpl. lia. }
  rewrite Len.
  replace (Z.of_nat (String.length name) + 1 <? 0)%Z with false
    by (symmetry; apply Z.ltb_ge; lia).
  replace (Z.of_nat (String.length name + 1 + String.length addr) <? 0)%Z with false
    by (symmetry; apply Z.ltb_ge; lia).
  rewrite !Z.min_l by lia.
  replace (Z.to_nat (Z.of_nat (String.length name) + 1)) with (String.length (name ++ "<"))
    by (rewrite length_append; simpl; lia).
  replace (Z.to_nat (Z.of_nat (String.length name + 1 + String.length addr))
           - String.length (name ++ "<")) with (String.length addr)
    by (rewrite length_append; simpl; lia).
  replace (name ++ "<" ++ addr ++ ">" ++ rest) with ((name ++ "<") ++ addr ++ ">" ++ rest)
    by (rewrite !PyTextFacts.append_assoc; reflexivity).
  apply substring_middle.
Qed.

(** X13: the address check reads only what stands between the first "<"
    and the first ">".  For a text that, stripped, is a display name without
    angle brackets, "<", a non-empty text without ">", ">" and anything
    after it, the address part is the stripped text between the brackets,
    and the check accepts exactly when that has the shape of an address:
    the display name and what follows the ">" are not looked at. *)
Theorem email_validator_display_name (data name addr rest : string) :
  PyText.strip data = name ++ "<" ++ addr ++ ">" ++ rest ->
  Py.contains name "<" = false ->
  Py.contains name ">" = false ->
  Py.contains addr ">" = false ->
  addr <> "" ->
  email_part_of data = PyText.strip addr
  /\ (email_validator data = Valid <-> address_shape (PyText.strip addr)).
Proof.
  intros E Hn1 Hn2 Ha Hne.
  pose proof (email_part_of_bracketed data name addr rest E Hn1 Hn2 Ha Hne) as P.
  split; [exact P|].
  unfold email_validator. rewrite P.
  pose proof (email_re_on_stripped addr) as M.
  destruct (PyText.fullmatch email_re (PyText.strip addr)).
  - split; [intros _; now apply M|reflexivity].
  - split; [discriminate|]. intros H. apply M in H. discriminate.
Qed.

(** * sorted(..., reverse=True) *)

Lemma insert_reverse_perm {A : Type} (key : A -> nat) (x : A) (l : list A) :
  Permutation (insert_reverse key x l) (x :: l).
Proof.
  induction l as [|y l IH]; simpl; [reflexivity|].
  destruct (key x <? key y)%nat; [|reflexivity].
  rewrite IH. apply perm_swap.
Qed.

Lemma sorted_reverse_perm {A : Type} (key : A -> nat) (l : list A) :
  Permutation (sorted_reverse key l) l.
Proof.
  induction l as [|x l IH]; simpl; [reflexivity|].
  rewrite insert_reverse_perm. now constructor.
Qed.

Lemma sorted_reverse_length {A : Type} (key : A -> nat) (l : list A) :
  length (sorted_reverse key l) = length l.
Proof. apply Permutation_length, sorted_reverse_perm. Qed.

Lemma sorted_reverse_In {A : Type} (key : A -> nat) (l : list A) (x : A) :
  In x (sorted_reverse key l) <-> In x l.
Proof.
  split; apply Permutation_in; [|symmetry]; apply sorted_reverse_perm.
Qed.

Lemma insert_reverse_sorted {A : Type} (key : A -> nat) (x : A) (l : list A) :
  StronglySorted (fun a b => key b <= key a) l ->
  StronglySorted (fun a b => key b <= key a) (insert_reverse key x l).
Proof.
  induction l as [|y l IH]; simpl; intros H.
  - constructor; constructor.
  - inversion H as [|? ? Hl Hy]; subst.
    destruct (key x <? key y)%nat eqn:E.
    + apply Nat.ltb_lt in E. constructor; [auto|].
      rewrite Forall_forall in *. intros z Hz.
      apply (Permutation_in _ (insert_reverse_perm key x l)) in Hz as [<-|Hz]; [lia|auto].
    + apply Nat.ltb_ge in E. constructor; [exact H|].
      constructor; [exact E|]. rewrite Forall_forall in *. intros z Hz.
      specialize (Hy z Hz). lia.
Qed.

Lemma sorted_reverse_sorted {A : Type} (key : A -> nat) (l : list A) :
  StronglySorted (fun a b => key b <= key a) (sorted_reverse key l).
Proof.
  induction l as [|x l IH]; simpl; [constructor|].
  now apply insert_reverse_sorted.
Qed.

(** A list that is in descending order already is left as it is: the
    sort is stable. *)
Lemma sorted_reverse_fixed {A : Type} (key : A -> nat) (l : list A) :
  StronglySorted (fun a b => key b <= key a) l -> sorted_reverse key l = l.
Proof.
  induction 1 as [|x l Hl IH Hx]; simpl; [reflexivity|].
  rewrite IH. destruct l as [|y l]; [reflexivity|]. simpl.
  inversion Hx as [|? ? Hy _]; subst.
  replace (key x <? key y)%nat with false; [reflexivity|].
  symmetry. apply Nat.ltb_ge. exact Hy.
Qed.

Lemma insert_reverse_app {A : Type} (key : A -> nat) (x : A) (a b : list A) :
  Forall (fun y => key x < key y) a ->
  insert_reverse key x (a ++ b) = (a ++ insert_reverse key x b)%list.
Proof.
  induction 1 as [|y a Hy Ha IH]; simpl; [reflexivity|].
  apply Nat.ltb_lt in Hy. rewrite Hy, IH. reflexivity.
Qed.

(** Sorting by a flag puts the flagged elements first and keeps the order
    within the two groups. *)
Lemma sorted_reverse_flag {A : Type} (p : A -> bool) (l : list A) :
  sorted_reverse (fun x => if p x then 1 else 0) l
  = (filter p l ++ filter (fun x => negb (p x)) l)%list.
Proof.
  induction l as [|x l IH]; simpl; [reflexivity|].
  rewrite IH. destruct (p x) eqn:Px; simpl.
  - destruct (filter p l ++ filter (fun y => negb (p y)) l)%list as [|y r]; simpl;
      [reflexivity|].
    rewrite Px. destruct (p y); reflexivity.
  - rewrite insert_reverse_app.
    + f_equal. destruct (filter (fun y => negb (p y)) l) as [|y r] eqn:F; simpl;
        [reflexivity|].
      assert (Hy : negb (p y) = true).
      { assert (In y (filter (fun y => negb (p y)) l)) by (rewrite F; now left).
        now apply filter_In in H. }
      rewrite Px. apply negb_true_iff in Hy. rewrite Hy. reflexivity.
    + apply Forall_forall. intros y Hy. apply filter_In in Hy as [_ Hy].
      rewrite Px, Hy. lia.
Qed.

(** * The contact manager *)

Section ContactFacts.

Variable app : App.

Lemma generate_reverse_alias_step (n : nat) (prev : option string) (w : World) :
  generate_reverse_alias app (S n) prev w =
  match ForwardEmail_get_by_reply_email w (reverse_alias_sample app (random_calls w)) with
  | None => (Some (reverse_alias_sample app (random_calls w)),
             with_random_calls (S (random_calls w)) w)
  | Some _ => generate_reverse_alias app n (Some (reverse_alias_sample app (random_calls w)))
                                     (with_random_calls (S (random_calls w)) w)
  end.
Proof. reflexivity. Qed.

Lemma generate_reverse_alias_run (n : nat) :
  forall (prev : option string) (w : World),
    exists j,
      j < S n
      /\ (unused_reply_email w (reverse_alias_sample app (random_calls w + j)) \/ j = n)
      /\ generate_reverse_alias app (S n) prev w
         = (Some (reverse_alias_sample app (random_calls w + j)),
            with_random_calls (random_calls w + j + 1) w).
Proof.
  induction n as [|n IH]; intros prev w; rewrite generate_reverse_alias_step;
    destruct (ForwardEmail_get_by_reply_email _ _) as [f|] eqn:E.
  - exists 0. rewrite !Nat.add_0_r, Nat.add_1_r. split; [lia|]. split; [now right|reflexivity].
  - exists 0. rewrite !Nat.add_0_r, Nat.add_1_r. split; [lia|]. split; [|reflexivity].
    left. apply get_by_reply_email_none_unused. exact E.
  - destruct (IH (Some (reverse_alias_sample app (random_calls w)))
                 (with_random_calls (S (random_calls w)) w)) as (j & Hj & Hlast & Hrun).
    change (random_calls (with_random_calls (S (random_calls w)) w))
      with (S (random_calls w)) in *.
    change (unused_reply_email (with_random_calls (S (random_calls w)) w))
      with (unused_reply_email w) in *.
    exists (S j). split; [lia|].
    replace (random_calls w + S j) with (S (random_calls w) + j) by lia.
    split; [destruct Hlast as [Hu| ->]; [left; exact Hu|now right]|].
    rewrite Hrun. reflexivity.
  - exists 0. rewrite !Nat.add_0_r, Nat.add_1_r. split; [lia|]. split; [|reflexivity].
    left. apply get_by_reply_email_none_unused. exact E.
Qed.

(** The world after the contact of [data] was added to the alias, the j-th
    sample from now on being the reverse alias. *)
Lemma create_contact_run (alias_id : nat) (gen_email : GenEmail) (data : string) (s : Site) :
  exists j,
    j < 1000
    /\ (unused_reply_email (site_db s)
          (reverse_alias_sample app (random_calls (site_db s) + j)) \/ j = 999)
    /\ create_contact app alias_id gen_email data s
       = let w := with_random_calls (random_calls (site_db s) + j + 1) (site_db s) in
         let website_email := get_email_part app (Some (PyText.strip data)) in
         match ForwardEmail_get_by (site_db s) (ge_id gen_email) website_email with
         | Some _ =>
             (RedirectContactManager alias_id None None,
              flash (website_email ++ " is already added") "error" (with_site_db w s))
         | None =>
             let forward_email :=
               new_contact app (site_db s) gen_email (PyText.strip data)
                           (reverse_alias_sample app (random_calls (site_db s) + j)) in
             (RedirectContactManager alias_id (Some (fe_id forward_email)) (Some gen_email),
              flash ("Reverse alias for " ++ PyText.strip data ++ " is created") "success"
                    (with_site_db
                       (with_commits (S (commits w))
                          (with_forward_emails (forward_emails w ++ [forward_email])%list w))
                       s))
         end.
Proof.
  destruct (generate_reverse_alias_run 999 None (site_db s)) as (j & Hj & Hlast & Hrun).
  exists j. split; [exact Hj|]. split; [exact Hlast|].
  unfold create_contact. rewrite Hrun. cbv zeta.
  change (ForwardEmail_get_by (with_random_calls (random_calls (site_db s) + j + 1) (site_db s)))
    with (ForwardEmail_get_by (site_db s)).
  destruct (ForwardEmail_get_by (site_db s) (ge_id gen_email) _); reflexivity.
Qed.

Lemma GenEmail_get_id (w : World) (id : nat) (g : GenEmail) :
  GenEmail_get w id = Some g -> ge_id g = id /\ In g (gen_emails w).
Proof.
  intros H. apply first_by_some_in in H as [Hin H]. apply Nat.eqb_eq in H. auto.
Qed.

Lemma ForwardEmail_get_id (w : World) (id : nat) (f : ForwardEmail) :
  ForwardEmail_get w (Some id) = Some f -> fe_id f = id /\ In f (forward_emails w).
Proof.
  intros H. apply first_by_some_in in H as [Hin H]. apply Nat.eqb_eq in H. auto.
Qed.

Lemma unique_ids_filter (keep : ForwardEmail -> bool) (rows : list ForwardEmail) :
  NoDup (map fe_id rows) -> NoDup (map fe_id (filter keep rows)).
Proof.
  induction rows as [|row rows IH]; simpl; intros H; [constructor|].
  inversion H as [|? ? Hrow Hrows]; subst.
  destruct (keep row); simpl; [constructor|]; auto.
  intros Hin. apply Hrow. apply in_map_iff in Hin as (y & Ey & Hy).
  apply filter_In in Hy as [Hy _]. apply in_map_iff. eauto.
Qed.

Lemma NoDup_map_eq {A B : Type} (f : A -> B) (l : list A) (x y : A) :
  NoDup (map f l) -> In x l -> In y l -> f x = f y -> x = y.
Proof.
  induction l as [|z l IH]; simpl; intros H Hx Hy E; [contradiction|].
  inversion H as [|? ? Hz Hl]; subst.
  destruct Hx as [->|Hx], Hy as [->|Hy]; auto.
  - elim Hz. rewrite E. now apply in_map.
  - elim Hz. rewrite <- E. now apply in_map.
Qed.

(** What a request to the contact manager does to the database: nothing,
    or, for the user who has the alias, a sample drawn and maybe a contact
    added, or a mapping of the alias removed. *)
Lemma alias_contact_manager_db (req : Request) (alias_id : nat)
    (forward_email_id : option nat) (s : Site) :
  let w := site_db s in
  let w' := site_db (snd (alias_contact_manager app req alias_id forward_email_id s)) in
  w' = w
  \/ (exists gen_email data j,
        GenEmail_get w alias_id = Some gen_email
        /\ current_user req = Some (user_id (ge_user gen_email))
        /\ form_email req = Some data
        /\ NewContactForm_validate req = true
        /\ j < 1000
        /\ (unused_reply_email w (reverse_alias_sample app (random_calls w + j)) \/ j = 999)
        /\ let w1 := with_random_calls (random_calls w + j + 1) w in
           match ForwardEmail_get_by w (ge_id gen_email)
                                     (get_email_part app (Some (PyText.strip data))) with
           | Some _ => w' = w1
           | None =>
               w' = with_commits
                      (S (commits w1))
                      (with_forward_emails
                         (forward_emails w1
                          ++ [new_contact app w gen_email (PyText.strip data)
                                (reverse_alias_sample app (random_calls w + j))])%list w1)
           end)
  \/ (exists gen_email forward_email id,
        GenEmail_get w alias_id = Some gen_email
        /\ current_user req = Some (user_id (ge_user gen_email))
        /\ form_forward_email_id req = Some id
        /\ ForwardEmail_get w (Some id) = Some forward_email
        /\ fe_gen_email_id forward_email = ge_id gen_email
        /\ w' = with_commits (S (commits w)) (ForwardEmail_delete id w)).
Proof.
  cbv zeta. unfold alias_contact_manager.
  destruct (current_user req) as [u|] eqn:U; [|now left].
  destruct (GenEmail_get (site_db s) alias_id) as [g|] eqn:G; [|now left].
  destruct (Nat.eqb (user_id (ge_user g)) u) eqn:Hu; [|now left].
  apply Nat.eqb_eq in Hu. subst u. cbv beta iota. simpl negb. cbv iota.
  destruct (String.eqb (method req) "POST"); [|now left].
  destruct (header_eqb (form_name req) (Some "create")).
  - destruct (NewContactForm_validate req) eqn:V; [|now left].
    destruct (form_email req) as [data|] eqn:D; [|now left].
    right; left. destruct (create_contact_run alias_id g data s) as (j & Hj & Hlast & Hrun).
    exists g, data, j. repeat (split; [solve [auto]|]).
    rewrite Hrun. cbv zeta.
    destruct (ForwardEmail_get_by (site_db s) (ge_id g) _); reflexivity.
  - destruct (header_eqb (form_name req) (Some "delete")); [|now left].
    unfold delete_contact.
    destruct (form_forward_email_id req) as [id|] eqn:I; [|now left].
    destruct (ForwardEmail_get (site_db s) (Some id)) as [fe|] eqn:F; [|now left].
    destruct (Nat.eqb (fe_gen_email_id fe) (ge_id g)) eqn:Own; [|now left].
    apply Nat.eqb_eq in Own. right; right. exists g, fe, id. auto 10.
Qed.

Lemma new_contact_fresh (w : World) (g : GenEmail) (contact_email reply_email : string) :
  ~ In (fe_id (new_contact app w g contact_email reply_email)) (map fe_id (forward_emails w)).
Proof.
  intros Hin. pose proof (next_id_fresh (map fe_id (forward_emails w))) as F.
  rewrite Forall_forall in F. apply (F _ Hin). reflexivity.
Qed.

(** X14: the contact manager changes nothing but mappings of the alias of
    the request, and those only for the user who has that alias.  Whatever
    the request, aliases, log, directories, custom domains, notifications
    and outbox are left as they were; a mapping that is gone after the
    request, and a mapping that is new after it, is a mapping of the alias
    [alias_id], and the logged-in user is the one that alias belongs to. *)
Theorem alias_contact_manager_own_mappings_only (req : Request) (alias_id : nat)
    (forward_email_id : option nat) (s : Site) :
  mapping_ids_unique (site_db s) ->
  let w := site_db s in
  let w' := site_db (snd (alias_contact_manager app req alias_id forward_email_id s)) in
  same_but_mappings w w'
  /\ (forall f, In f (forward_emails w) ->
                In f (forward_emails w')
                \/ (fe_gen_email_id f = alias_id /\ manages w (current_user req) alias_id))
  /\ (forall f, In f (forward_emails w') ->
                In f (forward_emails w)
                \/ (fe_gen_email_id f = alias_id /\ manages w (current_user req) alias_id)).
Proof.
  intros Hids. cbv zeta.
  destruct (alias_contact_manager_db req alias_id forward_email_id s)
    as [E|[(g & data & j & G & U & D & V & Hj & Hlast & E)
          |(g & fe & id & G & U & I & F & Own & E)]].
  - rewrite E. unfold same_but_mappings. auto 10.
  - cbv zeta in E.
    destruct (ForwardEmail_get_by (site_db s) (ge_id g) _); rewrite E.
    + unfold same_but_mappings. simpl. auto 10.
    + split; [unfold same_but_mappings; simpl; auto 10|]. simpl. split.
      * intros f Hf. left. apply in_or_app. now left.
      * intros f Hf. apply in_app_or in Hf as [Hf|[<-|[]]]; [now left|right].
        split; [exact (proj1 (GenEmail_get_id _ _ _ G))|]. exists g. auto.
  - rewrite E. split; [unfold same_but_mappings; simpl; auto 10|]. simpl. split.
    + intros f Hf. destruct (Nat.eqb (fe_id f) id) eqn:Hid.
      * right. apply Nat.eqb_eq in Hid.
        destruct (ForwardEmail_get_id _ _ _ F) as [Hfe Hin].
        assert (f = fe) as ->.
        { apply (NoDup_map_eq fe_id (forward_emails (site_db s))); auto. congruence. }
        split; [rewrite Own; exact (proj1 (GenEmail_get_id _ _ _ G))|]. exists g. auto.
      * left. apply filter_In. rewrite Hid. auto.
    + intros f Hf. apply filter_In in Hf as [Hf _]. now left.
Qed.

Lemma filter_filter_length {A : Type} (p q : A -> bool) (l : list A) :
  length (filter p (filter q l)) <= length (filter p l).
Proof.
  induction l as [|x l IH]; simpl; [lia|].
  destruct (q x); simpl; destruct (p x); simpl; lia.
Qed.

Lemma reverse_alias_sample_shape (k : nat) :
  Py.startswith (reverse_alias_sample app k) "ra+" = true
  /\ Py.endswith (reverse_alias_sample app k) (EMAIL_DOMAIN app) = true.
Proof.
  split; [apply prefix_append|].
  unfold reverse_alias_sample.
  replace ("ra+" ++ random_string app k 25 ++ "@" ++ EMAIL_DOMAIN app)
    with (("ra+" ++ random_string app k 25 ++ "@") ++ EMAIL_DOMAIN app)
    by (rewrite !PyTextFacts.append_assoc; reflexivity).
  apply endswith_append.
Qed.

(** X15: the contact manager keeps the store well formed.  Whatever the
    request, a store with at most one mapping per alias and correspondent
    stays such a store (the test of line 162 stands before the creation), the
    keys of the mappings stay unique, and the reply addresses, all ending
    with [EMAIL_DOMAIN], stay so: what the view adds is an address the
    reply pipeline takes. *)
Theorem alias_contact_manager_keeps_store (req : Request) (alias_id : nat)
    (forward_email_id : option nat) (s : Site) :
  let w := site_db s in
  let w' := site_db (snd (alias_contact_manager app req alias_id forward_email_id s)) in
  (one_mapping_per_pair w -> one_mapping_per_pair w')
  /\ (mapping_ids_unique w -> mapping_ids_unique w')
  /\ (reply_addresses_end_with (EMAIL_DOMAIN app) w ->
      reply_addresses_end_with (EMAIL_DOMAIN app) w').
Proof.
  cbv zeta.
  destruct (alias_contact_manager_db req alias_id forward_email_id s)
    as [E|[(g & data & j & G & U & D & V & Hj & Hlast & E)
          |(g & fe & id & G & U & I & F & Own & E)]].
  - rewrite E. auto.
  - cbv zeta in E.
    destruct (ForwardEmail_get_by (site_db s) (ge_id g) _) eqn:B; rewrite E.
    + auto.
    + split; [|split].
      * intros H g' we'. unfold mappings_of. simpl.
        apply one_mapping_append; [exact B|apply H].
      * unfold mapping_ids_unique. simpl. intros H. rewrite map_app. simpl.
        apply NoDup_snoc; [exact H|].
        exact (new_contact_fresh (site_db s) g (PyText.strip data)
                 (reverse_alias_sample app (random_calls (site_db s) + j))).
      * unfold reply_addresses_end_with. simpl. intros H f Hf.
        apply in_app_or in Hf as [Hf|[<-|[]]]; [now apply H|].
        apply reverse_alias_sample_shape.
  - rewrite E. split; [|split].
    + intros H g' we'. unfold mappings_of. simpl.
      etransitivity; [apply filter_filter_length|apply H].
    + unfold mapping_ids_unique. simpl. apply unique_ids_filter.
    + unfold reply_addresses_end_with. simpl. intros H f Hf.
      apply filter_In in Hf as [Hf _]. now apply H.
Qed.

Lemma alias_contact_manager_create_unfold (req : Request) (alias_id : nat)
    (forward_email_id : option nat) (s : Site) (gen_email : GenEmail) (data : string) :
  GenEmail_get (site_db s) alias_id = Some gen_email ->
  current_user req = Some (user_id (ge_user gen_email)) ->
  method req = "POST" ->
  form_name req = Some "create" ->
  form_email req = Some data ->
  NewContactForm_validate req = true ->
  alias_contact_manager app req alias_id forward_email_id s
  = create_contact app alias_id gen_email data s.
Proof.
  intros G U M N D V. unfold alias_contact_manager.
  rewrite U, G, Nat.eqb_refl, M, N, V, D. reflexivity.
Qed.

Lemma validate_address_shape (req : Request) (data : string) :
  form_email req = Some data ->
  NewContactForm_validate req = true ->
  form_csrf_valid req = true
  /\ PyText.strip data <> ""
  /\ email_validator data = Valid.
Proof.
  unfold NewContactForm_validate, data_required. intros ->  H.
  apply andb_true_iff in H as [Hc H]. apply andb_true_iff in H as [Hd H].
  split; [exact Hc|]. split.
  - intros E. rewrite E in Hd. discriminate.
  - destruct (email_validator data); [reflexivity|discriminate].
Qed.

(** X16: adding a contact.  For the user who has the alias, a POST of the
    form "create" that validates carries a text whose address part has the
    shape of an address; if the alias has a mapping for the address
    [get_email_part] reads from the stripped text, no mapping is made and
    "... is already added" is flashed; else exactly one mapping is appended,
    for that alias and that address, with the stripped text as
    [website_from], a key no mapping had, and a reverse alias that begins
    with "ra+" and ends with [EMAIL_DOMAIN]; the redirect names the new
    mapping, and a later lookup of the pair finds it. *)
Theorem alias_contact_manager_create (req : Request) (alias_id : nat)
    (forward_email_id : option nat) (s : Site) (gen_email : GenEmail) (data : string) :
  GenEmail_get (site_db s) alias_id = Some gen_email ->
  current_user req = Some (user_id (ge_user gen_email)) ->
  method req = "POST" ->
  form_name req = Some "create" ->
  form_email req = Some data ->
  NewContactForm_validate req = true ->
  let w := site_db s in
  let website_email := get_email_part app (Some (PyText.strip data)) in
  let out := alias_contact_manager app req alias_id forward_email_id s in
  let w' := site_db (snd out) in
  address_shape (email_part_of data)
  /\ (ForwardEmail_get_by w alias_id website_email <> None ->
      fst out = RedirectContactManager alias_id None None
      /\ forward_emails w' = forward_emails w
      /\ flashed (snd out)
         = (flashed s ++ [mkFlash (website_email ++ " is already added") "error"])%list)
  /\ (ForwardEmail_get_by w alias_id website_email = None ->
      exists f,
        forward_emails w' = (forward_emails w ++ [f])%list
        /\ fe_gen_email_id f = alias_id
        /\ fe_website_email f = website_email
        /\ fe_website_from f = Some (PyText.strip data)
        /\ ~ In (fe_id f) (map fe_id (forward_emails w))
        /\ Py.startswith (fe_reply_email f) "ra+" = true
        /\ Py.endswith (fe_reply_email f) (EMAIL_DOMAIN app) = true
        /\ fst out = RedirectContactManager alias_id (Some (fe_id f)) (Some gen_email)
        /\ flashed (snd out)
           = (flashed s
              ++ [mkFlash ("Reverse alias for " ++ PyText.strip data ++ " is created")
                          "success"])%list
        /\ ForwardEmail_get_by w' alias_id website_email = Some f).
Proof.
  intros G U M N D V. cbv zeta.
  destruct (validate_address_shape req data D V) as (_ & _ & Hv).
  split; [now apply email_validator_accepts_shape|].
  rewrite (alias_contact_manager_create_unfold req alias_id forward_email_id s gen_email data
             G U M N D V).
  destruct (GenEmail_get_id _ _ _ G) as [Hid _].
  destruct (create_contact_run alias_id gen_email data s) as (j & Hj & Hlast & Hrun).
  rewrite Hrun, Hid. cbv zeta.
  destruct (ForwardEmail_get_by (site_db s) alias_id _) as [old|] eqn:B.
  - split; [intros _|intros H; discriminate]. simpl. auto.
  - split; [intros H; congruence|intros _].
    eexists. simpl. split; [reflexivity|].
    split; [exact Hid|]. split; [reflexivity|]. split; [reflexivity|].
    split; [exact (new_contact_fresh (site_db s) gen_email (PyText.strip data)
                     (reverse_alias_sample app (random_calls (site_db s) + j)))|].
    split; [apply reverse_alias_sample_shape|].
    split; [apply reverse_alias_sample_shape|].
    split; [reflexivity|]. split; [reflexivity|].
    unfold ForwardEmail_get_by, first_by in *. simpl.
    apply find_app_new; [exact B|].
    unfold for_pair. simpl. rewrite Hid, Nat.eqb_refl, String.eqb_refl. reflexivity.
Qed.

Lemma filter_fresh_id (l : list ForwardEmail) (f : ForwardEmail) :
  ~ In (fe_id f) (map fe_id l) ->
  filter (fun x => negb (Nat.eqb (fe_id x) (fe_id f))) (l ++ [f])%list = l.
Proof.
  intros H. rewrite filter_app. simpl. rewrite Nat.eqb_refl. simpl. rewrite app_nil_r.
  induction l as [|x l IH]; simpl; [reflexivity|].
  destruct (Nat.eqb (fe_id x) (fe_id f)) eqn:E.
  - apply Nat.eqb_eq in E. elim H. left. exact E.
  - simpl. f_equal. apply IH. intros Hin. apply H. now right.
Qed.

Lemma find_fresh_id (l : list ForwardEmail) (f : ForwardEmail) :
  ~ In (fe_id f) (map fe_id l) ->
  find (fun x => Nat.eqb (fe_id x) (fe_id f)) (l ++ [f])%list = Some f.
Proof.
  intros H. apply find_app_new; [|apply Nat.eqb_refl].
  destruct (find _ l) as [x|] eqn:E; [|reflexivity].
  apply find_some in E as [Hin E]. apply Nat.eqb_eq in E.
  elim H. rewrite <- E. now apply in_map.
Qed.

(** X17: a contact added and then deleted leaves the mappings as they
    were.  After the user who has the alias added a contact the alias did
    not have, a POST of the form "delete" by that user with the key the
    redirect named removes that mapping and no other: the table of mappings
    is the one before the two requests, and "... has been deleted" is
    flashed with the text the contact was entered as. *)
Theorem alias_contact_manager_create_then_delete (req1 req2 : Request) (alias_id : nat)
    (id1 id2 : option nat) (s : Site) (gen_email : GenEmail) (data : string) :
  GenEmail_get (site_db s) alias_id = Some gen_email ->
  current_user req1 = Some (user_id (ge_user gen_email)) ->
  method req1 = "POST" ->
  form_name req1 = Some "create" ->
  form_email req1 = Some data ->
  NewContactForm_validate req1 = true ->
  ForwardEmail_get_by (site_db s) alias_id (get_email_part app (Some (PyText.strip data)))
  = None ->
  current_user req2 = current_user req1 ->
  method req2 = "POST" ->
  form_name req2 = Some "delete" ->
  let out1 := alias_contact_manager app req1 alias_id id1 s in
  fst out1 = RedirectContactManager alias_id (form_forward_email_id req2) (Some gen_email) ->
  let out2 := alias_contact_manager app req2 alias_id id2 (snd out1) in
  fst out2 = RedirectContactManager alias_id None None
  /\ forward_emails (site_db (snd out2)) = forward_emails (site_db s)
  /\ flashed (snd out2)
     = (flashed (snd out1)
        ++ [mkFlash ("Reverse-alias for " ++ PyText.strip data ++ " has been deleted")
                    "success"])%list.
Proof.
  intros G U M N D V B U2 M2 N2. cbv zeta.
  rewrite (alias_contact_manager_create_unfold req1 alias_id id1 s gen_email data
             G U M N D V).
  destruct (GenEmail_get_id _ _ _ G) as [Hid _].
  destruct (create_contact_run alias_id gen_email data s) as (j & Hj & Hlast & Hrun).
  rewrite Hrun, Hid. cbv zeta. rewrite B.
  pose proof (new_contact_fresh (site_db s) gen_email (PyText.strip data)
                (reverse_alias_sample app (random_calls (site_db s) + j))) as Hfresh.
  set (f := new_contact app (site_db s) gen_email (PyText.strip data)
              (reverse_alias_sample app (random_calls (site_db s) + j))) in *.
  set (w1 := with_random_calls (random_calls (site_db s) + j + 1) (site_db s)).
  set (w2 := with_commits (S (commits w1))
               (with_forward_emails (forward_emails w1 ++ [f])%list w1)).
  set (s1 := flash ("Reverse alias for " ++ PyText.strip data ++ " is created") "success"
               (with_site_db w2 s)).
  cbn [fst snd]. intros Hredirect. injection Hredirect as Hkey.
  change (Some (fe_id f) = form_forward_email_id req2) in Hkey.
  assert (E2 : alias_contact_manager app req2 alias_id id2 s1
               = (RedirectContactManager alias_id None None,
                  flash ("Reverse-alias for " ++ PyText.strip data ++ " has been deleted")
                        "success"
                        (with_site_db (with_commits (S (commits w2))
                                         (ForwardEmail_delete (fe_id f) w2)) s1))).
  { unfold alias_contact_manager. rewrite U2, U.
    change (GenEmail_get (site_db s1) alias_id) with (GenEmail_get (site_db s) alias_id).
    rewrite G, Nat.eqb_refl, M2, String.eqb_refl, N2. cbv beta iota.
    change (negb true) with false. cbv iota.
    change (header_eqb (Some "delete") (Some "create")) with false. cbv iota.
    change (header_eqb (Some "delete") (Some "delete")) with true. cbv iota.
    unfold delete_contact. rewrite <- Hkey.
    unfold ForwardEmail_get, first_by.
    change (forward_emails (site_db s1)) with (forward_emails (site_db s) ++ [f])%list.
    rewrite (find_fresh_id _ f Hfresh).
    change (fe_gen_email_id f) with (ge_id gen_email). rewrite Nat.eqb_refl.
    change (negb true) with false. cbv iota. reflexivity. }
  rewrite E2. cbn [fst snd]. split; [reflexivity|]. split; [|reflexivity].
  unfold flash, with_site_db, ForwardEmail_delete. cbn [site_db].
  change (forward_emails (with_commits (S (commits w2))
            (with_forward_emails
               (filter (fun x => negb (Nat.eqb (fe_id x) (fe_id f))) (forward_emails w2)) w2)))
    with (filter (fun x => negb (Nat.eqb (fe_id x) (fe_id f)))
                 (forward_emails (site_db s) ++ [f])%list).
  apply filter_fresh_id. exact Hfresh.
Qed.

(** X18: the page of the contact manager.  For the user who has the alias,
    a request that is no POST changes nothing and lists the mappings of that
    alias and no others; with a mapping to highlight (a key other than 0 in
    the address of the page) the mappings with that key come first and the
    rest follow, both in the order of the table; without one the order of
    the table is kept. *)
Theorem alias_contact_manager_page (req : Request) (alias_id : nat)
    (forward_email_id : option nat) (s : Site) (gen_email : GenEmail) :
  GenEmail_get (site_db s) alias_id = Some gen_email ->
  current_user req = Some (user_id (ge_user gen_email)) ->
  method req <> "POST" ->
  exists l,
    alias_contact_manager app req alias_id forward_email_id s
    = (RenderContactManager l gen_email forward_email_id, s)
    /\ (forall f, In f l <-> In f (forward_emails (site_db s)) /\ fe_gen_email_id f = alias_id)
    /\ (forall h, forward_email_id = Some h -> h <> 0 ->
                  l = (filter (fun f => Nat.eqb (fe_id f) h)
                              (forward_emails_of (site_db s) gen_email)
                       ++ filter (fun f => negb (Nat.eqb (fe_id f) h))
                                 (forward_emails_of (site_db s) gen_email))%list)
    /\ (forward_email_id = None \/ forward_email_id = Some 0 ->
        l = forward_emails_of (site_db s) gen_email).
Proof.
  intros G U M. apply String.eqb_neq in M.
  destruct (GenEmail_get_id _ _ _ G) as [Hid _].
  assert (Hin : forall f, In f (forward_emails_of (site_db s) gen_email)
                          <-> In f (forward_emails (site_db s)) /\ fe_gen_email_id f = alias_id).
  { intros f. unfold forward_emails_of. rewrite filter_In, Nat.eqb_eq, Hid. reflexivity. }
  unfold alias_contact_manager. rewrite U, G, Nat.eqb_refl, M. cbv beta iota.
  change (negb true) with false. cbv iota. unfold contact_page.
  eexists. split; [reflexivity|].
  destruct forward_email_id as [[|h]|].
  - split; [exact Hin|]. split; [intros h E; injection E as <-; congruence|reflexivity].
  - split; [|split].
    + intros f. rewrite sorted_reverse_In. apply Hin.
    + intros h' E Hh. injection E as <-. apply sorted_reverse_flag.
    + intros [E|E]; discriminate.
  - split; [exact Hin|]. split; [intros h E; discriminate|reflexivity].
Qed.

(** X19: a contact added in the dashboard can be written to through the
    relay.  After the user who has the alias A (of a domain the service
    knows) added the contact C, the store has a mapping of A and C, and,
    reply addresses being unique, a message from A's mailbox to the reverse
    alias of that mapping, carrying the From and To headers, is taken by
    [handle_DATA] as a reply: it answers 250 and makes exactly one transport
    call, from A to C, with From set to A and To set to C. *)
Theorem contact_then_reply (req : Request) (alias_id : nat)
    (forward_email_id : option nat) (s : Site) (gen_email : GenEmail) (data : string) :
  GenEmail_get (site_db s) alias_id = Some gen_email ->
  current_user req = Some (user_id (ge_user gen_email)) ->
  method req = "POST" ->
  form_name req = Some "create" ->
  form_email req = Some data ->
  NewContactForm_validate req = true ->
  alias_domain_known app (site_db s) (ge_email gen_email) ->
  let C := get_email_part app (Some (PyText.strip data)) in
  ForwardEmail_get_by (site_db s) alias_id C = None ->
  let w' := site_db (snd (alias_contact_manager app req alias_id forward_email_id s)) in
  exists f,
    ForwardEmail_get_by w' alias_id C = Some f
    /\ forall envelope r rest,
         reply_addresses_unique w' ->
         rcpt_tos envelope = r :: rest ->
         Py.lower r = fe_reply_email f ->
         Py.lower (mail_from envelope) = Py.lower (mailbox_email_of gen_email) ->
         msg_get (parsestr app (content envelope)) "From" <> None ->
         msg_get (parsestr app (content envelope)) "To" <> None ->
         exists c2,
           handle_DATA app envelope w' = (Ok "250 Message accepted for delivery", c2)
           /\ msg_get (msg c2) "From" = Some (ge_email gen_email)
           /\ msg_get (msg c2) "To" = Some C
           /\ outbox (db c2)
              = (outbox w' ++ [mkSendmail (ge_email gen_email) C (as_string (msg c2))
                                          (mail_options envelope)
                                          (rcpt_options envelope)])%list.
Proof.
  intros G U M N D V Hknown C B. cbv zeta.
  rewrite (alias_contact_manager_create_unfold req alias_id forward_email_id s gen_email data
             G U M N D V).
  destruct (GenEmail_get_id _ _ _ G) as [Hid _].
  destruct (create_contact_run alias_id gen_email data s) as (j & Hj & Hlast & Hrun).
  rewrite Hrun, Hid. cbv zeta. fold C. rewrite B.
  set (f := new_contact app (site_db s) gen_email (PyText.strip data)
              (reverse_alias_sample app (random_calls (site_db s) + j))).
  set (w1 := with_random_calls (random_calls (site_db s) + j + 1) (site_db s)).
  set (w2 := with_commits (S (commits w1))
               (with_forward_emails (forward_emails w1 ++ [f])%list w1)).
  cbn [snd site_db flash with_site_db].
  assert (Hfound : ForwardEmail_get_by w2 alias_id C = Some f).
  { unfold ForwardEmail_get_by, first_by in *.
    change (forward_emails w2) with (forward_emails (site_db s) ++ [f])%list.
    apply find_app_new; [exact B|].
    unfold for_pair. change (fe_gen_email_id f) with (ge_id gen_email).
    change (fe_website_email f) with C. rewrite Hid, Nat.eqb_refl, String.eqb_refl.
    reflexivity. }
  exists f. split; [exact Hfound|].
  intros envelope r rest Huniq Hr Hlow Hsender HF HT.
  destruct (first_by_some_in _ _ _ Hfound) as [Hin _].
  destruct (reverse_alias_sample_shape (random_calls (site_db s) + j)) as [Hstart Hend].
  change (reverse_alias_sample app (random_calls (site_db s) + j))
    with (fe_reply_email f) in Hstart, Hend.
  rewrite <- Hlow in Hstart, Hend.
  rewrite (handle_DATA_unfold app envelope r rest w2 Hr), Hstart, orb_true_r.
  assert (Htoken : ForwardEmail_get_by_reply_email w2 (Py.lower r) = Some f).
  { rewrite Hlow. apply get_by_unique_reply_email; assumption. }
  assert (Halias : GenEmail_get w2 (fe_gen_email_id f) = Some gen_email).
  { change (fe_gen_email_id f) with (ge_id gen_email). rewrite Hid. exact G. }
  assert (Hknown2 : alias_domain_known app w2 (ge_email gen_email)) by exact Hknown.
  unfold parsed.
  rewrite (handle_reply_resolved app envelope r rest
             (mkCtx w2 (parsestr app (content envelope))) f gen_email
             Hr Hend Htoken Halias Hknown2).
  apply String.eqb_eq in Hsender. rewrite Hsender.
  change (negb true) with false. cbv beta iota.
  destruct (reply_relay_run app envelope gen_email f (Py.lower r)
              (mkCtx w2 (parsestr app (content envelope))) HF HT Hknown2)
    as (m' & Erun & HFrom & HTo).
  rewrite Erun. eexists. split; [reflexivity|]. simpl.
  split; [exact HFrom|]. split; [exact HTo|]. reflexivity.
Qed.

End ContactFacts.

(** * The activity log *)

Lemma firstn_add {A : Type} (a b : nat) (l : list A) :
  firstn (a + b) l = (firstn a l ++ firstn b (skipn a l))%list.
Proof.
  revert l. induction a as [|a IH]; intros l; [reflexivity|].
  destruct l as [|x l]; simpl.
  - now rewrite firstn_nil.
  - now rewrite IH.
Qed.

Lemma In_firstn {A : Type} (n : nat) (l : list A) (x : A) : In x (firstn n l) -> In x l.
Proof. intros H. rewrite <- (firstn_skipn n l). apply in_or_app. now left. Qed.

Lemma In_skipn {A : Type} (n : nat) (l : list A) (x : A) : In x (skipn n l) -> In x l.
Proof. intros H. rewrite <- (firstn_skipn n l). apply in_or_app. now right. Qed.

Lemma firstn_chunks {A : Type} (k n : nat) (l : list A) :
  flat_map (fun p => firstn k (skipn (p * k) l)) (seq 0 n) = firstn (n * k) l.
Proof.
  induction n as [|n IH]; [reflexivity|].
  rewrite seq_S, flat_map_app, IH. simpl. rewrite app_nil_r.
  replace (k + n * k) with (n * k + k) by lia. symmetry. apply firstn_add.
Qed.

Lemma Permutation_flat_map_ext {A B : Type} (f g : A -> list B) (l : list A) :
  (forall x, Permutation (f x) (g x)) -> Permutation (flat_map f l) (flat_map g l).
Proof.
  intros H. induction l as [|x l IH]; simpl; [reflexivity|].
  apply Permutation_app; auto.
Qed.

Lemma flat_map_map {A B C : Type} (f : B -> C) (g : A -> list B) (l : list A) :
  flat_map (fun x => map f (g x)) l = map f (flat_map g l).
Proof.
  induction l as [|x l IH]; simpl; [reflexivity|]. now rewrite map_app, IH.
Qed.

Lemma filter_partition_length {A : Type} (p q : A -> bool) (l : list A) :
  (forall x, In x l -> p x && q x = false) ->
  length l
  = length (filter (fun x => negb (q x)) (filter (fun x => negb (p x)) l))
    + length (filter p l) + length (filter q l).
Proof.
  induction l as [|x l IH]; intros H; [reflexivity|]. simpl.
  assert (Hx : p x && q x = false) by (apply H; now left).
  assert (Hl : forall y, In y l -> p y && q y = false) by (intros y Hy; apply H; now right).
  specialize (IH Hl).
  destruct (p x) eqn:Px, (q x) eqn:Qx; simpl in *; rewrite ?Qx; simpl;
    try discriminate; lia.
Qed.

Lemma StronglySorted_skipn {A : Type} (R : A -> A -> Prop) (n : nat) (l : list A) :
  StronglySorted R l -> StronglySorted R (skipn n l).
Proof.
  revert l. induction n as [|n IH]; intros l H; [exact H|].
  destruct l as [|x l]; [constructor|]. simpl. apply IH.
  now inversion H.
Qed.

Lemma StronglySorted_firstn {A : Type} (R : A -> A -> Prop) (n : nat) (l : list A) :
  StronglySorted R l -> StronglySorted R (firstn n l).
Proof.
  revert l. induction n as [|n IH]; intros l H; [constructor|].
  destruct l as [|x l]; [constructor|]. simpl.
  inversion H as [|? ? Hl Hx]; subst. constructor; [now apply IH|].
  rewrite Forall_forall in *. intros y Hy. apply Hx. exact (In_firstn _ _ _ Hy).
Qed.

Lemma StronglySorted_map {A B : Type} (R : A -> A -> Prop) (R' : B -> B -> Prop)
    (f : A -> B) (l : list A) :
  (forall a b, R a b -> R' (f a) (f b)) ->
  StronglySorted R l -> StronglySorted R' (map f l).
Proof.
  intros HR. induction 1 as [|x l Hl IH Hx]; simpl; constructor; [exact IH|].
  rewrite Forall_forall in *. intros y Hy. apply in_map_iff in Hy as (a & <- & Ha). auto.
Qed.

Section LogFacts.

Variable app : App.
Variable PAGE_LIMIT : nat.
Variable created_at : ForwardEmailLog -> nat.

Lemma alias_log_base_In (w : World) (gen_email : GenEmail)
    (r : ForwardEmail * ForwardEmailLog) :
  In r (alias_log_base w gen_email)
  <-> In (fst r) (forward_emails w)
      /\ In (snd r) (forward_email_logs w)
      /\ fe_id (fst r) = fel_forward_id (snd r)
      /\ fe_gen_email_id (fst r) = ge_id gen_email.
Proof.
  unfold alias_log_base. rewrite in_flat_map. split.
  - intros (fel & Hfel & Hr). apply in_map_iff in Hr as (fe & <- & Hfe).
    apply filter_In in Hfe as [Hfe Hb]. apply andb_true_iff in Hb as [H1 H2].
    apply Nat.eqb_eq in H1, H2. simpl. auto.
  - destruct r as [fe fel]. simpl. intros (Hfe & Hfel & H1 & H2).
    exists fel. split; [exact Hfel|]. apply in_map_iff. exists fe. split; [reflexivity|].
    apply filter_In. split; [exact Hfe|]. rewrite H1, H2, !Nat.eqb_refl. reflexivity.
Qed.

Lemma alias_log_page_In (w : World) (gen_email : GenEmail) (page_id : nat)
    (r : ForwardEmail * ForwardEmailLog) :
  In r (alias_log_page PAGE_LIMIT w gen_email page_id) -> In r (alias_log_base w gen_email).
Proof.
  unfold alias_log_page. intros H.
  apply In_firstn, In_skipn in H. now apply sorted_reverse_In in H.
Qed.

Lemma relay_all_keeps_logs_reply_or_blocked (envelopes : list Envelope) (w : World) :
  logs_reply_or_blocked w -> logs_reply_or_blocked (relay_all app envelopes w).
Proof.
  revert w. induction envelopes as [|e l IH]; intros w H; [exact H|].
  simpl. apply IH. now apply handle_DATA_keeps_logs_reply_or_blocked.
Qed.

Lemma alias_log_owner (req : Request) (alias_id page_id : nat) (s : Site)
    (gen_email : GenEmail) :
  GenEmail_get (site_db s) alias_id = Some gen_email ->
  current_user req = Some (user_id (ge_user gen_email)) ->
  alias_log PAGE_LIMIT created_at req alias_id page_id s
  = (RenderLog gen_email page_id
               (get_alias_log PAGE_LIMIT created_at (site_db s) gen_email page_id)
               (length (alias_log_base (site_db s) gen_email))
               (email_forwarded_of (alias_log_base (site_db s) gen_email))
               (email_replied_of (alias_log_base (site_db s) gen_email))
               (email_blocked_of (alias_log_base (site_db s) gen_email))
               (length (get_alias_log PAGE_LIMIT created_at (site_db s) gen_email page_id)
                <? PAGE_LIMIT)%nat,
     s).
Proof.
  intros G U. unfold alias_log. rewrite U, G, Nat.eqb_refl. reflexivity.
Qed.

(** X20: the numbers of the activity page add up.  On a store whose log
    the relay wrote (any sequence of envelopes taken by [handle_DATA], from
    a log in which no entry is at once a reply and blocked, the empty log
    for one), the page of the user who has the alias shows a total that is
    the sum of the three counters: every entry of the alias is counted as
    forwarded, as replied or as blocked, and none twice. *)
Theorem alias_log_counters_add_up (envelopes : list Envelope) (w0 : World)
    (req : Request) (alias_id page_id : nat) (s : Site) (gen_email : GenEmail) :
  logs_reply_or_blocked w0 ->
  site_db s = relay_all app envelopes w0 ->
  GenEmail_get (site_db s) alias_id = Some gen_email ->
  current_user req = Some (user_id (ge_user gen_email)) ->
  exists logs total email_forwarded email_replied email_blocked last_page,
    alias_log PAGE_LIMIT created_at req alias_id page_id s
    = (RenderLog gen_email page_id logs total email_forwarded email_replied email_blocked
                 last_page, s)
    /\ total = email_forwarded + email_replied + email_blocked
    /\ total = length (alias_log_base (site_db s) gen_email).
Proof.
  intros H0 Hs G U. rewrite (alias_log_owner req alias_id page_id s gen_email G U).
  do 6 eexists. split; [reflexivity|]. split; [|reflexivity].
  unfold email_forwarded_of, email_replied_of, email_blocked_of.
  apply (filter_partition_length (fun r => fel_is_reply (snd r))
                                 (fun r => fel_blocked (snd r))).
  intros r Hr. apply alias_log_base_In in Hr as (_ & Hfel & _).
  rewrite Hs in Hfel.
  exact (relay_all_keeps_logs_reply_or_blocked envelopes w0 H0 (snd r) Hfel).
Qed.

(** X21: the activity page shows the user's own alias and nothing else.
    Whatever the request, [alias_log] writes nothing to the database; a
    visitor who is not logged in is turned away, a user who asks for an
    alias that does not exist or is somebody else's is sent to the index
    with a warning, and the page that is shown is the one of an alias of
    the user: at most [PAGE_LIMIT] lines, latest first, each made from a
    log entry of a mapping of that alias. *)
Theorem alias_log_shows_own_alias_only (req : Request) (alias_id page_id : nat) (s : Site) :
  let out := alias_log PAGE_LIMIT created_at req alias_id page_id s in
  site_db (snd out) = site_db s
  /\ match fst out with
     | Unauthorized => current_user req = None /\ snd out = s
     | RedirectIndex =>
         ~ manages (site_db s) (current_user req) alias_id
         /\ flashed (snd out)
            = (flashed s ++ [mkFlash "You do not have access to this page" "warning"])%list
     | RenderLog gen_email _ logs _ _ _ _ _ =>
         GenEmail_get (site_db s) alias_id = Some gen_email
         /\ current_user req = Some (user_id (ge_user gen_email))
         /\ snd out = s
         /\ length logs <= PAGE_LIMIT
         /\ StronglySorted (fun a b => al_when b <= al_when a) logs
         /\ forall line, In line logs ->
              al_alias line = ge_email gen_email
              /\ exists fe fel,
                   In fe (forward_emails (site_db s))
                   /\ In fel (forward_email_logs (site_db s))
                   /\ fe_id fe = fel_forward_id fel
                   /\ fe_gen_email_id fe = alias_id
                   /\ line = alias_log_line created_at gen_email (fe, fel)
     | _ => False
     end.
Proof.
  cbv zeta. unfold alias_log.
  destruct (current_user req) as [u|] eqn:U; [|simpl; auto].
  destruct (GenEmail_get (site_db s) alias_id) as [g|] eqn:G.
  - destruct (Nat.eqb (user_id (ge_user g)) u) eqn:Hu; simpl.
    + apply Nat.eqb_eq in Hu. subst u.
      split; [reflexivity|]. split; [reflexivity|]. split; [reflexivity|].
      split; [reflexivity|]. split; [|split].
      * unfold get_alias_log, alias_log_page.
        rewrite sorted_reverse_length, length_map. apply firstn_le_length.
      * apply sorted_reverse_sorted.
      * intros line Hl. apply sorted_reverse_In, in_map_iff in Hl as (r & <- & Hr).
        split; [reflexivity|].
        apply alias_log_page_In, alias_log_base_In in Hr as (Hfe & Hfel & H1 & H2).
        exists (fst r), (snd r). rewrite <- (proj1 (GenEmail_get_id _ _ _ G)).
        destruct r. auto 10.
    + split; [reflexivity|]. split; [|reflexivity].
      intros (g' & G' & U'). rewrite G in G'. injection G' as <-. injection U' as ->.
      rewrite Nat.eqb_refl in Hu. discriminate.
  - simpl. split; [reflexivity|]. split; [|reflexivity].
    intros (g' & G' & _). congruence.
Qed.

(** X22: the pages of the log.  The first n pages together hold the lines
    of the n * [PAGE_LIMIT] latest entries of the alias, each once, and all
    entries of the alias once n * [PAGE_LIMIT] reaches their number; a page
    with fewer than [PAGE_LIMIT] lines (the test behind [last_page]) is
    followed by empty pages only; a log of exactly (p + 1) * [PAGE_LIMIT]
    entries has a full page p, not marked as the last, that is followed by
    an empty page; and where the time of creation grows with the key of the
    entries, sorting a page by time changes nothing: its lines stand in the
    order of the query, latest key first. *)
Theorem get_alias_log_pages (w : World) (gen_email : GenEmail) :
  (forall n,
     Permutation
       (flat_map (get_alias_log PAGE_LIMIT created_at w gen_email) (seq 0 n))
       (map (alias_log_line created_at gen_email)
            (firstn (n * PAGE_LIMIT)
                    (sorted_reverse (fun r => fel_id (snd r)) (alias_log_base w gen_email)))))
  /\ (forall n,
        length (alias_log_base w gen_email) <= n * PAGE_LIMIT ->
        Permutation
          (flat_map (get_alias_log PAGE_LIMIT created_at w gen_email) (seq 0 n))
          (map (alias_log_line created_at gen_email) (alias_log_base w gen_email)))
  /\ (forall p q,
        length (get_alias_log PAGE_LIMIT created_at w gen_email p) < PAGE_LIMIT ->
        p < q ->
        get_alias_log PAGE_LIMIT created_at w gen_email q = [])
  /\ (forall p,
        length (alias_log_base w gen_email) = S p * PAGE_LIMIT ->
        length (get_alias_log PAGE_LIMIT created_at w gen_email p) = PAGE_LIMIT
        /\ get_alias_log PAGE_LIMIT created_at w gen_email (S p) = [])
  /\ ((forall a b, fel_id a <= fel_id b -> created_at a <= created_at b) ->
      forall p,
        get_alias_log PAGE_LIMIT created_at w gen_email p
        = map (alias_log_line created_at gen_email)
              (alias_log_page PAGE_LIMIT w gen_email p)).
Proof.
  set (sorted := sorted_reverse (fun r => fel_id (snd r)) (alias_log_base w gen_email)).
  assert (Hlen : length sorted = length (alias_log_base w gen_email))
    by apply sorted_reverse_length.
  assert (Hpages : forall n,
             Permutation
               (flat_map (get_alias_log PAGE_LIMIT created_at w gen_email) (seq 0 n))
               (map (alias_log_line created_at gen_email) (firstn (n * PAGE_LIMIT) sorted))).
  { intros n. rewrite <- firstn_chunks, <- flat_map_map.
    apply Permutation_flat_map_ext. intros p. apply sorted_reverse_perm. }
  assert (Hpage : forall p,
             length (get_alias_log PAGE_LIMIT created_at w gen_email p)
             = Nat.min PAGE_LIMIT (length sorted - p * PAGE_LIMIT)).
  { intros p. unfold get_alias_log, alias_log_page. fold sorted.
    rewrite sorted_reverse_length, length_map, length_firstn, length_skipn. reflexivity. }
  assert (Hempty : forall q,
             length sorted <= q * PAGE_LIMIT ->
             get_alias_log PAGE_LIMIT created_at w gen_email q = []).
  { intros q Hq. apply length_zero_iff_nil. rewrite Hpage. lia. }
  split; [exact Hpages|]. split; [|split].
  - intros n Hn. rewrite Hpages, firstn_all2 by lia.
    apply Permutation_map, sorted_reverse_perm.
  - intros p q Hp Hpq. apply Hempty. rewrite Hpage in Hp. nia.
  - split; [intros p Hp; split; [rewrite Hpage; nia|apply Hempty; lia]|].
    intros Hmono p. unfold get_alias_log. apply sorted_reverse_fixed.
    apply (StronglySorted_map (fun a b => fel_id (snd b) <= fel_id (snd a))).
    + intros a b Hab. simpl. apply Hmono. exact Hab.
    + unfold alias_log_page. apply StronglySorted_firstn, StronglySorted_skipn.
      apply (sorted_reverse_sorted (fun r : ForwardEmail * ForwardEmailLog => fel_id (snd r))).
Qed.

End LogFacts.

(** * The dashboard views on the concrete deployment *)

Lemma email_validator_display_name_witness :
  email_part_of " Jane Doe <jane@biz.example> " = "jane@biz.example"
  /\ (email_validator " Jane Doe <jane@biz.example> " = Valid
      <-> address_shape "jane@biz.example").
Proof.
  exact (email_validator_display_name " Jane Doe <jane@biz.example> " "Jane Doe "
           "jane@biz.example" "" eq_refl eq_refl eq_refl eq_refl
           ltac:(discriminate)).
Defined.

Lemma alias_contact_manager_own_mappings_only_witness :
  let w' := site_db (snd (alias_contact_manager Demo.app Cases.req_delete 2 None
                            (mkSite Cases.world6 []))) in
  same_but_mappings Cases.world6 w'
  /\ In Cases.news_mapping (forward_emails w').
Proof.
  destruct (alias_contact_manager_own_mappings_only Demo.app Cases.req_delete 2 None
              (mkSite Cases.world6 [])) as (Hsame & Hgone & _).
  - unfold mapping_ids_unique. simpl. repeat constructor; simpl; intuition discriminate.
  - split; [exact Hsame|].
    destruct (Hgone Cases.news_mapping) as [H|[H _]].
    + right. left. reflexivity.
    + exact H.
    + discriminate H.
Defined.

Lemma alias_contact_manager_keeps_store_witness :
  one_mapping_per_pair
    (site_db (snd (alias_contact_manager Demo.app Cases.req_create 1 None Cases.site0))).
Proof.
  apply (proj1 (alias_contact_manager_keeps_store Demo.app Cases.req_create 1 None
                  Cases.site0)).
  exact world0_one_mapping_per_pair.
Defined.

Lemma alias_contact_manager_create_witness :
  let out := alias_contact_manager Demo.app Cases.req_create 1 None Cases.site0 in
  exists f,
    forward_emails (site_db (snd out)) = [Demo.boss_mapping; f]
    /\ fe_website_email f = "jane@biz.example"
    /\ fe_website_from f = Some "Jane Doe <jane@biz.example>"
    /\ fst out = RedirectContactManager 1 (Some (fe_id f)) (Some Demo.shop).
Proof.
  destruct (alias_contact_manager_create Demo.app Cases.req_create 1 None Cases.site0
              Demo.shop " Jane Doe <jane@biz.example> "
              eq_refl eq_refl eq_refl eq_refl eq_refl eq_refl) as (_ & _ & Hnew).
  destruct (Hnew eq_refl) as (f & Hl & _ & Hwe & Hwf & _ & _ & _ & Hr & _).
  exists f. auto.
Defined.

Lemma alias_contact_manager_create_then_delete_witness :
  let out1 := alias_contact_manager Demo.app Cases.req_create 1 None Cases.site0 in
  let out2 := alias_contact_manager Demo.app Cases.req_delete 1 None (snd out1) in
  fst out2 = RedirectContactManager 1 None None
  /\ forward_emails (site_db (snd out2)) = [Demo.boss_mapping].
Proof.
  destruct (alias_contact_manager_create_then_delete Demo.app Cases.req_create
              Cases.req_delete 1 None None Cases.site0 Demo.shop
              " Jane Doe <jane@biz.example> "
              eq_refl eq_refl eq_refl eq_refl eq_refl eq_refl eq_refl eq_refl eq_refl
              eq_refl eq_refl) as (Hr & Hl & _).
  split; [exact Hr|exact Hl].
Defined.

Lemma alias_contact_manager_page_witness :
  alias_contact_manager Demo.app Cases.req_get 1 (Some 2) (mkSite Cases.world6 [])
  = (RenderContactManager [Cases.news_mapping; Demo.boss_mapping] Demo.shop (Some 2),
     mkSite Cases.world6 []).
Proof.
  destruct (alias_contact_manager_page Demo.app Cases.req_get 1 (Some 2)
              (mkSite Cases.world6 []) Demo.shop eq_refl eq_refl ltac:(discriminate))
    as (l & Hrun & _ & Horder & _).
  rewrite Hrun, (Horder 2 eq_refl ltac:(discriminate)). reflexivity.
Defined.

Lemma contact_then_reply_witness :
  let w' := site_db (snd (alias_contact_manager Demo.app Cases.req_create 1 None
                            Cases.site0)) in
  exists c2,
    handle_DATA Demo.app Cases.reply_contact w'
    = (Ok "250 Message accepted for delivery", c2)
    /\ msg_get (msg c2) "To" = Some "jane@biz.example"
    /\ outbox (db c2)
       = [mkSendmail "shop@relay.example" "jane@biz.example" (as_string (msg c2)) [] []].
Proof.
  intros w'.
  destruct (contact_then_reply Demo.app Cases.req_create 1 None Cases.site0 Demo.shop
              " Jane Doe <jane@biz.example> "
              eq_refl eq_refl eq_refl eq_refl eq_refl eq_refl (or_introl eq_refl) eq_refl)
    as (f & Hget & Hreply).
  vm_compute in Hget. injection Hget as <-.
  destruct (Hreply Cases.reply_contact "ra+tok0@relay.example" [])
    as (c2 & Hrun & _ & HTo & Hout).
  - vm_compute. repeat constructor; simpl; intuition discriminate.
  - reflexivity.
  - reflexivity.
  - reflexivity.
  - vm_compute. discriminate.
  - vm_compute. discriminate.
  - exists c2. split; [exact Hrun|]. split; [exact HTo|exact Hout].
Defined.

Lemma alias_log_counters_add_up_witness :
  exists logs last_page,
    alias_log 2 Cases.clock Cases.req_get 1 0
      (mkSite (relay_all Demo.app [Demo.fwd_shop; Demo.reply_owner; Demo.fwd_off]
                         Demo.world0) [])
    = (RenderLog Demo.shop 0 logs 2 1 1 0 last_page,
       mkSite (relay_all Demo.app [Demo.fwd_shop; Demo.reply_owner; Demo.fwd_off]
                         Demo.world0) []).
Proof.
  destruct (alias_log_counters_add_up Demo.app 2 Cases.clock
              [Demo.fwd_shop; Demo.reply_owner; Demo.fwd_off] Demo.world0 Cases.req_get 1 0
              (mkSite (relay_all Demo.app [Demo.fwd_shop; Demo.reply_owner; Demo.fwd_off]
                                 Demo.world0) [])
              Demo.shop)
    as (logs & total & f & r & b & last & Hrun & _ & _).
  - intros e [].
  - reflexivity.
  - vm_compute. reflexivity.
  - reflexivity.
  - rewrite Hrun. vm_compute in Hrun. injection Hrun as <- <- <- <- <- <-.
    eexists. eexists. reflexivity.
Defined.

Lemma get_alias_log_pages_witness :
  get_alias_log 2 Cases.clock Cases.world6 Demo.shop 1
  = [mkAliasLog "news@biz.example" (Some "news@biz.example") "shop@relay.example"
                20 false false;
     mkAliasLog "boss@biz.example" (Some "Boss <boss@biz.example>") "shop@relay.example"
                10 false false]
  /\ get_alias_log 2 Cases.clock Cases.world6 Demo.shop 2 = [].
Proof.
  destruct (get_alias_log_pages 2 Cases.clock Cases.world6 Demo.shop)
    as (_ & _ & _ & Hfull & Hmono).
  split.
  - rewrite Hmono; [reflexivity|]. intros a b Hab. unfold Cases.clock. lia.
  - exact (proj2 (Hfull 1 eq_refl)).
Defined.

(** * The payment webhooks *)

Module BillingFacts.
Import Billing.

Lemma find_map_row {A : Type} (p : A -> bool) (q : A -> bool) (f : A -> A) (l : list A)
    (x : A) :
  (forall y, p (f y) = p y) ->
  find p l = Some x ->
  q x = true ->
  find p (map (fun y => if q y then f y else y) l) = Some (f x).
Proof.
  intros Hp. induction l as [|y l IH]; simpl; intros Hf Hq; [discriminate|].
  destruct (p y) eqn:Py.
  - injection Hf as ->. rewrite Hq, Hp, Py. reflexivity.
  - assert (E : p (if q y then f y else y) = false) by (destruct (q y); [rewrite Hp|]; exact Py).
    rewrite E. now apply IH.
Qed.

Lemma find_map_none {A : Type} (p : A -> bool) (q : A -> bool) (f : A -> A) (l : list A) :
  (forall y, p (f y) = p y) ->
  find p l = None ->
  find p (map (fun y => if q y then f y else y) l) = None.
Proof.
  intros Hp. induction l as [|y l IH]; simpl; intros Hf; [reflexivity|].
  destruct (p y) eqn:Py; [discriminate|].
  assert (E : p (if q y then f y else y) = false) by (destruct (q y); [rewrite Hp|]; exact Py).
  rewrite E. now apply IH.
Qed.

Lemma map_map_row {A B : Type} (g : A -> B) (q : A -> bool) (f : A -> A) (l : list A) :
  (forall y, g (f y) = g y) ->
  map g (map (fun y => if q y then f y else y) l) = map g l.
Proof.
  intros Hg. rewrite map_map. apply map_ext. intros y. destruct (q y); [apply Hg|reflexivity].
Qed.

Lemma find_none_not_in (l : list Subscription) (uid : nat) :
  find (fun s => Nat.eqb (sub_user_id s) uid) l = None -> ~ In uid (map sub_user_id l).
Proof.
  intros H Hin. apply in_map_iff in Hin as (s & E & Hs).
  pose proof (find_none _ _ H s Hs) as F. simpl in F. rewrite E, Nat.eqb_refl in F.
  discriminate.
Qed.

Lemma User_get_id (st : Store) (uid : nat) (user : User) :
  User_get st (Some uid) = Some user -> user_id user = uid.
Proof.
  intros H. apply find_some in H as [_ H]. now apply Nat.eqb_eq in H.
Qed.

Section PaddleFacts.

Variable PADDLE_MONTHLY_PRODUCT_ID : nat.
Variable PADDLE_MONTHLY_PRODUCT_IDS : list nat.
Variable PADDLE_YEARLY_PRODUCT_IDS : list nat.
Variable verify_incoming_request : PaddleForm -> bool.
Variable cancelled_default : bool.

Local Abbreviation paddle :=
  (Billing.paddle PADDLE_MONTHLY_PRODUCT_ID PADDLE_MONTHLY_PRODUCT_IDS
                  PADDLE_YEARLY_PRODUCT_IDS verify_incoming_request cancelled_default).
Local Abbreviation subscription_created :=
  (Billing.subscription_created PADDLE_MONTHLY_PRODUCT_IDS PADDLE_YEARLY_PRODUCT_IDS
                                cancelled_default).
Local Abbreviation subscription_updated := (Billing.subscription_updated PADDLE_MONTHLY_PRODUCT_ID).
Local Abbreviation plan_of_created :=
  (Billing.plan_of_created PADDLE_MONTHLY_PRODUCT_IDS PADDLE_YEARLY_PRODUCT_IDS).
Local Abbreviation plan_of_updated := (Billing.plan_of_updated PADDLE_MONTHLY_PRODUCT_ID).

Lemma subscription_created_settled (form : PaddleForm) (now : nat) (st : Store) :
  settled st (subscription_created form now st).
Proof.
  unfold Billing.subscription_created, settled.
  destruct (passthrough_user_id form) as [uid|]; [|simpl; auto].
  destruct (subscription_plan_id form) as [pid|]; [|simpl; auto].
  destruct (plan_of_created pid) as [p|]; [|simpl; auto 10].
  destruct (User_get st uid) as [u|]; [|simpl; auto].
  destruct (Subscription_get_by_user_id st (user_id u)) as [sub|];
    destruct (form_next_bill_date form) as [d|]; simpl; auto 10.
Qed.

Lemma subscription_payment_succeeded_settled (form : PaddleForm) (now : nat) (st : Store) :
  settled st (subscription_payment_succeeded form now st).
Proof.
  unfold subscription_payment_succeeded, settled.
  destruct (Subscription_get_by_subscription_id st _) as [sub|]; [|simpl; auto 10].
  destruct (form_next_bill_date form) as [d|]; simpl; auto 10.
Qed.

Lemma subscription_cancelled_settled (form : PaddleForm) (now : nat) (st : Store) :
  settled st (subscription_cancelled form now st).
Proof.
  unfold subscription_cancelled, settled.
  destruct (Subscription_get_by_subscription_id st _) as [sub|]; [|simpl; auto 10].
  destruct (User_get _ _) as [u|]; simpl; auto 10.
Qed.

Lemma subscription_updated_settled (form : PaddleForm) (now : nat) (st : Store) :
  settled st (subscription_updated form now st).
Proof.
  unfold Billing.subscription_updated, settled.
  destruct (Subscription_get_by_subscription_id st _) as [sub|]; [|simpl; auto 10].
  destruct (subscription_plan_id form) as [pid|]; [|simpl; auto].
  destruct (form_next_bill_date form) as [d|]; simpl; auto 10.
Qed.

Lemma paddle_settled (form : PaddleForm) (now : nat) (st : Store) :
  verify_incoming_request form = true -> settled st (paddle form now st).
Proof.
  intros V. unfold Billing.paddle. rewrite V. change (negb true) with false. cbv iota.
  destruct (option_eqb (alert_name form) (Some "subscription_created"));
    [apply subscription_created_settled|].
  destruct (option_eqb (alert_name form) (Some "subscription_payment_succeeded"));
    [apply subscription_payment_succeeded_settled|].
  destruct (option_eqb (alert_name form) (Some "subscription_cancelled"));
    [apply subscription_cancelled_settled|].
  destruct (option_eqb (alert_name form) (Some "subscription_updated"));
    [apply subscription_updated_settled|].
  unfold settled. simpl. auto 10.
Qed.

(** X23: what [/paddle] refuses it does not act on.  A request that
    [verify_incoming_request] does not accept is answered "KO" with 400;
    the answers are "OK" with 200, and "KO" and "No such subscription" with
    400; every answer with 400 leaves the store exactly as it was; no mail
    is sent by a call that ends in an exception; and no call, whatever its
    alert, touches the users or the Coinbase subscriptions. *)
Theorem paddle_refusals_write_nothing (form : PaddleForm) (now : nat) (st : Store) :
  let out := paddle form now st in
  (verify_incoming_request form = false -> out = (Reply "KO" 400, st))
  /\ (forall body status,
        fst out = Reply body status ->
        (body = "OK" /\ status = 200)
        \/ ((body = "KO" \/ body = "No such subscription") /\ status = 400 /\ snd out = st))
  /\ (forall line, fst out = Uncaught line -> sent (snd out) = sent st)
  /\ users (snd out) = users st
  /\ coinbase_subscriptions (snd out) = coinbase_subscriptions st.
Proof.
  cbv zeta. destruct (verify_incoming_request form) eqn:V.
  - destruct (paddle_settled form now st V) as (Hu & Hc & H).
    split; [discriminate|]. split; [|split; [|split; [exact Hu|exact Hc]]].
    + intros body status E. rewrite E in H.
      destruct H as [H|(Hb & Hs & Hst)]; [left; exact H|right; auto].
    + intros line E. rewrite E in H. exact H.
  - unfold Billing.paddle. rewrite V. simpl.
    split; [reflexivity|]. split; [|split; [discriminate|split; reflexivity]].
    intros body status E. injection E as <- <-. right. auto.
Qed.

(** The subscription rows after a call: those of before, with the same
    keys and users, and at most one more, of a user who had none. *)
Lemma paddle_rows (form : PaddleForm) (now : nat) (st : Store) :
  let st' := snd (paddle form now st) in
  (map sub_user_id (subscriptions st') = map sub_user_id (subscriptions st)
   /\ map sub_id (subscriptions st') = map sub_id (subscriptions st))
  \/ exists s,
       subscriptions st' = (subscriptions st ++ [s])%list
       /\ ~ In (sub_user_id s) (map sub_user_id (subscriptions st))
       /\ ~ In (sub_id s) (map sub_id (subscriptions st)).
Proof.
  cbv zeta. unfold Billing.paddle.
  destruct (negb (verify_incoming_request form)); [left; split; reflexivity|].
  destruct (option_eqb (alert_name form) (Some "subscription_created")).
  { unfold Billing.subscription_created.
    destruct (passthrough_user_id form) as [uid|]; [|left; split; reflexivity].
    destruct (subscription_plan_id form) as [pid|]; [|left; split; reflexivity].
    destruct (plan_of_created pid) as [p|]; [|left; split; reflexivity].
    destruct (User_get st uid) as [u|]; [|left; split; reflexivity].
    destruct (Subscription_get_by_user_id st (user_id u)) as [sub|] eqn:G.
    - left. destruct (form_next_bill_date form) as [d|]; simpl;
        rewrite ?map_map_row by reflexivity; split; reflexivity.
    - destruct (form_next_bill_date form) as [d|]; [|left; split; reflexivity].
      right. eexists. simpl. split; [reflexivity|]. simpl. split.
      + apply find_none_not_in. exact G.
      + intros Hin. pose proof (next_id_fresh (map sub_id (subscriptions st))) as F.
        rewrite Forall_forall in F. exact (F _ Hin eq_refl). }
  destruct (option_eqb (alert_name form) (Some "subscription_payment_succeeded")).
  { left. unfold subscription_payment_succeeded.
    destruct (Subscription_get_by_subscription_id st _) as [sub|]; [|split; reflexivity].
    destruct (form_next_bill_date form) as [d|]; simpl;
      rewrite ?map_map_row by reflexivity; split; reflexivity. }
  destruct (option_eqb (alert_name form) (Some "subscription_cancelled")).
  { left. unfold subscription_cancelled.
    destruct (Subscription_get_by_subscription_id st _) as [sub|]; [|split; reflexivity].
    destruct (User_get _ _) as [u|]; simpl;
      rewrite ?map_map_row by reflexivity; split; reflexivity. }
  destruct (option_eqb (alert_name form) (Some "subscription_updated")).
  { left. unfold Billing.subscription_updated.
    destruct (Subscription_get_by_subscription_id st _) as [sub|]; [|split; reflexivity].
    destruct (subscription_plan_id form) as [pid|]; [|split; reflexivity].
    destruct (form_next_bill_date form) as [d|]; simpl;
      rewrite ?map_map_row by reflexivity; split; reflexivity. }
  left. split; reflexivity.
Qed.

(** X24: a user never gets a second subscription from [/paddle].  Whatever
    the alert, the subscriptions there were stay, each with its key and its
    user; at most one is added, and only for a user who had none, with a key
    no subscription had; so a table with one subscription per user, and one
    with unique keys, stays such a table. *)
Theorem paddle_one_subscription_per_user (form : PaddleForm) (now : nat) (st : Store) :
  let st' := snd (paddle form now st) in
  (firstn (length (subscriptions st)) (map sub_user_id (subscriptions st'))
   = map sub_user_id (subscriptions st))
  /\ (firstn (length (subscriptions st)) (map sub_id (subscriptions st'))
      = map sub_id (subscriptions st))
  /\ (length (subscriptions st') = length (subscriptions st)
      \/ exists s, subscriptions st' = (subscriptions st ++ [s])%list
                   /\ Subscription_get_by_user_id st (sub_user_id s) = None)
  /\ (NoDup (map sub_user_id (subscriptions st)) ->
      NoDup (map sub_user_id (subscriptions st')))
  /\ (NoDup (map sub_id (subscriptions st)) -> NoDup (map sub_id (subscriptions st'))).
Proof.
  cbv zeta. destruct (paddle_rows form now st) as [[Hu Hk]|(s & E & Hu & Hk)].
  - rewrite Hu, Hk.
    rewrite <- (length_map sub_user_id (subscriptions st)) at 1. rewrite firstn_all.
    rewrite <- (length_map sub_id (subscriptions st)) at 1. rewrite firstn_all.
    split; [reflexivity|]. split; [reflexivity|]. split; [|auto].
    left. rewrite <- (length_map sub_user_id), Hu, length_map. reflexivity.
  - rewrite E, !map_app. simpl. split; [|split; [|split; [|split]]].
    + rewrite <- (length_map sub_user_id (subscriptions st)).
      rewrite firstn_app, firstn_all, Nat.sub_diag. simpl. apply app_nil_r.
    + rewrite <- (length_map sub_id (subscriptions st)).
      rewrite firstn_app, firstn_all, Nat.sub_diag. simpl. apply app_nil_r.
    + right. exists s. split; [reflexivity|].
      unfold Subscription_get_by_user_id.
      destruct (find _ (subscriptions st)) as [x|] eqn:F; [|reflexivity].
      apply find_some in F as [Hin F]. apply Nat.eqb_eq in F.
      elim Hu. rewrite <- F. now apply in_map.
    + intros H. apply NoDup_snoc; assumption.
    + intros H. apply NoDup_snoc; assumption.
Qed.

Lemma paddle_created_unfold (form : PaddleForm) (now : nat) (st : Store) :
  verify_incoming_request form = true ->
  alert_name form = Some "subscription_created" ->
  paddle form now st = subscription_created form now st.
Proof.
  intros V A. unfold Billing.paddle. rewrite V, A. reflexivity.
Qed.

Lemma paddle_cancelled_unfold (form : PaddleForm) (now : nat) (st : Store) :
  verify_incoming_request form = true ->
  alert_name form = Some "subscription_cancelled" ->
  paddle form now st = subscription_cancelled form now st.
Proof.
  intros V A. unfold Billing.paddle. rewrite V, A. reflexivity.
Qed.

Lemma paddle_updated_unfold (form : PaddleForm) (now : nat) (st : Store) :
  verify_incoming_request form = true ->
  alert_name form = Some "subscription_updated" ->
  paddle form now st = subscription_updated form now st.
Proof.
  intros V A. unfold Billing.paddle. rewrite V, A. reflexivity.
Qed.

(** The row a user has after [subscription_created] went through. *)
Lemma subscription_created_run (form : PaddleForm) (now : nat) (st : Store)
    (uid : nat) (user : User) (pid : nat) (p : PlanEnum) (d : nat) :
  passthrough_user_id form = Some (Some uid) ->
  User_get st (Some uid) = Some user ->
  subscription_plan_id form = Some pid ->
  plan_of_created pid = Some p ->
  form_next_bill_date form = Some d ->
  let out := subscription_created form now st in
  fst out = Reply "OK" 200
  /\ commits (snd out) = S (commits st)
  /\ sent (snd out) = sent st
  /\ exists sub,
       Subscription_get_by_user_id (snd out) uid = Some sub
       /\ sub_user_id sub = uid
       /\ plan sub = p
       /\ cancel_url sub = form_cancel_url form
       /\ update_url sub = form_update_url form
       /\ subscription_id sub = form_subscription_id form
       /\ event_time sub = now
       /\ next_bill_date sub = d
       /\ match Subscription_get_by_user_id st uid with
          | Some old =>
              sub_id sub = sub_id old
              /\ cancelled sub = false
              /\ length (subscriptions (snd out)) = length (subscriptions st)
          | None =>
              subscriptions (snd out) = (subscriptions st ++ [sub])%list
              /\ cancelled sub = cancelled_default
          end.
Proof.
  intros P U I Pl D. cbv zeta. unfold Billing.subscription_created.
  rewrite P, I, Pl, U, D. rewrite (User_get_id st uid user U).
  destruct (Subscription_get_by_user_id st uid) as [old|] eqn:G.
  - cbn [fst snd]. split; [reflexivity|]. split; [reflexivity|]. split; [reflexivity|].
    assert (Hold : sub_user_id old = uid).
    { apply find_some in G as [_ G]. now apply Nat.eqb_eq in G. }
    eexists. split.
    + unfold Subscription_get_by_user_id, commit, update_subscription, with_subscriptions.
      cbn [subscriptions]. rewrite map_map.
      erewrite map_ext;
        [apply (find_map_row (fun s => Nat.eqb (sub_user_id s) uid)
                             (fun s => Nat.eqb (sub_id s) (sub_id old))
                             (fun s => set_cancelled false
                                         (set_plan p
                                            (set_next_bill_date d
                                               (set_event_time now
                                                  (set_subscription_id
                                                     (form_subscription_id form)
                                                     (set_update_url
                                                        (form_update_url form)
                                                        (set_cancel_url
                                                           (form_cancel_url form) s)))))))
                             (subscriptions st) old);
         [reflexivity|exact G|apply Nat.eqb_refl]|].
      intros s. simpl. destruct (Nat.eqb (sub_id s) (sub_id old)) eqn:E; simpl.
      * rewrite E. reflexivity.
      * rewrite E. reflexivity.
    + simpl. repeat (split; [solve [auto]|]).
      unfold commit, update_subscription, with_subscriptions. cbn [subscriptions].
      rewrite !length_map. auto.
  - cbn [fst snd]. split; [reflexivity|]. split; [reflexivity|]. split; [reflexivity|].
    eexists. split.
    + unfold Subscription_get_by_user_id, commit, with_subscriptions. cbn [subscriptions].
      apply find_app_new; [exact G|]. simpl. apply Nat.eqb_refl.
    + simpl. auto 12.
Qed.

(** X25: subscribing through [/paddle].  A verified [subscription_created]
    for a user the store knows, with a product id of the monthly or of the
    yearly list and a readable date, is answered "OK" after one commit and
    no mail; the user then has a subscription with the plan of the list the
    id is in, the URLs, the subscription id and the date of the form and
    the time of the call; a user who had a subscription keeps that row,
    now marked as not cancelled, and the table does not grow; for a user
    who had none the row is appended. *)
Theorem paddle_subscription_created (form : PaddleForm) (now : nat) (st : Store)
    (uid : nat) (user : User) (pid : nat) (p : PlanEnum) (d : nat) :
  verify_incoming_request form = true ->
  alert_name form = Some "subscription_created" ->
  passthrough_user_id form = Some (Some uid) ->
  User_get st (Some uid) = Some user ->
  subscription_plan_id form = Some pid ->
  plan_of_created pid = Some p ->
  form_next_bill_date form = Some d ->
  let out := paddle form now st in
  fst out = Reply "OK" 200
  /\ commits (snd out) = S (commits st)
  /\ sent (snd out) = sent st
  /\ (p = monthly <-> In pid PADDLE_MONTHLY_PRODUCT_IDS)
  /\ exists sub,
       Subscription_get_by_user_id (snd out) uid = Some sub
       /\ plan sub = p
       /\ cancel_url sub = form_cancel_url form
       /\ update_url sub = form_update_url form
       /\ subscription_id sub = form_subscription_id form
       /\ event_time sub = now
       /\ next_bill_date sub = d
       /\ match Subscription_get_by_user_id st uid with
          | Some old =>
              sub_id sub = sub_id old
              /\ cancelled sub = false
              /\ length (subscriptions (snd out)) = length (subscriptions st)
          | None => subscriptions (snd out) = (subscriptions st ++ [sub])%list
          end.
Proof.
  intros V A P U I Pl D. cbv zeta. rewrite (paddle_created_unfold form now st V A).
  destruct (subscription_created_run form now st uid user pid p d P U I Pl D)
    as (Hok & Hc & Hs & sub & Hget & _ & Hp & Hcu & Huu & Hsi & Het & Hd & Hold).
  split; [exact Hok|]. split; [exact Hc|]. split; [exact Hs|]. split.
  - unfold Billing.plan_of_created, in_ids in Pl.
    destruct (existsb (Nat.eqb pid) PADDLE_MONTHLY_PRODUCT_IDS) eqn:M.
    + injection Pl as <-. split; [intros _|reflexivity].
      apply existsb_exists in M as (x & Hx & E). apply Nat.eqb_eq in E. now subst x.
    + split.
      * intros ->. destruct (existsb (Nat.eqb pid) PADDLE_YEARLY_PRODUCT_IDS); discriminate.
      * intros Hin. assert (existsb (Nat.eqb pid) PADDLE_MONTHLY_PRODUCT_IDS = true).
        { apply existsb_exists. exists pid. split; [exact Hin|apply Nat.eqb_refl]. }
        congruence.
  - exists sub. repeat (split; [assumption|]).
    destruct (Subscription_get_by_user_id st uid); [exact Hold|exact (proj1 Hold)].
Qed.

Lemma subscription_cancelled_run (form : PaddleForm) (now : nat) (st : Store)
    (old : Subscription) (user : User) :
  Subscription_get_by_subscription_id st (form_subscription_id form) = Some old ->
  Subscription_get_by_user_id st (sub_user_id old) = Some old ->
  User_get st (Some (sub_user_id old)) = Some user ->
  let out := subscription_cancelled form now st in
  fst out = Reply "OK" 200
  /\ users (snd out) = users st
  /\ sent (snd out)
     = (sent st ++ [mkEmail (user_email user)
                            "SimpleLogin - what can we do to improve the product?"
                            "transactional/subscription-cancel.txt" None])%list
  /\ length (subscriptions (snd out)) = length (subscriptions st)
  /\ Subscription_get_by_user_id (snd out) (sub_user_id old)
     = Some (set_cancelled true (set_event_time now old)).
Proof.
  intros S G U. cbv zeta. unfold subscription_cancelled. rewrite S.
  change (User_get (commit (update_subscription (sub_id old)
                              (fun s => set_cancelled true (set_event_time now s)) st))
                   (Some (sub_user_id old)))
    with (User_get st (Some (sub_user_id old))).
  rewrite U. cbn [fst snd]. split; [reflexivity|]. split; [reflexivity|].
  split; [reflexivity|]. split.
  - unfold send_email, commit, update_subscription, with_subscriptions.
    cbn [subscriptions]. apply length_map.
  - unfold Subscription_get_by_user_id, send_email, commit, update_subscription,
      with_subscriptions. cbn [subscriptions].
    apply (find_map_row (fun s => Nat.eqb (sub_user_id s) (sub_user_id old))
                        (fun s => Nat.eqb (sub_id s) (sub_id old))
                        (fun s => set_cancelled true (set_event_time now s))
                        (subscriptions st) old);
      [reflexivity|exact G|apply Nat.eqb_refl].
Qed.

(** X26: cancelling and subscribing again.  A verified
    [subscription_cancelled] for the subscription of a user marks it as
    cancelled, keeps its plan and its date, and sends that user one mail;
    a verified [subscription_created] for the same user after it makes no
    second row: the user's subscription is the row of before, with the new
    plan and marked as not cancelled, and no further mail is sent. *)
Theorem paddle_cancel_then_subscribe (form1 form2 : PaddleForm) (now1 now2 : nat)
    (st : Store) (old : Subscription) (user : User) (pid : nat) (p : PlanEnum) (d : nat) :
  verify_incoming_request form1 = true ->
  alert_name form1 = Some "subscription_cancelled" ->
  Subscription_get_by_subscription_id st (form_subscription_id form1) = Some old ->
  Subscription_get_by_user_id st (sub_user_id old) = Some old ->
  User_get st (Some (sub_user_id old)) = Some user ->
  verify_incoming_request form2 = true ->
  alert_name form2 = Some "subscription_created" ->
  passthrough_user_id form2 = Some (Some (sub_user_id old)) ->
  subscription_plan_id form2 = Some pid ->
  plan_of_created pid = Some p ->
  form_next_bill_date form2 = Some d ->
  let out1 := paddle form1 now1 st in
  let out2 := paddle form2 now2 (snd out1) in
  fst out1 = Reply "OK" 200
  /\ sent (snd out1)
     = (sent st ++ [mkEmail (user_email user)
                            "SimpleLogin - what can we do to improve the product?"
                            "transactional/subscription-cancel.txt" None])%list
  /\ (exists s1,
        Subscription_get_by_user_id (snd out1) (sub_user_id old) = Some s1
        /\ cancelled s1 = true
        /\ plan s1 = plan old
        /\ next_bill_date s1 = next_bill_date old)
  /\ fst out2 = Reply "OK" 200
  /\ sent (snd out2) = sent (snd out1)
  /\ length (subscriptions (snd out2)) = length (subscriptions st)
  /\ exists s2,
       Subscription_get_by_user_id (snd out2) (sub_user_id old) = Some s2
       /\ sub_id s2 = sub_id old
       /\ cancelled s2 = false
       /\ plan s2 = p
       /\ next_bill_date s2 = d.
Proof.
  intros V1 A1 S G U V2 A2 P I Pl D. cbv zeta.
  rewrite (paddle_cancelled_unfold form1 now1 st V1 A1).
  destruct (subscription_cancelled_run form1 now1 st old user S G U)
    as (Hok1 & Hu1 & Hs1 & Hl1 & Hg1).
  set (st1 := snd (subscription_cancelled form1 now1 st)) in *.
  rewrite (paddle_created_unfold form2 now2 st1 V2 A2).
  assert (U1 : User_get st1 (Some (sub_user_id old)) = Some user).
  { unfold User_get in *. rewrite Hu1. exact U. }
  destruct (subscription_created_run form2 now2 st1 (sub_user_id old) user pid p d
              P U1 I Pl D)
    as (Hok2 & _ & Hs2 & s2 & Hg2 & _ & Hp2 & _ & _ & _ & _ & Hd2 & Hold).
  rewrite Hg1 in Hold. destruct Hold as (Hid & Hc2 & Hl2).
  split; [exact Hok1|]. split; [exact Hs1|]. split.
  - eexists. split; [exact Hg1|]. simpl. auto.
  - split; [exact Hok2|]. split; [exact Hs2|]. split; [congruence|].
    exists s2. auto 10.
Qed.

Lemma subscription_updated_run (form : PaddleForm) (now : nat) (st : Store)
    (old : Subscription) (pid d : nat) :
  Subscription_get_by_subscription_id st (form_subscription_id form) = Some old ->
  subscription_plan_id form = Some pid ->
  form_next_bill_date form = Some d ->
  let out := subscription_updated form now st in
  fst out = Reply "OK" 200
  /\ Subscription_get_by_subscription_id (snd out) (form_subscription_id form)
     = Some (set_cancelled false
               (set_plan (plan_of_updated pid)
                  (set_next_bill_date d
                     (set_event_time now
                        (set_update_url (form_update_url form)
                           (set_cancel_url (form_cancel_url form) old)))))).
Proof.
  intros S I D. cbv zeta. unfold Billing.subscription_updated. rewrite S, I, D.
  cbn [fst snd]. split; [reflexivity|].
  unfold Subscription_get_by_subscription_id, commit, update_subscription, with_subscriptions.
  cbn [subscriptions]. rewrite map_map.
  erewrite map_ext;
    [apply (find_map_row (fun s => option_eqb (subscription_id s) (form_subscription_id form))
                         (fun s => Nat.eqb (sub_id s) (sub_id old))
                         (fun s => set_cancelled false
                                     (set_plan (plan_of_updated pid)
                                        (set_next_bill_date d
                                           (set_event_time now
                                              (set_update_url
                                                 (form_update_url form)
                                                 (set_cancel_url (form_cancel_url form) s))))))
                         (subscriptions st) old);
     [reflexivity|exact S|apply Nat.eqb_refl]|].
  intros s. simpl. destruct (Nat.eqb (sub_id s) (sub_id old)) eqn:E; simpl; rewrite E;
    reflexivity.
Qed.

(** X27: the plan [subscription_updated] stores.  A verified
    [subscription_updated] for a subscription the store has marks it as not
    cancelled and stores the monthly plan exactly when the product id is
    [PADDLE_MONTHLY_PRODUCT_ID], the yearly plan for every other id; so a
    product id of [PADDLE_MONTHLY_PRODUCT_IDS] other than that one, which
    [subscription_created] stores as monthly, is stored as yearly, and an
    id of neither list, which [subscription_created] refuses, is stored as
    yearly too. *)
Theorem paddle_subscription_updated_plan (form : PaddleForm) (now : nat) (st : Store)
    (old : Subscription) (pid d : nat) :
  verify_incoming_request form = true ->
  alert_name form = Some "subscription_updated" ->
  Subscription_get_by_subscription_id st (form_subscription_id form) = Some old ->
  subscription_plan_id form = Some pid ->
  form_next_bill_date form = Some d ->
  let out := paddle form now st in
  fst out = Reply "OK" 200
  /\ exists sub,
       Subscription_get_by_subscription_id (snd out) (form_subscription_id form) = Some sub
       /\ sub_id sub = sub_id old
       /\ cancelled sub = false
       /\ next_bill_date sub = d
       /\ (plan sub = monthly <-> pid = PADDLE_MONTHLY_PRODUCT_ID)
       /\ (In pid PADDLE_MONTHLY_PRODUCT_IDS -> pid <> PADDLE_MONTHLY_PRODUCT_ID ->
           plan_of_created pid = Some monthly /\ plan sub = yearly)
       /\ (plan_of_created pid = None -> pid <> PADDLE_MONTHLY_PRODUCT_ID ->
           plan sub = yearly).
Proof.
  intros V A S I D. cbv zeta. rewrite (paddle_updated_unfold form now st V A).
  destruct (subscription_updated_run form now st old pid d S I D) as (Hok & Hget).
  split; [exact Hok|]. eexists. split; [exact Hget|]. simpl.
  split; [reflexivity|]. split; [reflexivity|]. split; [reflexivity|].
  unfold Billing.plan_of_updated.
  destruct (Nat.eqb pid PADDLE_MONTHLY_PRODUCT_ID) eqn:E.
  - apply Nat.eqb_eq in E. split; [tauto|]. split; intros; contradiction.
  - apply Nat.eqb_neq in E. split; [split; [discriminate|contradiction]|].
    split; [|auto]. intros Hin _. split; [|reflexivity].
    unfold Billing.plan_of_created, in_ids.
    assert (M : existsb (Nat.eqb pid) PADDLE_MONTHLY_PRODUCT_IDS = true).
    { apply existsb_exists. exists pid. split; [exact Hin|apply Nat.eqb_refl]. }
    rewrite M. reflexivity.
Qed.

End PaddleFacts.


Section CoinbaseFacts.

Variable construct_event : string -> option string -> Event + string.
Variable is_active : CoinbaseSubscription -> nat -> bool.
Variable shift_years_1 : nat -> nat.

Local Abbreviation handle_coinbase_event :=
  (Billing.handle_coinbase_event is_active shift_years_1).
Local Abbreviation coinbase_webhook :=
  (Billing.coinbase_webhook construct_event is_active shift_years_1).

Lemma set_code_same (s : CoinbaseSubscription) (c : string) :
  (if negb (String.eqb (code s) c) then set_code c s else s) = set_code c s.
Proof.
  destruct (String.eqb_spec (code s) c) as [E|N]; [|reflexivity].
  destruct s. simpl in *. subst. reflexivity.
Qed.

Lemma coinbase_webhook_confirmed (request_data : string) (request_sig : option string)
    (now : nat) (st : Store) (event : Event) :
  construct_event request_data request_sig = inl event ->
  ev_type event = "charge:confirmed" ->
  coinbase_webhook request_data request_sig now st
  = match handle_coinbase_event event now st with
    | (Some true, st') => (Reply "success" 200, st')
    | (Some false, st') => (Reply "error" 400, st')
    | (None, st') => (Uncaught "handle_coinbase_event", st')
    end.
Proof.
  intros C T. unfold Billing.coinbase_webhook. rewrite C, T. reflexivity.
Qed.

Lemma handle_coinbase_event_false (event : Event) (now : nat) (st : Store) :
  match fst (handle_coinbase_event event now st) with
  | Some true => True
  | _ => snd (handle_coinbase_event event now st) = st
  end
  /\ users (snd (handle_coinbase_event event now st)) = users st
  /\ subscriptions (snd (handle_coinbase_event event now st)) = subscriptions st.
Proof.
  unfold Billing.handle_coinbase_event.
  destruct (ev_user_id event) as [uid|]; [|simpl; auto].
  destruct (ev_code event) as [c|]; [|simpl; auto].
  destruct (User_get st (Some uid)) as [u|]; [|simpl; auto].
  destruct (CoinbaseSubscription_get_by st uid) as [old|]; simpl; auto.
Qed.

(** X28: what [/coinbase] refuses it does not act on.  A payload whose
    signature [Webhook.construct_event] rejects is answered with the text
    of the error and 400; an event of another type than "charge:confirmed"
    is answered "success" without a look at it; a confirmed charge of a
    user the store does not know is answered "error" with 400; every
    answer with 400 leaves the store exactly as it was, and no call touches
    the users or the Paddle subscriptions. *)
Theorem coinbase_webhook_refusals (request_data : string) (request_sig : option string)
    (now : nat) (st : Store) :
  let out := coinbase_webhook request_data request_sig now st in
  (forall e, construct_event request_data request_sig = inr e -> out = (Reply e 400, st))
  /\ (forall event,
        construct_event request_data request_sig = inl event ->
        ev_type event <> "charge:confirmed" ->
        out = (Reply "success" 200, st))
  /\ (forall event uid c,
        construct_event request_data request_sig = inl event ->
        ev_type event = "charge:confirmed" ->
        ev_user_id event = Some uid ->
        ev_code event = Some c ->
        User_get st (Some uid) = None ->
        out = (Reply "error" 400, st))
  /\ (forall body, fst out = Reply body 400 -> snd out = st)
  /\ users (snd out) = users st
  /\ subscriptions (snd out) = subscriptions st.
Proof.
  cbv zeta. split; [|split; [|split]].
  - intros e C. unfold Billing.coinbase_webhook. rewrite C. reflexivity.
  - intros event C T. unfold Billing.coinbase_webhook. rewrite C.
    apply String.eqb_neq in T. rewrite T. reflexivity.
  - intros event uid c C T U Cd G. rewrite (coinbase_webhook_confirmed _ _ _ _ _ C T).
    unfold Billing.handle_coinbase_event. rewrite U, Cd, G. reflexivity.
  - unfold Billing.coinbase_webhook.
    destruct (construct_event request_data request_sig) as [event|e].
    + destruct (String.eqb (ev_type event) "charge:confirmed").
      * pose proof (handle_coinbase_event_false event now st) as (H & Hu & Hs).
        destruct (handle_coinbase_event event now st) as [[[|]|] st']; simpl in *.
        -- split; [discriminate|auto].
        -- split; [intros _ _; exact H|auto].
        -- split; [discriminate|auto].
      * simpl. split; [discriminate|auto].
    + simpl. auto.
Qed.

(** X29: a confirmed charge.  For a user the store knows, a confirmed
    charge with signature and fields in order is answered "success" after
    one commit and one mail to that user; the user then has a Coinbase
    subscription with the code of the charge: a new one that ends
    [shift(years=1)] after now if the user had none, else the one of
    before, ending [shift(years=1)] after its old end if [is_active] says
    it still runs and after now if not; no other subscription is changed.
    Where [is_active] means that the end lies ahead and a shift by a year
    moves forward, a subscription never gets shorter: its end lies after
    now and, if there was one, after the old end. *)
Theorem coinbase_charge_confirmed (request_data : string) (request_sig : option string)
    (now : nat) (st : Store) (event : Event) (uid : nat) (c : string) (user : User) :
  construct_event request_data request_sig = inl event ->
  ev_type event = "charge:confirmed" ->
  ev_user_id event = Some uid ->
  ev_code event = Some c ->
  User_get st (Some uid) = Some user ->
  let out := coinbase_webhook request_data request_sig now st in
  fst out = Reply "success" 200
  /\ commits (snd out) = S (commits st)
  /\ (exists subject plaintext html,
        sent (snd out) = (sent st ++ [mkEmail (user_email user) subject plaintext html])%list)
  /\ exists sub,
       CoinbaseSubscription_get_by (snd out) uid = Some sub
       /\ cs_user_id sub = uid
       /\ code sub = c
       /\ match CoinbaseSubscription_get_by st uid with
          | None =>
              end_at sub = shift_years_1 now
              /\ coinbase_subscriptions (snd out) = (coinbase_subscriptions st ++ [sub])%list
          | Some old =>
              cs_id sub = cs_id old
              /\ end_at sub = (if is_active (set_code c old) now
                               then shift_years_1 (end_at old) else shift_years_1 now)
              /\ coinbase_subscriptions (snd out)
                 = map (fun s => if Nat.eqb (cs_id s) (cs_id old) then sub else s)
                       (coinbase_subscriptions st)
          end
       /\ ((forall s t, is_active s t = true <-> t < end_at s) ->
           (forall t, t < shift_years_1 t) ->
           now < end_at sub
           /\ forall old, CoinbaseSubscription_get_by st uid = Some old ->
                          end_at old < end_at sub).
Proof.
  intros C T U Cd G. cbv zeta. rewrite (coinbase_webhook_confirmed _ _ _ _ _ C T).
  unfold Billing.handle_coinbase_event. rewrite U, Cd, G.
  destruct (CoinbaseSubscription_get_by st uid) as [old|] eqn:S.
  - rewrite set_code_same. cbn [fst snd].
    split; [reflexivity|]. split; [reflexivity|]. split; [do 3 eexists; reflexivity|].
    assert (Hold : cs_user_id old = uid).
    { apply find_some in S as [_ S]. now apply Nat.eqb_eq in S. }
    eexists. split.
    + unfold CoinbaseSubscription_get_by, send_email, commit, update_coinbase_subscription,
        with_coinbase_subscriptions. cbn [coinbase_subscriptions].
      assert (F : forall l,
                 find (fun s => Nat.eqb (cs_user_id s) uid) l = Some old ->
                 find (fun s => Nat.eqb (cs_user_id s) uid)
                      (map (fun s => if Nat.eqb (cs_id s) (cs_id old)
                                     then (if is_active (set_code c old) now
                                           then set_end_at (shift_years_1
                                                              (end_at (set_code c old)))
                                                           (set_code c old)
                                           else set_end_at (shift_years_1 now)
                                                           (set_code c old))
                                     else s) l)
                 = Some (if is_active (set_code c old) now
                         then set_end_at (shift_years_1 (end_at (set_code c old)))
                                         (set_code c old)
                         else set_end_at (shift_years_1 now) (set_code c old))).
      { induction l as [|y l IH]; simpl; intros Hf; [discriminate|].
        destruct (Nat.eqb (cs_user_id y) uid) eqn:Y.
        - injection Hf as ->. rewrite Nat.eqb_refl.
          destruct (is_active (set_code c old) now); simpl; rewrite Y; reflexivity.
        - destruct (Nat.eqb (cs_id y) (cs_id old)) eqn:K.
          + destruct (is_active (set_code c old) now); simpl; rewrite Hold, Nat.eqb_refl;
              reflexivity.
          + rewrite Y. now apply IH. }
      exact (F _ S).
    + destruct (is_active (set_code c old) now) eqn:A; simpl.
      * split; [exact Hold|]. split; [reflexivity|].
        split; [split; [reflexivity|split; reflexivity]|].
        intros Hact Hshift. apply Hact in A. simpl in A.
        split; [specialize (Hshift (end_at old)); lia|].
        intros old' E. injection E as <-. apply Hshift.
      * split; [exact Hold|]. split; [reflexivity|].
        split; [split; [reflexivity|split; reflexivity]|].
        intros Hact Hshift. split; [apply Hshift|].
        intros old' E. injection E as <-.
        assert (N : ~ now < end_at (set_code c old)).
        { intros L. apply Hact in L. congruence. }
        simpl in N. specialize (Hshift now). lia.
  - cbn [fst snd]. split; [reflexivity|]. split; [reflexivity|].
    split; [do 3 eexists; reflexivity|].
    eexists. split.
    + unfold CoinbaseSubscription_get_by, send_email, commit, with_coinbase_subscriptions.
      cbn [coinbase_subscriptions]. apply find_app_new; [exact S|]. simpl. apply Nat.eqb_refl.
    + simpl. split; [reflexivity|]. split; [reflexivity|]. split; [auto|].
      intros _ Hshift. split; [apply Hshift|]. intros old E. discriminate.
Qed.

Lemma map_fresh_key (l : list CoinbaseSubscription) (k : nat) (x : CoinbaseSubscription) :
  ~ In k (map cs_id l) ->
  map (fun s => if Nat.eqb (cs_id s) k then x else s) l = l.
Proof.
  induction l as [|y l IH]; simpl; intros H; [reflexivity|].
  destruct (Nat.eqb (cs_id y) k) eqn:E.
  - apply Nat.eqb_eq in E. elim H. now left.
  - f_equal. apply IH. intros Hin. apply H. now right.
Qed.

(** X30: two charges in a row.  A user without a Coinbase subscription
    whose charge is confirmed at [now1], and again at [now2], has one
    subscription after the two, with the code of the second charge; it has
    been mailed "upgraded" and then "extended"; and, [is_active] meaning
    that the end lies ahead, the subscription ends two shifts of a year
    after [now1] if the second charge came while the first year ran, and
    one shift after [now2] if it came later. *)
Theorem coinbase_two_charges (data1 data2 : string) (sig1 sig2 : option string)
    (now1 now2 : nat) (st : Store) (event1 event2 : Event) (uid : nat) (c1 c2 : string)
    (user : User) :
  construct_event data1 sig1 = inl event1 ->
  ev_type event1 = "charge:confirmed" ->
  ev_user_id event1 = Some uid ->
  ev_code event1 = Some c1 ->
  construct_event data2 sig2 = inl event2 ->
  ev_type event2 = "charge:confirmed" ->
  ev_user_id event2 = Some uid ->
  ev_code event2 = Some c2 ->
  User_get st (Some uid) = Some user ->
  CoinbaseSubscription_get_by st uid = None ->
  (forall s t, is_active s t = true <-> t < end_at s) ->
  let out1 := coinbase_webhook data1 sig1 now1 st in
  let out2 := coinbase_webhook data2 sig2 now2 (snd out1) in
  fst out1 = Reply "success" 200
  /\ fst out2 = Reply "success" 200
  /\ sent (snd out2)
     = (sent st
        ++ [mkEmail (user_email user) "Your SimpleLogin account has been upgraded"
                    "transactional/coinbase/new-subscription.txt"
                    (Some "transactional/coinbase/new-subscription.html");
            mkEmail (user_email user) "Your SimpleLogin account has been extended"
                    "transactional/coinbase/extend-subscription.txt"
                    (Some "transactional/coinbase/extend-subscription.html")])%list
  /\ exists sub,
       coinbase_subscriptions (snd out2) = (coinbase_subscriptions st ++ [sub])%list
       /\ cs_user_id sub = uid
       /\ code sub = c2
       /\ end_at sub = (if (now2 <? shift_years_1 now1)%nat
                        then shift_years_1 (shift_years_1 now1)
                        else shift_years_1 now2).
Proof.
  intros C1 T1 U1 Cd1 C2 T2 U2 Cd2 G S Hact. cbv zeta.
  set (new := mkCoinbaseSubscription (next_id (map cs_id (coinbase_subscriptions st))) uid
                                     (shift_years_1 now1) c1).
  set (st1 := send_email (user_email user) "Your SimpleLogin account has been upgraded"
                "transactional/coinbase/new-subscription.txt"
                (Some "transactional/coinbase/new-subscription.html")
                (commit (with_coinbase_subscriptions (coinbase_subscriptions st ++ [new])%list
                                                     st))).
  assert (E1 : coinbase_webhook data1 sig1 now1 st = (Reply "success" 200, st1)).
  { rewrite (coinbase_webhook_confirmed _ _ _ _ _ C1 T1).
    unfold Billing.handle_coinbase_event. rewrite U1, Cd1, G, S. reflexivity. }
  rewrite E1. cbn [fst snd].
  assert (S1 : CoinbaseSubscription_get_by st1 uid = Some new).
  { unfold CoinbaseSubscription_get_by. change (coinbase_subscriptions st1)
      with (coinbase_subscriptions st ++ [new])%list.
    apply find_app_new; [exact S|]. simpl. apply Nat.eqb_refl. }
  assert (A : is_active (set_code c2 new) now2 = (now2 <? shift_years_1 now1)%nat).
  { destruct (now2 <? shift_years_1 now1)%nat eqn:L.
    - apply Nat.ltb_lt in L. apply Hact. exact L.
    - apply Nat.ltb_ge in L. destruct (is_active (set_code c2 new) now2) eqn:A;
        [|reflexivity]. apply Hact in A. simpl in A. lia. }
  set (sub := if (now2 <? shift_years_1 now1)%nat
              then set_end_at (shift_years_1 (end_at (set_code c2 new))) (set_code c2 new)
              else set_end_at (shift_years_1 now2) (set_code c2 new)).
  assert (E2 : coinbase_webhook data2 sig2 now2 st1
               = (Reply "success" 200,
                  send_email (user_email user) "Your SimpleLogin account has been extended"
                             "transactional/coinbase/extend-subscription.txt"
                             (Some "transactional/coinbase/extend-subscription.html")
                             (commit (update_coinbase_subscription (cs_id new)
                                                                   (fun _ => sub) st1)))).
  { rewrite (coinbase_webhook_confirmed _ _ _ _ _ C2 T2).
    unfold Billing.handle_coinbase_event. rewrite U2, Cd2.
    change (User_get st1 (Some uid)) with (User_get st (Some uid)).
    rewrite G, S1, set_code_same, A. reflexivity. }
  rewrite E2. cbn [fst snd].
  split; [reflexivity|]. split; [reflexivity|]. split.
  { unfold st1, send_email, commit, update_coinbase_subscription,
      with_coinbase_subscriptions. simpl. rewrite <- app_assoc. reflexivity. }
  assert (Hfresh : ~ In (cs_id new) (map cs_id (coinbase_subscriptions st))).
  { intros Hin. pose proof (next_id_fresh (map cs_id (coinbase_subscriptions st))) as F.
    rewrite Forall_forall in F. exact (F _ Hin eq_refl). }
  exists sub. split.
  - unfold send_email, commit, update_coinbase_subscription, with_coinbase_subscriptions.
    cbn [coinbase_subscriptions].
    change (coinbase_subscriptions st1) with (coinbase_subscriptions st ++ [new])%list.
    rewrite map_app, (map_fresh_key _ (cs_id new) _ Hfresh). simpl.
    rewrite Nat.eqb_refl. reflexivity.
  - unfold sub. destruct (now2 <? shift_years_1 now1)%nat; simpl; auto.
Qed.

End CoinbaseFacts.

End BillingFacts.

(** * The payment webhooks on concrete stores *)

Lemma paddle_subscription_created_witness :
  let out := Billing.paddle BillingCases.MONTHLY_ID BillingCases.MONTHLY_IDS
               BillingCases.YEARLY_IDS BillingCases.verify false
               BillingCases.created_form 200 BillingCases.store0 in
  fst out = Billing.Reply "OK" 200
  /\ Billing.subscriptions (snd out)
     = [Billing.mkSubscription 1 1 (Some "https://pay.example/cancel/2")
                               (Some "https://pay.example/update/2") (Some "sub-2")
                               200 500 Billing.yearly false].
Proof.
  destruct (BillingFacts.paddle_subscription_created
              BillingCases.MONTHLY_ID BillingCases.MONTHLY_IDS BillingCases.YEARLY_IDS
              BillingCases.verify false BillingCases.created_form 200 BillingCases.store0
              1 BillingCases.alice 20 Billing.yearly 500
              eq_refl eq_refl eq_refl eq_refl eq_refl eq_refl eq_refl)
    as (Hok & _ & _ & _ & sub & Hget & _ & _ & _ & _ & _ & _ & Hnew).
  split; [exact Hok|]. vm_compute in Hget. injection Hget as <-. exact Hnew.
Defined.

Lemma paddle_cancel_then_subscribe_witness :
  let out1 := Billing.paddle BillingCases.MONTHLY_ID BillingCases.MONTHLY_IDS
                BillingCases.YEARLY_IDS BillingCases.verify false
                BillingCases.cancelled_form 150 BillingCases.store1 in
  let out2 := Billing.paddle BillingCases.MONTHLY_ID BillingCases.MONTHLY_IDS
                BillingCases.YEARLY_IDS BillingCases.verify false
                BillingCases.created_form 200 (snd out1) in
  length (Billing.sent (snd out2)) = 1
  /\ length (Billing.subscriptions (snd out2)) = 1
  /\ exists s2,
       Billing.Subscription_get_by_user_id (snd out2) 1 = Some s2
       /\ Billing.cancelled s2 = false
       /\ Billing.plan s2 = Billing.yearly.
Proof.
  destruct (BillingFacts.paddle_cancel_then_subscribe
              BillingCases.MONTHLY_ID BillingCases.MONTHLY_IDS BillingCases.YEARLY_IDS
              BillingCases.verify false BillingCases.cancelled_form BillingCases.created_form
              150 200 BillingCases.store1 BillingCases.alice_sub BillingCases.alice
              20 Billing.yearly 500
              eq_refl eq_refl eq_refl eq_refl eq_refl eq_refl eq_refl eq_refl eq_refl
              eq_refl eq_refl)
    as (_ & Hs1 & _ & _ & Hs2 & Hl & s2 & Hget & _ & Hc & Hp & _).
  split; [rewrite Hs2, Hs1; reflexivity|]. split; [exact Hl|].
  exists s2. auto.
Defined.

Lemma paddle_subscription_updated_plan_witness :
  Billing.plan_of_created BillingCases.MONTHLY_IDS BillingCases.YEARLY_IDS 11
  = Some Billing.monthly
  /\ exists sub,
       Billing.Subscription_get_by_subscription_id
         (snd (Billing.paddle BillingCases.MONTHLY_ID BillingCases.MONTHLY_IDS
                 BillingCases.YEARLY_IDS BillingCases.verify false
                 BillingCases.updated_form 150 BillingCases.store1))
         (Some "sub-1") = Some sub
       /\ Billing.plan sub = Billing.yearly.
Proof.
  destruct (BillingFacts.paddle_subscription_updated_plan
              BillingCases.MONTHLY_ID BillingCases.MONTHLY_IDS BillingCases.YEARLY_IDS
              BillingCases.verify false BillingCases.updated_form 150 BillingCases.store1
              BillingCases.alice_sub 11 160 eq_refl eq_refl eq_refl eq_refl eq_refl)
    as (_ & sub & Hget & _ & _ & _ & _ & Hre & _).
  destruct Hre as [Hm Hy].
  - right. left. reflexivity.
  - discriminate.
  - split; [exact Hm|]. exists sub. split; [exact Hget|exact Hy].
Defined.

Lemma coinbase_charge_confirmed_witness :
  let out := Billing.coinbase_webhook BillingCases.construct BillingCases.is_active
               BillingCases.shift "CODE1" (Some "valid") 1000 BillingCases.store0 in
  fst out = Billing.Reply "success" 200
  /\ exists sub,
       Billing.coinbase_subscriptions (snd out) = [sub]
       /\ Billing.code sub = "CODE1"
       /\ Billing.end_at sub = 1365.
Proof.
  destruct (BillingFacts.coinbase_charge_confirmed
              BillingCases.construct BillingCases.is_active BillingCases.shift
              "CODE1" (Some "valid") 1000 BillingCases.store0
              (Billing.mkEvent "charge:confirmed" (Some 1) (Some "CODE1")) 1 "CODE1"
              BillingCases.alice eq_refl eq_refl eq_refl eq_refl eq_refl)
    as (Hok & _ & _ & sub & _ & _ & Hc & Hnew & _).
  destruct Hnew as [He Hl].
  split; [exact Hok|]. exists sub. split; [exact Hl|]. split; [exact Hc|exact He].
Defined.

Lemma coinbase_two_charges_witness :
  let out1 := Billing.coinbase_webhook BillingCases.construct BillingCases.is_active
                BillingCases.shift "CODE1" (Some "valid") 1000 BillingCases.store0 in
  let out2 := Billing.coinbase_webhook BillingCases.construct BillingCases.is_active
                BillingCases.shift "CODE2" (Some "valid") 1100 (snd out1) in
  exists sub,
    Billing.coinbase_subscriptions (snd out2) = [sub]
    /\ Billing.code sub = "CODE2"
    /\ Billing.end_at sub = 1730.
Proof.
  destruct (BillingFacts.coinbase_two_charges
              BillingCases.construct BillingCases.is_active BillingCases.shift
              "CODE1" "CODE2" (Some "valid") (Some "valid") 1000 1100 BillingCases.store0
              (Billing.mkEvent "charge:confirmed" (Some 1) (Some "CODE1"))
              (Billing.mkEvent "charge:confirmed" (Some 1) (Some "CODE2"))
              1 "CODE1" "CODE2" BillingCases.alice
              eq_refl eq_refl eq_refl eq_refl eq_refl eq_refl eq_refl eq_refl eq_refl eq_refl)
    as (_ & _ & _ & sub & Hl & _ & Hc & He).
  - intros s t. unfold BillingCases.is_active. apply Nat.ltb_lt.
  - exists sub. split; [exact Hl|]. split; [exact Hc|exact He].
Defined.
